(** * Plaid biclustering (biclustlib/algorithms/plaid.py): a shallow embedding

    The development follows [plaid.py] function by function.

    - The program computes in the arithmetic of its arrays.  The model is
      written over an arithmetic [Arith F] that provides what the program
      uses: the constants [0.0] and [1.0], [+], [-], [*], [<], [<=] and the
      reductions [np.sum] and [np.mean].  Two arithmetics are given: the
      exact rationals ([Q_arith]), and IEEE 754 binary64 ([binary64]), the
      [float64] of numpy and the [float] of Python, with its rounding, its
      underflow and its NaN.  A theorem stated for every arithmetic holds
      for both; a theorem that needs a law of the rationals is stated for
      [Q] and says so.
    - The input is an array of floating dtype.  On an array of integers the
      in-place subtractions of [run] cast a floating result into an integer
      buffer, which is outside the model.
    - A numpy array is a shape together with its row-major buffer
      ([ndarray]).  An array that the program mutates in place or stores in a
      list ([data], [residuals], [shuffled_residuals], the entries of
      [layers]) is an object of a store indexed by locations.  An array that is
      only read after its creation (a fitted layer, the result of an indexing
      expression) is carried as a value, and enters the store when it is
      appended to [layers].  A view that is only read ([residuals.T],
      [layer.T]) is the value read through it at the call.
    - The Python lists [layers] and [biclusters] are objects of the same
      store, so that the aliasing between [biclusters] and the [Biclustering]
      returned is explicit.
    - Exceptions are results ([Raise]); the store survives an exception.
    - [sklearn.cluster.k_means] and [numpy.random.shuffle] are external: they
      are section variables acting on the state of the random source.
    - Two operations are narrower than numpy's.  [elementwise] takes two
      arrays of one shape, which is how the program uses it whenever the
      layer has the shape of the selection; numpy would broadcast some other
      pairs of shapes.  [take_grid] checks every index; numpy checks none
      when one of the two index arrays is empty, the selection being empty
      then. *)

From Stdlib Require Import QArith ZArith List String Lia Floats.
From stdpp Require Import base gmap list.

Local Open Scope Q_scope.
Local Open Scope nat_scope.

(** ** Exceptions and fallible pure computations *)

(** [BadReference] stands for the use of a location that holds no object of
    the expected class, which a run of the program never does. *)
Inductive exn :=
  | ValueError (msg : string)
  | IndexError
  | BadReference.

Inductive res (A : Type) :=
  | Ok (a : A)
  | Raise (e : exn).
Arguments Ok {A} a.
Arguments Raise {A} e.

Global Instance res_ret : MRet res := λ A a, Ok a.
Global Instance res_bind : MBind res := λ A B f m,
  match m with Ok a => f a | Raise e => Raise e end.

(** ** The arithmetic of the entries *)

(** What the program asks of the numbers it computes with.  [fle x y] is
    [x <= y], which is also how [y >= x] is decided.  The order in which a
    reduction adds its terms is not fixed by the text of the program, so
    each reduction is a function of the sequence it reduces: the row-major
    buffer for [np.sum(x)] and [np.mean(x)], a row for [axis=1], a column
    for [axis=0]. *)
Class Arith (F : Type) := {
  fzero : F;
  fone : F;
  fadd : F → F → F;
  fsub : F → F → F;
  fmul : F → F → F;
  flt : F → F → bool;
  fle : F → F → bool;
  fsum_all : list F → F;
  fsum_axis1 : list F → F;
  fmean_all : list F → F;
  fmean_axis1 : list F → F;
  fmean_axis0 : list F → F
}.
Global Hint Mode Arith ! : typeclass_instances.

(** ** Arrays *)

Record ndarray (F : Type) := mk_ndarray { nrows : nat; ncols : nat; cells : list F }.
Arguments mk_ndarray {F} _ _ _.
Arguments nrows {F} _.
Arguments ncols {F} _.
Arguments cells {F} _.

(** [numpy.arange(n)] *)
Definition arange (n : nat) : list nat := seq 0 n.

(** [np.where(mask)[0]] for a one-dimensional mask *)
Definition where_true (mask : list bool) : list nat :=
  omap (λ pb : nat * bool, if pb.2 then Some pb.1 else None)
       (zip (arange (length mask)) mask).

(** [v[idx]] for one-dimensional [v] and an integer index array *)
Definition take_1d (v idx : list nat) : res (list nat) :=
  match mapM (λ p, v !! p) idx with
  | Some l => Ok l
  | None => Raise IndexError
  end.

(** [np.bincount(labels)] for non-negative integer labels *)
Definition bincount (labels : list nat) : list nat :=
  match labels with
  | [] => []
  | _ => map (λ v, length (filter (λ x, x = v) labels)) (arange (S (max_list labels)))
  end.

Section Arrays.

Context {F : Type} `{!Arith F}.

Local Abbreviation ndarray := (ndarray F).

Definition wf (a : ndarray) : Prop := length (cells a) = nrows a * ncols a.

Definition same_shape (a b : ndarray) : bool :=
  (nrows a =? nrows b) && (ncols a =? ncols b).

(** [a[i, j]] of a C-contiguous buffer. *)
Definition get (a : ndarray) (i j : nat) : F := nth (i * ncols a + j) (cells a) fzero.

(** [a.T] *)
Definition transpose (a : ndarray) : ndarray :=
  mk_ndarray (ncols a) (nrows a)
    (flat_map (λ j, map (λ i, get a i j) (arange (nrows a))) (arange (ncols a))).

(** [a[rows[:, np.newaxis], cols]]: a fresh array; an index out of range
    raises [IndexError]. *)
Definition take_grid (a : ndarray) (rows cols : list nat) : res ndarray :=
  if forallb (λ i, i <? nrows a) rows && forallb (λ j, j <? ncols a) cols
  then Ok (mk_ndarray (length rows) (length cols)
             (flat_map (λ i, map (λ j, get a i j) cols) rows))
  else Raise IndexError.

(** Element-wise binary operation on two arrays of one shape. *)
Definition elementwise (op : F → F → F) (a b : ndarray) : res ndarray :=
  if same_shape a b
  then Ok (mk_ndarray (nrows a) (ncols a) (zip_with op (cells a) (cells b)))
  else Raise (ValueError "operands could not be broadcast together").

(** [np.sum(a, axis=1)] *)
Definition sum_axis1 (a : ndarray) : list F :=
  map (λ i, fsum_axis1 (map (get a i) (arange (ncols a)))) (arange (nrows a)).

(** [np.sum(a)] *)
Definition np_sum (a : ndarray) : F := fsum_all (cells a).

(** [np.mean(a)], [np.mean(a, axis=1)], [np.mean(a, axis=0)].  The mean of
    no entry at all is whatever the arithmetic gives (NaN in binary64);
    [_create_layer] stores none, an array with an empty axis having no
    cell. *)
Definition np_mean (a : ndarray) : F := fmean_all (cells a).

Definition mean_axis1 (a : ndarray) : list F :=
  map (λ i, fmean_axis1 (map (get a i) (arange (ncols a)))) (arange (nrows a)).

Definition mean_axis0 (a : ndarray) : list F :=
  map (λ j, fmean_axis0 (map (λ i, get a i j) (arange (nrows a)))) (arange (ncols a)).

(** ** [Plaid._create_layer] *)

Definition _create_layer (residuals : ndarray) : ndarray :=
  let mean := np_mean residuals in
  let row_effects := map (λ x, fsub x mean) (mean_axis1 residuals) in
  let col_effects := map (λ x, fsub x mean) (mean_axis0 residuals) in
  mk_ndarray (length row_effects) (length col_effects)
    (flat_map (λ re, map (λ ce, fadd (fadd mean re) ce) col_effects) row_effects).

(** ** [Plaid._prune] *)

Definition _prune (residuals layer : ndarray) (rows cols : list nat)
    (prunning_threshold : F) : res (list nat) :=
  res_ ← take_grid residuals rows cols;
  diff ← elementwise fsub res_ layer;
  diff2 ← elementwise fmul diff diff;
  let sum_squared_diff := sum_axis1 diff2 in
  res2 ← elementwise fmul res_ res_;
  let sum_squared_residuals := sum_axis1 res2 in
  let selected_indices :=
    where_true (zip_with flt sum_squared_diff
                  (map (fmul (fsub fone prunning_threshold)) sum_squared_residuals)) in
  take_1d rows selected_indices.

(** In-place scatter [a[rows[:, np.newaxis], cols] = v], the store half of an
    augmented assignment; the indices were checked by the preceding read. *)
Definition put_grid (a : ndarray) (rows cols : list nat) (v : ndarray) : ndarray :=
  mk_ndarray (nrows a) (ncols a)
    (foldl (λ buf pi,
         foldl (λ buf qj, <[pi.2 * ncols a + qj.2 := get v pi.1 qj.1]> buf)
               buf (zip (arange (length cols)) cols))
       (cells a) (zip (arange (length rows)) rows)).

End Arrays.

(** ** Parameters of the algorithm ([Plaid.__init__]) *)

Record Plaid (F : Type) := mk_Plaid {
  num_biclusters : Z;
  fit_background_layer : bool;
  row_prunning_threshold : F;
  col_prunning_threshold : F;
  significance_tests : Z;
  back_fitting_steps : Z;
  initialization_iterations : Z;
  iterations_per_layer : Z;
  return_layers : bool
}.
Arguments mk_Plaid {F} _ _ _ _ _ _ _ _ _.
Arguments num_biclusters {F} _.
Arguments fit_background_layer {F} _.
Arguments row_prunning_threshold {F} _.
Arguments col_prunning_threshold {F} _.
Arguments significance_tests {F} _.
Arguments back_fitting_steps {F} _.
Arguments initialization_iterations {F} _.
Arguments iterations_per_layer {F} _.
Arguments return_layers {F} _.

(** ** [Plaid._validate_parameters] *)

Definition _validate_parameters {F : Type} `{!Arith F} (self : Plaid F) : res unit :=
  if (num_biclusters self <=? 0)%Z || (initialization_iterations self <=? 0)%Z
     || (iterations_per_layer self <? 0)%Z
  then Raise (ValueError "'num_biclusters', 'initialization_iterations' and 'iterations_per_layer' values must all be greater than zero")
  else if (significance_tests self <? 0)%Z || (back_fitting_steps self <? 0)%Z
  then Raise (ValueError "'significance_tests' and 'back_fitting_steps' must be greater than or equal to zero")
  else if fle fone (row_prunning_threshold self) || fle (row_prunning_threshold self) fzero
          || fle fone (col_prunning_threshold self) || fle (col_prunning_threshold self) fzero
  then Raise (ValueError "both 'row_prunning_threshold' and 'col_prunning_threshold' must be greater than zero and less than 1.0")
  else Ok ().

(** ** Result entities *)

Definition loc := nat.

(** Modelled from the spec: the class [Bicluster] of [biclustlib.models],
    which is not among the sources: a pair of a row index sequence and a
    column index sequence, kept in the order of discovery. *)
Record Bicluster := mk_Bicluster { b_rows : list nat; b_cols : list nat }.

(** Modelled from the spec: the class [Biclustering] of [biclustlib.models],
    which is not among the sources: the ordered sequence of biclusters.  The
    object keeps the list it is built from (it is that sequence, not a copy),
    which is what [run] relies on when it trims [biclusters] after building
    the result. *)
Record Biclustering := mk_Biclustering { biclusters : loc }.

(** What [run] returns: the biclustering alone, or with the list of layers. *)
Inductive run_result :=
  | OnlyBiclustering (b : Biclustering)
  | WithLayers (b : Biclustering) (layers : loc).

(** ** The store *)

Inductive pyobj (F : Type) :=
  | PyArray (a : ndarray F)
  | PyLayers (l : list loc)
  | PyBiclusters (l : list Bicluster).
Arguments PyArray {F} a.
Arguments PyLayers {F} l.
Arguments PyBiclusters {F} l.

(** Loop control: the body of a [for] either falls through or leaves the
    loop ([break], [return]). *)
Inductive ctrl (A : Type) :=
  | Continue (a : A)
  | Break (a : A).
Arguments Continue {A} a.
Arguments Break {A} a.

(** The store: the objects by location, and the state of the random source. *)
Record state (F R : Type) := mk_state { heap : gmap loc (pyobj F); rng : R }.
Arguments mk_state {F R} _ _.
Arguments heap {F R} _.
Arguments rng {F R} _.

(** ** Exact arithmetic *)

Definition Qltb (x y : Q) : bool := negb (Qle_bool y x).

Definition Qsum (l : list Q) : Q := foldr Qplus 0%Q l.

Definition Qnat (n : nat) : Q := inject_Z (Z.of_nat n).

(** The average of a sequence of numbers. *)
Definition average (l : list Q) : Q := (Qsum l / Qnat (length l))%Q.

(** The rationals: every operation is exact, and a reduction does not depend
    on the order of its terms. *)
Global Instance Q_arith : Arith Q := {|
  fzero := 0%Q;
  fone := 1%Q;
  fadd := Qplus;
  fsub := Qminus;
  fmul := Qmult;
  flt := Qltb;
  fle := Qle_bool;
  fsum_all := Qsum;
  fsum_axis1 := Qsum;
  fmean_all := average;
  fmean_axis1 := average;
  fmean_axis0 := average
|}.

(** The pruning rule in the words of the specification, over the rationals:
    the index [i], at position [p] of the current selection, is scored over
    the index set [others] of the other axis; [layer] is indexed by
    positions. *)
Definition retained (residuals layer : ndarray Q) (others : list nat) (threshold : Q)
    (p i : nat) : Prop :=
  (Qsum (imap (λ q j, (get residuals i j - get layer p q)
                      * (get residuals i j - get layer p q)) others)
     < (1 - threshold) * Qsum (map (λ j, get residuals i j * get residuals i j) others))%Q.

(** The same rule for columns, read on the untransposed arrays. *)
Definition col_retained (residuals layer : ndarray Q) (rows : list nat) (threshold : Q)
    (q j : nat) : Prop :=
  (Qsum (imap (λ p i, (get residuals i j - get layer p q)
                      * (get residuals i j - get layer p q)) rows)
     < (1 - threshold) * Qsum (map (λ i, get residuals i j * get residuals i j) rows))%Q.

(** The sum of the squares of the entries of a layer, over the rationals. *)
Definition exact_sum_of_squares (layer : ndarray Q) : Q :=
  Qsum (map (λ x, x * x)%Q (cells layer)).

(** ** Binary64 arithmetic *)

Definition float_of_nat (n : nat) : float :=
  PrimFloat.of_uint63 (Uint63.of_Z (Z.of_nat n)).

(** A reduction that adds its terms from left to right. *)
Definition b64_sum (l : list float) : float := foldl PrimFloat.add 0%float l.

Definition b64_mean (l : list float) : float :=
  PrimFloat.div (b64_sum l) (float_of_nat (length l)).

(** IEEE 754 binary64, rounding to nearest.  numpy adds the terms of a long
    reduction in another order than from left to right; the examples below
    reduce one or two terms, or integers whose partial sums are all exact,
    so that every order of addition gives the number computed here (a zero
    sum is computed as [+0.0], which compares as [-0.0] does). *)
Global Instance binary64 : Arith float := {|
  fzero := 0%float;
  fone := 1%float;
  fadd := PrimFloat.add;
  fsub := PrimFloat.sub;
  fmul := PrimFloat.mul;
  flt := PrimFloat.ltb;
  fle := PrimFloat.leb;
  fsum_all := b64_sum;
  fsum_axis1 := b64_sum;
  fmean_all := b64_mean;
  fmean_axis1 := b64_mean;
  fmean_axis0 := b64_mean
|}.

(** The rational that a finite binary64 number stands for. *)
Definition Q_of_spec_float (x : spec_float) : option Q :=
  match x with
  | S754_zero _ => Some 0%Q
  | S754_finite s m e =>
      let v := if (0 <=? e)%Z then inject_Z (Z.pos m * 2 ^ e)
               else (Z.pos m # Pos.pow 2 (Z.to_pos (- e)))%Q in
      Some (if s then (- v)%Q else v)
  | _ => None
  end.

Definition Q_of_float (x : float) : option Q := Qred <$> Q_of_spec_float (Prim2SF x).

(** An array of finite binary64 numbers, read as an array of rationals. *)
Definition exact_array (a : ndarray float) : option (ndarray Q) :=
  mk_ndarray (nrows a) (ncols a) <$> mapM Q_of_float (cells a).

(** ** Concrete instances, used by the examples *)

(** A deterministic stand-in for [k_means]: a sample is labelled 0 when its
    first coordinate exceeds the mean of the whole matrix, and 1 otherwise. *)
Definition first_coordinate_k_means {F : Type} `{!Arith F} (g : unit) (data : ndarray F)
    (n_init : Z) : unit * res (list nat) :=
  (g, Ok (map (λ i, if flt (np_mean data) (get data i 0) then 0 else 1)
              (arange (nrows data)))).

Definition demo_k_means : unit → ndarray Q → Z → unit * res (list nat) :=
  first_coordinate_k_means.

(** A stand-in for a [k_means] that puts every sample in cluster 0. *)
Definition one_cluster_k_means (g : unit) (data : ndarray Q) (n_init : Z)
    : unit * res (list nat) :=
  (g, Ok (map (λ _, 0) (arange (nrows data)))).

(** A deterministic stand-in for [numpy.random.shuffle]: the buffer reversed. *)
Definition demo_shuffle (g : unit) (buf : list Q) : unit * list Q := (g, rev buf).

(** A small input: one large entry in the corner of a flat matrix. *)
Definition demo_matrix : ndarray Q :=
  mk_ndarray 3 3 [9; 1; 1; 1; 1; 1; 1; 1; 2]%Q.

(** The layer fitted on rows 0-1 and columns 0-1 of [demo_matrix]. *)
Definition demo_layer : ndarray Q := mk_ndarray 2 2 [7; 3; 3; -1]%Q.

(** The caller's store: the input matrix at location 0. *)
Definition demo_state : state Q unit := mk_state {[ 0 := PyArray demo_matrix ]} tt.

(** One target bicluster, thresholds 1/2, one back-fitting step, six k-means
    restarts, two pruning rounds. *)
Definition demo_params (fit_background return_layers : bool) (tests : Z) : Plaid Q :=
  mk_Plaid 1 fit_background (1 # 2) (1 # 2) tests 1 6 2 return_layers.

(** The 6x6 scenario of the specification: 5 everywhere, 25 in rows 0-1 of
    columns 0-1; background fitting and the significance test disabled. *)
Definition block_matrix : ndarray Q :=
  mk_ndarray 6 6
    (flat_map (λ i, map (λ j, if (i <? 2) && (j <? 2) then 25%Q else 5%Q) (arange 6))
              (arange 6)).

Definition block_state : state Q unit := mk_state {[ 0 := PyArray block_matrix ]} tt.

Definition block_params : Plaid Q :=
  mk_Plaid 1 false (1 # 2) (1 # 2) 0 0 6 10 false.

(** The same stand-ins and the same input in binary64. *)
Definition b64_k_means : unit → ndarray float → Z → unit * res (list nat) :=
  first_coordinate_k_means.

Definition b64_shuffle (g : unit) (buf : list float) : unit * list float := (g, rev buf).

Definition b64_matrix : ndarray float :=
  mk_ndarray 3 3 [9; 1; 1; 1; 1; 1; 1; 1; 2]%float.

(** The layer fitted on rows 0-1 and columns 0-1 of [b64_matrix]. *)
Definition b64_layer : ndarray float := mk_ndarray 2 2 [7; 3; 3; -1]%float.

Definition b64_state : state float unit := mk_state {[ 0 := PyArray b64_matrix ]} tt.

Definition b64_params (tests : Z) : Plaid float :=
  mk_Plaid 1 false 0.5%float 0.5%float tests 1 6 2 false.

(** A candidate layer with one entry far smaller than the other. *)
Definition b64_candidate : ndarray float := mk_ndarray 1 2 [9; 0x1p-30]%float.

(** A matrix of one entry whose square is below the smallest binary64
    number, and the layer fitted on it. *)
Definition tiny_matrix : ndarray float := mk_ndarray 1 1 [0x1p-600]%float.

Definition tiny_state : state float unit := mk_state {[ 0 := PyArray tiny_matrix ]} tt.

Section Plaid.

(** The arithmetic of the arrays; the state of the random source, and the
    two external procedures that consume it: [k_means data n_init] gives the
    labels found by [sklearn.cluster.k_means(data, n_clusters=2,
    n_init=n_init)] (or raises), [shuffle buffer] the buffer as
    [numpy.random.shuffle] leaves it. *)
Context {F : Type} `{!Arith F} {R : Type}.
Variable k_means : R → ndarray F → Z → R * res (list nat).
Variable shuffle : R → list F → R * list F.

Local Abbreviation ndarray := (ndarray F).
Local Abbreviation Plaid := (Plaid F).
Local Abbreviation pyobj := (pyobj F).
Local Abbreviation state := (state F R).

(** ** State and exception monad *)

Definition M (A : Type) : Type := state → res A * state.

Global Instance M_ret : MRet M := λ A a s, (Ok a, s).
Global Instance M_bind : MBind M := λ A B f m s,
  match m s with
  | (Ok a, s') => f a s'
  | (Raise e, s') => (Raise e, s')
  end.

Definition lift {A} (r : res A) : M A := λ s, (r, s).

Definition alloc (o : pyobj) : M loc := λ s,
  let l := fresh (dom (heap s)) in
  (Ok l, mk_state (<[l := o]> (heap s)) (rng s)).

Definition store (l : loc) (o : pyobj) : M unit := λ s,
  (Ok (), mk_state (<[l := o]> (heap s)) (rng s)).

Definition load_array (l : loc) : M ndarray := λ s,
  match heap s !! l with
  | Some (PyArray a) => (Ok a, s)
  | _ => (Raise BadReference, s)
  end.

Definition load_layers (l : loc) : M (list loc) := λ s,
  match heap s !! l with
  | Some (PyLayers ls) => (Ok ls, s)
  | _ => (Raise BadReference, s)
  end.

Definition load_biclusters (l : loc) : M (list Bicluster) := λ s,
  match heap s !! l with
  | Some (PyBiclusters bs) => (Ok bs, s)
  | _ => (Raise BadReference, s)
  end.

Definition call_k_means (data : ndarray) (n_init : Z) : M (list nat) := λ s,
  let '(r, labels) := k_means (rng s) data n_init in
  (labels, mk_state (heap s) r).

Definition call_shuffle (buf : list F) : M (list F) := λ s,
  let '(r, buf') := shuffle (rng s) buf in
  (Ok buf', mk_state (heap s) r).

Fixpoint for_range {A} (n : nat) (body : A → M (ctrl A)) (a : A) : M A :=
  match n with
  | O => mret a
  | S n' => c ← body a;
            match c with
            | Continue a' => for_range n' body a'
            | Break a' => mret a'
            end
  end.

Fixpoint for_each {A} (l : list A) (body : A → M unit) : M unit :=
  match l with
  | [] => mret ()
  | x :: l' => body x ;; for_each l' body
  end.

(** ** numpy and list operations on the store *)

(** [np.copy(a)] *)
Definition np_copy (l : loc) : M loc :=
  a ← load_array l; alloc (PyArray a).

(** [a -= v] *)
Definition isub (l : loc) (v : ndarray) : M unit :=
  a ← load_array l;
  a' ← lift (elementwise fsub a v);
  store l (PyArray a').

(** [a[rows[:, np.newaxis], cols] op= v] *)
Definition grid_iop (op : F → F → F) (l : loc) (rows cols : list nat)
    (v : ndarray) : M unit :=
  a ← load_array l;
  sub ← lift (take_grid a rows cols);
  new ← lift (elementwise op sub v);
  store l (PyArray (put_grid a rows cols new)).

(** [np.random.shuffle(a.flat)]: the buffer of [a] itself is permuted. *)
Definition random_shuffle_flat (l : loc) : M unit :=
  a ← load_array l;
  buf ← call_shuffle (cells a);
  store l (PyArray (mk_ndarray (nrows a) (ncols a) buf)).

(** [layers.append(x)] where [x] is an array of the store *)
Definition layers_append (layers : loc) (x : loc) : M unit :=
  ls ← load_layers layers; store layers (PyLayers (ls ++ [x])).

(** [layers[j]] *)
Definition layers_getitem (layers : loc) (j : nat) : M ndarray :=
  ls ← load_layers layers;
  match ls !! j with
  | Some x => load_array x
  | None => lift (Raise IndexError)
  end.

(** [layers[j] = x] *)
Definition layers_setitem (layers : loc) (j : nat) (x : loc) : M unit :=
  ls ← load_layers layers;
  if j <? length ls then store layers (PyLayers (<[j := x]> ls))
  else lift (Raise IndexError).

(** [layers.pop(0)] *)
Definition layers_pop0 (layers : loc) : M unit :=
  ls ← load_layers layers;
  match ls with
  | [] => lift (Raise IndexError)
  | _ :: ls' => store layers (PyLayers ls')
  end.

(** [biclusters.append(b)] *)
Definition biclusters_append (bics : loc) (b : Bicluster) : M unit :=
  bs ← load_biclusters bics; store bics (PyBiclusters (bs ++ [b])).

(** [biclusters.pop(0)] *)
Definition biclusters_pop0 (bics : loc) : M unit :=
  bs ← load_biclusters bics;
  match bs with
  | [] => lift (Raise IndexError)
  | _ :: bs' => store bics (PyBiclusters bs')
  end.

(** ** [Plaid._kmeans_initialization] *)

Definition _kmeans_initialization (self : Plaid) (residuals : ndarray) : M (list nat) :=
  labels ← call_k_means residuals (initialization_iterations self);
  match bincount labels with
  | [count0; count1] =>
      if count0 <=? count1
      then mret (where_true (map (λ x, x =? 0) labels))
      else mret (where_true (map (λ x, x =? 1) labels))
  | _ => lift (Raise (ValueError "values to unpack (expected 2)"))
  end.

(** ** [Plaid._generate_initial_bicluster] *)

Definition _generate_initial_bicluster (self : Plaid) (residuals : loc)
    : M (list nat * list nat) :=
  a ← load_array residuals;
  rows ← _kmeans_initialization self a;
  a ← load_array residuals;
  cols ← _kmeans_initialization self (transpose a);
  mret (rows, cols).

(** ** [Plaid._fit_layer] *)

(** One pass of the [for] loop of [_fit_layer]. *)
Definition fit_layer_round (self : Plaid) (residuals : loc)
    (st : list nat * list nat * ndarray) : M (ctrl (list nat * list nat * ndarray)) :=
  let '(rows, cols, layer) := st in
  let rows_old := rows in
  a ← load_array residuals;
  rows ← lift (_prune a layer rows cols (row_prunning_threshold self));
  a ← load_array residuals;
  cols ← lift (_prune (transpose a) (transpose layer) cols rows_old
                 (col_prunning_threshold self));
  if (length rows =? 0) || (length cols =? 0)
  then mret (Break (rows, cols, layer))
  else
    a ← load_array residuals;
    sub ← lift (take_grid a rows cols);
    mret (Continue (rows, cols, _create_layer sub)).

Definition _fit_layer (self : Plaid) (residuals : loc)
    : M (list nat * list nat * ndarray) :=
  '(rows, cols) ← _generate_initial_bicluster self residuals;
  a ← load_array residuals;
  sub ← lift (take_grid a rows cols);
  let layer := _create_layer sub in
  for_range (Z.to_nat (iterations_per_layer self)) (fit_layer_round self residuals)
    (rows, cols, layer).

(** ** [Plaid._is_significant] *)

(** One pass of the [for] loop of [_is_significant]; [Break (Some false)] is
    the [return False] inside the loop. *)
Definition significance_trial (self : Plaid) (shuffled_residuals : loc)
    (layer_sum_of_squares : F) (_ : option bool) : M (ctrl (option bool)) :=
  random_shuffle_flat shuffled_residuals ;;
  '(_, _, test_layer) ← _fit_layer self shuffled_residuals;
  sq ← lift (elementwise fmul test_layer test_layer);
  let test_layer_sum_of_squares := np_sum sq in
  if fle layer_sum_of_squares test_layer_sum_of_squares
  then mret (Break (Some false))
  else mret (Continue None).

Definition _is_significant (self : Plaid) (residuals : loc) (layer : ndarray) : M bool :=
  sq ← lift (elementwise fmul layer layer);
  let layer_sum_of_squares := np_sum sq in
  shuffled_residuals ← np_copy residuals;
  r ← for_range (Z.to_nat (significance_tests self))
        (significance_trial self shuffled_residuals layer_sum_of_squares) None;
  match r with
  | Some b => mret b
  | None => mret true
  end.

(** ** [Plaid._back_fitting] *)

(** The body of the inner loop, for the pair [(j, b)]. *)
Definition back_fit_pair (residuals layers : loc) (jb : nat * Bicluster) : M unit :=
  let '(j, b) := jb in
  lj ← layers_getitem layers j;
  grid_iop fadd residuals (b_rows b) (b_cols b) lj ;;
  a ← load_array residuals;
  sub ← lift (take_grid a (b_rows b) (b_cols b));
  new ← alloc (PyArray (_create_layer sub));
  layers_setitem layers j new ;;
  lj ← layers_getitem layers j;
  grid_iop fsub residuals (b_rows b) (b_cols b) lj.

Definition _back_fitting (self : Plaid) (residuals layers bics : loc) : M unit :=
  for_range (Z.to_nat (back_fitting_steps self))
    (λ _ : unit,
       ls ← load_layers layers;
       bs ← load_biclusters bics;
       for_each (zip (arange (length ls)) bs) (back_fit_pair residuals layers) ;;
       mret (Continue ()))
    ().

(** ** [Plaid.run] *)

(** The local variables of [run]. *)
Record frame := mk_frame {
  f_residuals : loc;
  f_num_rows : nat;
  f_num_cols : nat;
  f_biclusters : loc;
  f_layers : loc
}.

(** Lines 94-96: the working copy and the two empty lists. *)
Definition run_init (data : loc) : M frame :=
  residuals ← np_copy data;
  a ← load_array residuals;
  bics ← alloc (PyBiclusters []);
  layers ← alloc (PyLayers []);
  mret (mk_frame residuals (nrows a) (ncols a) bics layers).

(** Lines 98-102: the background layer. *)
Definition run_background (self : Plaid) (f : frame) : M unit :=
  if fit_background_layer self then
    a ← load_array (f_residuals f);
    let background_layer := _create_layer a in
    bl ← alloc (PyArray background_layer);
    layers_append (f_layers f) bl ;;
    isub (f_residuals f) background_layer ;;
    biclusters_append (f_biclusters f)
      (mk_Bicluster (arange (f_num_rows f)) (arange (f_num_cols f)))
  else mret ().

(** Lines 105-115: one pass of the discovery loop. *)
Definition run_discover (self : Plaid) (f : frame) (_ : unit) : M (ctrl unit) :=
  '(rows, cols, bicluster_layer) ← _fit_layer self (f_residuals f);
  if (length rows =? 0) || (length cols =? 0) then mret (Break ())
  else
    significant ← _is_significant self (f_residuals f) bicluster_layer;
    if negb significant then mret (Break ())
    else
      grid_iop fsub (f_residuals f) rows cols bicluster_layer ;;
      l ← alloc (PyArray bicluster_layer);
      layers_append (f_layers f) l ;;
      biclusters_append (f_biclusters f) (mk_Bicluster rows cols) ;;
      _back_fitting self (f_residuals f) (f_layers f) (f_biclusters f) ;;
      mret (Continue ()).

(** Lines 117-128: the result. *)
Definition run_finalize (self : Plaid) (f : frame) : M run_result :=
  let biclustering := mk_Biclustering (f_biclusters f) in
  if return_layers self then
    layers_append (f_layers f) (f_residuals f) ;;
    biclusters_append (biclusters biclustering)
      (mk_Bicluster (arange (f_num_rows f)) (arange (f_num_cols f))) ;;
    mret (WithLayers biclustering (f_layers f))
  else
    (if fit_background_layer self then
       biclusters_pop0 (f_biclusters f) ;;
       layers_pop0 (f_layers f)
     else mret ()) ;;
    mret (OnlyBiclustering biclustering).

Definition run (self : Plaid) (data : loc) : M run_result :=
  lift (_validate_parameters self) ;;
  f ← run_init data;
  run_background self f ;;
  for_range (Z.to_nat (num_biclusters self)) (run_discover self f) () ;;
  run_finalize self f.

(** ** Specification-side vocabulary *)

Definition sq (x : F) : F := fmul x x.

(** Row [i] and column [j] of an array. *)
Definition row_of (a : ndarray) (i : nat) : list F :=
  take (ncols a) (drop (i * ncols a) (cells a)).

Definition col_of (a : ndarray) (j : nat) : list F :=
  map (λ i, get a i j) (arange (nrows a)).

(** The two sides of the pruning rule as the program computes them: the
    index [i], at position [p] of the current selection, is scored over the
    index set [others] of the other axis; [layer] is indexed by positions.
    Squares, differences and sums are those of the arithmetic. *)
Definition sum_sq_diff (residuals layer : ndarray) (others : list nat) (p i : nat) : F :=
  fsum_axis1 (imap (λ q j, sq (fsub (get residuals i j) (get layer p q))) others).

Definition sum_sq (residuals : ndarray) (others : list nat) (i : nat) : F :=
  fsum_axis1 (map (λ j, sq (get residuals i j)) others).

(** The same for columns, read on the untransposed arrays. *)
Definition col_sum_sq_diff (residuals layer : ndarray) (rows : list nat) (q j : nat) : F :=
  fsum_axis1 (imap (λ p i, sq (fsub (get residuals i j) (get layer p q))) rows).

Definition col_sum_sq (residuals : ndarray) (rows : list nat) (j : nat) : F :=
  fsum_axis1 (map (λ i, sq (get residuals i j)) rows).

(** The selection that the rule leaves, as a list. *)
Definition select (keep : nat → nat → bool) (sel : list nat) : list nat :=
  omap (λ pi : nat * nat, if keep pi.1 pi.2 then Some pi.2 else None)
       (zip (arange (length sel)) sel).

(** The pruning rule as the program decides it: the comparison [<] of the
    arithmetic between the two computed sides. *)
Definition keeps (residuals layer : ndarray) (others : list nat) (threshold : F)
    (p i : nat) : bool :=
  flt (sum_sq_diff residuals layer others p i)
      (fmul (fsub fone threshold) (sum_sq residuals others i)).

Definition col_keeps (residuals layer : ndarray) (rows : list nat) (threshold : F)
    (q j : nat) : bool :=
  flt (col_sum_sq_diff residuals layer rows q j)
      (fmul (fsub fone threshold) (col_sum_sq residuals rows j)).

Definition ctrl_value {A} (c : ctrl A) : A :=
  match c with Continue a | Break a => a end.

(** The score of a layer in the significance test, as the program computes
    it. *)
Definition sum_of_squares (layer : ndarray) : F := fsum_all (map sq (cells layer)).

(** ** Assertions on the store and on the local variables *)

(** What a round of [_fit_layer] starts from: a layer of the shape of the
    current selection, whose indices are distinct and within the matrix. *)
Definition round_ready (a : ndarray) (st : list nat * list nat * ndarray) : Prop :=
  let '(rows, cols, layer) := st in
  wf layer ∧ nrows layer = length rows ∧ ncols layer = length cols
  ∧ Forall (λ i, i < nrows a) rows ∧ Forall (λ j, j < ncols a) cols
  ∧ NoDup rows ∧ NoDup cols.

(** The layer is the one fitted on the current selection. *)
Definition fitted (a : ndarray) (st : list nat * list nat * ndarray) : Prop :=
  let '(rows, cols, layer) := st in
  ∃ g, take_grid a rows cols = Ok g ∧ layer = _create_layer g.

Definition hoare {A} (P : state → Prop) (m : M A) (Q : res A → state → Prop) : Prop :=
  ∀ s, P s → Q (m s).1 (m s).2.

(** Objects of [o0] are kept as they are; a value returned satisfies [V]. *)
Definition preserves (o0 : gmap loc pyobj) {A} (m : M A) (V : A → Prop) : Prop :=
  hoare (λ s, o0 ⊆ heap s) m
    (λ r s, o0 ⊆ heap s ∧ match r with Ok a => V a | Raise _ => True end).

(** The locations of the local variables of [run] are outside [o0]. *)
Definition frame_outside (o0 : gmap loc pyobj) (f : frame) : Prop :=
  o0 !! f_residuals f = None ∧ o0 !! f_biclusters f = None ∧ o0 !! f_layers f = None.

Definition aligned (f : frame) (s : state) : Prop :=
  ∃ ls bs, heap s !! f_layers f = Some (PyLayers ls)
    ∧ heap s !! f_biclusters f = Some (PyBiclusters bs)
    ∧ length ls = length bs.

(** The lists a result of [run] refers to are those of the frame. *)
Definition result_of_frame (f : frame) (r : run_result) : Prop :=
  match r with
  | OnlyBiclustering b => biclusters b = f_biclusters f
  | WithLayers b l => biclusters b = f_biclusters f ∧ l = f_layers f
  end.

Definition full_bicluster (num_rows num_cols : nat) : Bicluster :=
  mk_Bicluster (arange num_rows) (arange num_cols).

(** Before the background step: the working copy and two empty lists. *)
Definition initialized (f : frame) (a : ndarray) (s : state) : Prop :=
  heap s !! f_residuals f = Some (PyArray a)
  ∧ f_num_rows f = nrows a ∧ f_num_cols f = ncols a
  ∧ heap s !! f_layers f = Some (PyLayers [])
  ∧ heap s !! f_biclusters f = Some (PyBiclusters []).

(** Between the background step and the result: the background entry heads
    both lists, and [found] are the biclusters discovered so far. *)
Definition with_background (f : frame) (found : list Bicluster) (s : state) : Prop :=
  ∃ r l0 L0 ls',
    heap s !! f_residuals f = Some (PyArray r)
    ∧ nrows r = f_num_rows f ∧ ncols r = f_num_cols f
    ∧ heap s !! f_layers f = Some (PyLayers (l0 :: ls'))
    ∧ heap s !! f_biclusters f
      = Some (PyBiclusters (full_bicluster (f_num_rows f) (f_num_cols f) :: found))
    ∧ heap s !! l0 = Some (PyArray L0)
    ∧ nrows L0 = f_num_rows f ∧ ncols L0 = f_num_cols f
    ∧ l0 ≠ f_residuals f
    ∧ length ls' = length found
    ∧ Forall (λ b, length (b_rows b) < f_num_rows f) found.

(** The layer [L] has the shape of the bicluster [b], whose rows and columns
    are increasing sequences of indices of the matrix [a]. *)
Definition layer_fits (a : ndarray) (L : ndarray) (b : Bicluster) : Prop :=
  wf L ∧ nrows L = length (b_rows b) ∧ ncols L = length (b_cols b)
  ∧ b_rows b `sublist_of` arange (nrows a)
  ∧ b_cols b `sublist_of` arange (ncols a).

(** The entries of [layers] are the arrays [Ls], none of them the working
    copy [residuals]. *)
Definition loaded (h : gmap loc pyobj) (residuals : loc) (ls : list loc)
    (Ls : list ndarray) : Prop :=
  Forall2 (λ l L, h !! l = Some (PyArray L) ∧ l ≠ residuals) ls Ls.

(** The state of [run] between its steps, for the input matrix [a]: [pre]
    is the background entry, if any, and [found] are the biclusters
    discovered so far, none of them empty; every layer is an array of the
    store, apart from the working copy, of the shape of its bicluster. *)
Definition discovering (f : frame) (a : ndarray) (pre found : list Bicluster)
    (s : state) : Prop :=
  ∃ r ls Ls,
    heap s !! f_residuals f = Some (PyArray r)
    ∧ wf r ∧ nrows r = nrows a ∧ ncols r = ncols a
    ∧ f_num_rows f = nrows a ∧ f_num_cols f = ncols a
    ∧ heap s !! f_layers f = Some (PyLayers ls)
    ∧ heap s !! f_biclusters f = Some (PyBiclusters (pre ++ found))
    ∧ loaded (heap s) (f_residuals f) ls Ls
    ∧ Forall2 (layer_fits a) Ls (pre ++ found)
    ∧ Forall (λ b, b_rows b ≠ [] ∧ b_cols b ≠ []) found.

(** One permutation trial on the private copy [c]: from state [s] the copy is
    shuffled into [x], a layer is fitted on it, and [t] is the sum of squares
    of that layer, as computed; [s'] is the state after the trial. *)
Definition trial (self : Plaid) (c : loc) (s : state) (x : ndarray) (t : F)
    (s' : state) : Prop :=
  ∃ s_sh rows cols test_layer sq,
    random_shuffle_flat c s = (Ok (), s_sh)
    ∧ heap s_sh !! c = Some (PyArray x)
    ∧ _fit_layer self c s_sh = (Ok (rows, cols, test_layer), s')
    ∧ elementwise fmul test_layer test_layer = Ok sq
    ∧ t = np_sum sq.

(** A sequence of consecutive trials, with the matrix and the score of each. *)
Inductive trials (self : Plaid) (c : loc) : state → list (ndarray * F) → state → Prop :=
  | trials_nil s : trials self c s [] s
  | trials_cons s x t s1 tr s2 :
      trial self c s x t s1 → trials self c s1 tr s2 →
      trials self c s ((x, t) :: tr) s2.

(** * Properties *)

(** ** Arrays *)

Lemma nth_grid {A B} (f : A → B → F) (la : list A) (lb : list B) p q x y :
  la !! p = Some x → lb !! q = Some y →
  nth (p * length lb + q) (flat_map (λ x, map (f x) lb) la) fzero = f x y.
Proof.
  revert p. induction la as [|a la IH]; intros p Hp Hq; [done|].
  destruct p as [|p]; simpl in *.
  - injection Hp as ->. rewrite app_nth1.
    + erewrite nth_lookup_Some; [done|]. by rewrite list_lookup_fmap, Hq.
    + rewrite length_map. by eapply lookup_lt_Some.
  - rewrite app_nth2; rewrite length_map; [|lia].
    replace (length lb + p * length lb + q - length lb) with (p * length lb + q) by lia.
    by apply IH.
Qed.

Lemma length_grid {A B} (f : A → B → F) (la : list A) (lb : list B) :
  length (flat_map (λ x, map (f x) lb) la) = length la * length lb.
Proof. induction la as [|a la IH]; simpl; [done|]. by rewrite length_app, length_map, IH. Qed.

Lemma lookup_arange n i : i < n → arange n !! i = Some i.
Proof. intros. unfold arange. by rewrite lookup_seq_lt. Qed.

Lemma length_arange n : length (arange n) = n.
Proof. apply length_seq. Qed.

Lemma get_take_grid (a : ndarray) rows cols g p q i j :
  take_grid a rows cols = Ok g → rows !! p = Some i → cols !! q = Some j →
  get g p q = get a i j.
Proof.
  unfold take_grid. case_match; [|done]. intros [= <-] Hp Hq.
  unfold get at 1. simpl. by apply (nth_grid (get a)).
Qed.

Lemma take_grid_shape (a : ndarray) rows cols g :
  take_grid a rows cols = Ok g →
  nrows g = length rows ∧ ncols g = length cols ∧ wf g.
Proof.
  unfold take_grid. case_match; [|done]. intros [= <-].
  unfold wf. simpl. by rewrite length_grid.
Qed.

Lemma take_grid_ok (a : ndarray) rows cols :
  Forall (λ i, i < nrows a) rows → Forall (λ j, j < ncols a) cols →
  ∃ g, take_grid a rows cols = Ok g.
Proof.
  intros Hr Hc. unfold take_grid.
  assert (forallb (λ i, i <? nrows a) rows = true) as ->.
  { apply forallb_forall. intros i Hi. apply Nat.ltb_lt.
    rewrite Forall_forall in Hr. apply Hr. by apply list_elem_of_In. }
  assert (forallb (λ j, j <? ncols a) cols = true) as ->.
  { apply forallb_forall. intros i Hi. apply Nat.ltb_lt.
    rewrite Forall_forall in Hc. apply Hc. by apply list_elem_of_In. }
  eauto.
Qed.

Lemma take_grid_inv (a : ndarray) rows cols g :
  take_grid a rows cols = Ok g →
  Forall (λ i, i < nrows a) rows ∧ Forall (λ j, j < ncols a) cols.
Proof.
  unfold take_grid. case_match eqn:E; [|done]. intros _.
  apply andb_true_iff in E as [E1 E2].
  rewrite forallb_forall in E1. rewrite forallb_forall in E2.
  split; apply Forall_forall; intros x Hx; apply list_elem_of_In in Hx.
  - apply E1 in Hx. by apply Nat.ltb_lt.
  - apply E2 in Hx. by apply Nat.ltb_lt.
Qed.

Lemma get_transpose (a : ndarray) i j :
  i < nrows a → j < ncols a → get (transpose a) j i = get a i j.
Proof.
  intros Hi Hj. unfold get at 1, transpose. simpl.
  rewrite <- (length_arange (nrows a)) at 1.
  apply (nth_grid (λ j i, get a i j)); by apply lookup_arange.
Qed.

Lemma transpose_shape (a : ndarray) :
  nrows (transpose a) = ncols a ∧ ncols (transpose a) = nrows a ∧ wf (transpose a).
Proof.
  unfold wf, transpose. simpl. by rewrite length_grid, !length_arange.
Qed.

Lemma elementwise_ok op (a b : ndarray) :
  nrows a = nrows b → ncols a = ncols b →
  elementwise op a b = Ok (mk_ndarray (nrows a) (ncols a) (zip_with op (cells a) (cells b))).
Proof.
  intros Hr Hc. unfold elementwise, same_shape.
  by rewrite Hr, Hc, !Nat.eqb_refl.
Qed.

Lemma get_elementwise (op : F → F → F) (a b : ndarray) p q :
  wf a → wf b → nrows a = nrows b → ncols a = ncols b →
  p < nrows a → q < ncols a →
  get (mk_ndarray (nrows a) (ncols a) (zip_with op (cells a) (cells b))) p q
  = op (get a p q) (get b p q).
Proof.
  unfold wf, get. simpl. intros Ha Hb Hr Hc Hp Hq. rewrite <- Hc.
  assert (p * ncols a + q < nrows a * ncols a) as Hlt by nia.
  destruct (lookup_lt_is_Some_2 (cells a) (p * ncols a + q)) as [x Hx]; [lia|].
  destruct (lookup_lt_is_Some_2 (cells b) (p * ncols a + q)) as [y Hy]; [rewrite Hb; nia|].
  rewrite (nth_lookup_Some _ _ _ x Hx), (nth_lookup_Some _ _ _ y Hy).
  apply nth_lookup_Some. by rewrite lookup_zip_with, Hx; simpl; rewrite Hy.
Qed.

Lemma elem_of_arange n i : i ∈ arange n ↔ i < n.
Proof. unfold arange. rewrite elem_of_seq. lia. Qed.

Lemma elem_of_zip_arange {A} (l : list A) p (i : A) :
  (p, i) ∈ zip (arange (length l)) l ↔ l !! p = Some i.
Proof.
  rewrite list_elem_of_lookup. split.
  - intros [n Hn]. apply lookup_zip_Some in Hn as [Hn1 Hn2].
    apply lookup_seq in Hn1 as [Hn1 _]. simpl in Hn1. by subst.
  - intros Hp. exists p. apply lookup_zip_Some. split; [|done].
    apply lookup_arange. by eapply lookup_lt_Some.
Qed.

Lemma elementwise_shape op (a b c : ndarray) :
  elementwise op a b = Ok c → wf a → wf b →
  nrows c = nrows a ∧ ncols c = ncols a ∧ nrows b = nrows a ∧ ncols b = ncols a ∧ wf c.
Proof.
  unfold elementwise, same_shape. case_match eqn:E; [|done]. intros [= <-] Ha Hb.
  apply andb_true_iff in E as [E1 E2]. apply Nat.eqb_eq in E1, E2.
  unfold wf in *. simpl. rewrite length_zip_with. repeat split; lia.
Qed.

(** ** The shape and the entries of a layer *)

Lemma row_of_get (a : ndarray) i :
  wf a → i < nrows a → row_of a i = map (get a i) (arange (ncols a)).
Proof.
  unfold wf, row_of. intros Hwf Hi. apply list_eq. intros q.
  rewrite list_lookup_fmap.
  destruct (decide (q < ncols a)) as [Hq|Hq].
  - rewrite lookup_take_lt, lookup_drop, lookup_arange by done. simpl.
    unfold get. destruct (nth_lookup_or_length (cells a) (i * ncols a + q) fzero) as [->|]; [done|nia].
  - rewrite lookup_take_ge by lia. unfold arange. by rewrite lookup_seq_ge by lia.
Qed.

Lemma create_layer_shape (m : ndarray) :
  nrows (_create_layer m) = nrows m ∧ ncols (_create_layer m) = ncols m
  ∧ wf (_create_layer m).
Proof.
  unfold wf, _create_layer, mean_axis1, mean_axis0. simpl.
  by rewrite length_grid, !length_map, !length_arange.
Qed.

(** The entries of a layer, as [_create_layer] computes them. *)
Lemma get_create_layer (m : ndarray) i j :
  i < nrows m → j < ncols m →
  get (_create_layer m) i j
  = fadd (fadd (np_mean m)
               (fsub (fmean_axis1 (map (get m i) (arange (ncols m)))) (np_mean m)))
         (fsub (fmean_axis0 (col_of m j)) (np_mean m)).
Proof.
  intros Hi Hj. unfold get, _create_layer. simpl.
  apply (nth_grid (λ re ce, fadd (fadd (np_mean m) re) ce)).
  - unfold mean_axis1. by rewrite !list_lookup_fmap, lookup_arange.
  - unfold mean_axis0, col_of. by rewrite !list_lookup_fmap, lookup_arange.
Qed.

(** ** The pruning rule *)

Lemma take_1d_where_aux (mask : list bool) (pre rows : list nat) :
  length mask = length rows →
  mapM (λ p, (pre ++ rows) !! p)
       (omap (λ pb : nat * bool, if pb.2 then Some pb.1 else None)
             (zip (seq (length pre) (length mask)) mask))
  = Some (omap (λ bi : bool * nat, if bi.1 then Some bi.2 else None) (zip mask rows)).
Proof.
  revert pre rows. induction mask as [|b mask IH]; intros pre [|i rows] Hlen;
    simplify_eq/=; [done|].
  specialize (IH (pre ++ [i]) rows Hlen).
  rewrite <- app_assoc, length_app in IH. simpl in IH.
  rewrite Nat.add_1_r in IH.
  destruct b; simpl in *.
  - rewrite list_lookup_middle by done. simpl.
    apply bind_Some. eexists. split; [exact IH|done].
  - done.
Qed.

Lemma take_1d_where (mask : list bool) (rows : list nat) :
  length mask = length rows →
  take_1d rows (where_true mask)
  = Ok (omap (λ bi : bool * nat, if bi.1 then Some bi.2 else None) (zip mask rows)).
Proof.
  intros Hlen. unfold take_1d, where_true, arange.
  pose proof (take_1d_where_aux mask [] rows Hlen) as Haux. simpl in Haux.
  by rewrite Haux.
Qed.

Lemma omap_zip_seq_ext (f g : nat → nat → bool) (sel : list nat) k :
  (∀ p i, sel !! p = Some i → f (k + p) i = g (k + p) i) →
  omap (λ pi : nat * nat, if f pi.1 pi.2 then Some pi.2 else None)
       (zip (seq k (length sel)) sel)
  = omap (λ pi : nat * nat, if g pi.1 pi.2 then Some pi.2 else None)
         (zip (seq k (length sel)) sel).
Proof.
  revert k. induction sel as [|i sel IH]; intros k Hfg; [done|].
  assert (f k i = g k i) as H0.
  { specialize (Hfg 0 i eq_refl). by rewrite Nat.add_0_r in Hfg. }
  assert (∀ p j, sel !! p = Some j → f (S k + p) j = g (S k + p) j) as HS.
  { intros p j Hp. specialize (Hfg (S p) j Hp). by rewrite Nat.add_succ_r in Hfg. }
  specialize (IH (S k) HS). simpl in *. rewrite H0.
  destruct (g k i); [f_equal|]; exact IH.
Qed.

Lemma select_ext (f g : nat → nat → bool) (sel : list nat) :
  (∀ p i, sel !! p = Some i → f p i = g p i) → select f sel = select g sel.
Proof. intros Hfg. unfold select, arange. by apply omap_zip_seq_ext. Qed.

Lemma omap_zip_mask_seq (h : nat → bool) (rows : list nat) k :
  omap (λ bi : bool * nat, if bi.1 then Some bi.2 else None)
       (zip (map h (seq k (length rows))) rows)
  = omap (λ pi : nat * nat, if h pi.1 then Some pi.2 else None)
         (zip (seq k (length rows)) rows).
Proof.
  revert k. induction rows as [|i rows IH]; intros k; [done|].
  specialize (IH (S k)). simpl in *. destruct (h k); [f_equal|]; exact IH.
Qed.

Lemma omap_zip_mask (h : nat → nat → bool) (rows : list nat) :
  omap (λ bi : bool * nat, if bi.1 then Some bi.2 else None)
       (zip (map (λ p, h p (nth p rows 0)) (arange (length rows))) rows)
  = select h rows.
Proof.
  unfold arange. rewrite omap_zip_mask_seq.
  apply (omap_zip_seq_ext (λ p _, h p (nth p rows 0)) h rows 0).
  intros p i Hp. by rewrite (nth_lookup_Some _ _ _ _ Hp).
Qed.

Lemma zip_with_map_scaled {A} (f g : A → F) (c : F) (l : list A) :
  zip_with flt (map f l) (map (fmul c) (map g l))
  = map (λ x, flt (f x) (fmul c (g x))) l.
Proof. induction l as [|x l IH]; simpl; [done|]. by rewrite IH. Qed.

Lemma elem_of_select keep sel i :
  i ∈ select keep sel ↔ ∃ p, sel !! p = Some i ∧ keep p i = true.
Proof.
  unfold select. rewrite list_elem_of_omap. split.
  - intros ([p j] & Hin & Hk). simpl in Hk.
    apply list_elem_of_lookup in Hin as [n Hn].
    apply lookup_zip_Some in Hn as [Hn1 Hn2].
    apply lookup_seq in Hn1 as [-> _]. simpl in *.
    destruct (keep n j) eqn:E; simplify_eq. eauto.
  - intros (p & Hp & Hk). exists (p, i). simpl. rewrite Hk. split; [|done].
    apply list_elem_of_lookup. exists p. apply lookup_zip_Some. split; [|done].
    apply lookup_arange. by eapply lookup_lt_Some.
Qed.

Lemma select_sublist keep sel : select keep sel `sublist_of` sel.
Proof.
  unfold select, arange. generalize 0.
  induction sel as [|i sel IH]; intros k; simpl; [done|].
  destruct (keep k i); [apply sublist_skip | apply sublist_cons]; apply IH.
Qed.

Lemma select_mono (f g : nat → nat → bool) sel :
  (∀ p i, f p i = true → g p i = true) → select f sel `sublist_of` select g sel.
Proof.
  intros Hfg. unfold select, arange. generalize 0.
  induction sel as [|i sel IH]; intros k; simpl; [done|].
  destruct (f k i) eqn:Ef.
  - rewrite (Hfg _ _ Ef). apply sublist_skip, IH.
  - destruct (g k i); [apply sublist_cons|]; apply IH.
Qed.

Lemma map_arange_imap {A} (f : nat → nat → A) (l : list nat) d :
  map (λ q, f q (nth q l d)) (arange (length l)) = imap f l.
Proof.
  apply list_eq. intros q. rewrite list_lookup_fmap, list_lookup_imap.
  destruct (l !! q) as [j|] eqn:E.
  - rewrite lookup_arange by (by eapply lookup_lt_Some). simpl.
    by rewrite (nth_lookup_Some _ _ _ _ E).
  - unfold arange. rewrite lookup_seq_ge; [done|]. by apply lookup_ge_None.
Qed.

Lemma map_arange_nth {A} (f : nat → A) (l : list nat) d :
  map (λ q, f (nth q l d)) (arange (length l)) = map f l.
Proof.
  rewrite (map_arange_imap (λ _, f) l d). apply list_eq. intros q.
  by rewrite list_lookup_imap, list_lookup_fmap.
Qed.

(** [_prune] computes the selection described by [keeps]. *)
Lemma prune_select (residuals layer : ndarray) rows cols threshold :
  wf layer → nrows layer = length rows → ncols layer = length cols →
  Forall (λ i, i < nrows residuals) rows → Forall (λ j, j < ncols residuals) cols →
  _prune residuals layer rows cols threshold
  = Ok (select (keeps residuals layer cols threshold) rows).
Proof.
  intros Hwf Hr Hc Hrows Hcols. unfold _prune.
  destruct (take_grid_ok residuals rows cols Hrows Hcols) as [g Hg].
  rewrite Hg. destruct (take_grid_shape _ _ _ _ Hg) as (Hgr & Hgc & Hgw).
  assert (wf (mk_ndarray (nrows g) (ncols g) (zip_with fsub (cells g) (cells layer)))) as Hdw.
  { unfold wf in *. simpl. rewrite length_zip_with. lia. }
  assert (∀ p q i j, rows !! p = Some i → cols !! q = Some j →
    get (mk_ndarray (nrows g) (ncols g)
           (zip_with fmul (zip_with fsub (cells g) (cells layer))
                           (zip_with fsub (cells g) (cells layer)))) p q
    = sq (fsub (get residuals i j) (get layer p q))) as Hd2.
  { intros p q i j Hp Hq.
    assert (p < length rows) by (by eapply lookup_lt_Some).
    assert (q < length cols) by (by eapply lookup_lt_Some).
    pose proof (get_elementwise fmul _ _ p q Hdw Hdw eq_refl eq_refl) as X.
    cbn [nrows ncols cells] in X. rewrite X by lia.
    rewrite (get_elementwise fsub g layer) by (done || lia).
    by rewrite (get_take_grid _ _ _ _ _ _ _ _ Hg Hp Hq). }
  assert (∀ p q i j, rows !! p = Some i → cols !! q = Some j →
    get (mk_ndarray (nrows g) (ncols g) (zip_with fmul (cells g) (cells g))) p q
    = sq (get residuals i j)) as Hg2.
  { intros p q i j Hp Hq.
    assert (p < length rows) by (by eapply lookup_lt_Some).
    assert (q < length cols) by (by eapply lookup_lt_Some).
    rewrite (get_elementwise fmul g g) by (done || lia).
    by rewrite (get_take_grid _ _ _ _ _ _ _ _ Hg Hp Hq). }
  cbn [mbind res_bind].
  rewrite (elementwise_ok fsub g layer) by congruence. cbn [mbind res_bind].
  rewrite (elementwise_ok fmul (mk_ndarray (nrows g) (ncols g) _)
             (mk_ndarray (nrows g) (ncols g) _)) by done.
  cbn [mbind res_bind nrows ncols cells].
  rewrite (elementwise_ok fmul g g) by done. cbn [mbind res_bind].
  unfold sum_axis1. cbn [nrows ncols]. rewrite zip_with_map_scaled.
  rewrite take_1d_where by (rewrite length_map, length_arange; lia).
  f_equal. rewrite Hgr, Hgc in Hd2, Hg2 |- *.
  rewrite <- (omap_zip_mask (keeps residuals layer cols threshold)).
  do 2 f_equal. apply map_ext_in. intros p Hp.
  apply list_elem_of_In, list_elem_of_lookup in Hp as [n Hn].
  apply lookup_seq in Hn as [Heq Hp']. simpl in Heq. subst n. rename Hp' into Hp.
  destruct (lookup_lt_is_Some_2 rows p Hp) as [i Hi].
  rewrite (nth_lookup_Some _ _ _ _ Hi). unfold keeps. f_equal.
  - unfold sum_sq_diff. f_equal.
    rewrite <- (map_arange_imap _ cols 0%nat). apply map_ext_in. intros q Hq.
    apply list_elem_of_In, list_elem_of_lookup in Hq as [n Hn].
    apply lookup_seq in Hn as [Heq Hq']. simpl in Heq. subst n. rename Hq' into Hq.
    destruct (lookup_lt_is_Some_2 cols q Hq) as [j Hj].
    rewrite (nth_lookup_Some _ _ _ _ Hj). by apply Hd2.
  - f_equal. unfold sum_sq. f_equal.
    rewrite <- (map_arange_nth (λ j, sq (get residuals i j)) cols 0%nat).
    apply map_ext_in. intros q Hq.
    apply list_elem_of_In, list_elem_of_lookup in Hq as [n Hn].
    apply lookup_seq in Hn as [Heq Hq']. simpl in Heq. subst n. rename Hq' into Hq.
    destruct (lookup_lt_is_Some_2 cols q Hq) as [j Hj].
    rewrite (nth_lookup_Some _ _ _ _ Hj). by apply Hg2.
Qed.

(** ** Indices out of range *)

(** X6. A row or column index beyond the matrix makes [_prune] raise
    [IndexError], whatever the layer, when neither selection is empty: the
    indexing comes first.  (For an empty selection numpy has no entry to
    read and checks no index.) *)
Theorem prune_index_error (residuals layer : ndarray) rows cols (threshold : F) :
  rows ≠ [] → cols ≠ [] →
  (∃ i, i ∈ rows ∧ nrows residuals ≤ i) ∨ (∃ j, j ∈ cols ∧ ncols residuals ≤ j) →
  _prune residuals layer rows cols threshold = Raise IndexError.
Proof.
  intros _ _ H. unfold _prune, take_grid.
  assert (forallb (λ i, i <? nrows residuals) rows
          && forallb (λ j, j <? ncols residuals) cols = false) as ->; [|done].
  apply andb_false_iff.
  destruct H as [(i & Hi & Hge)|(j & Hj & Hge)]; [left|right];
    apply not_true_is_false; intros Hall; rewrite forallb_forall in Hall.
  - apply list_elem_of_In, Hall, Nat.ltb_lt in Hi. lia.
  - apply list_elem_of_In, Hall, Nat.ltb_lt in Hj. lia.
Qed.

(** ** Running the monad *)

Lemma bind_run {A B} (m : M A) (f : A → M B) s :
  (m ≫= f) s = match m s with
               | (Ok a, s') => f a s'
               | (Raise e, s') => (Raise e, s')
               end.
Proof. reflexivity. Qed.

Lemma bind_ok_inv {A B} (m : M A) (f : A → M B) s b s1 :
  (m ≫= f) s = (Ok b, s1) → ∃ a s0, m s = (Ok a, s0) ∧ f a s0 = (Ok b, s1).
Proof. rewrite bind_run. destruct (m s) as [[a|e] s0]; [eauto|done]. Qed.

Lemma load_array_run l a s :
  heap s !! l = Some (PyArray a) → load_array l s = (Ok a, s).
Proof. unfold load_array. by intros ->. Qed.

(** ** One refinement round of [_fit_layer] *)

Lemma keeps_transpose a layer rows cols threshold q j :
  nrows layer = length rows → ncols layer = length cols →
  Forall (λ i, i < nrows a) rows →
  cols !! q = Some j → j < ncols a →
  keeps (transpose a) (transpose layer) rows threshold q j
  = col_keeps a layer rows threshold q j.
Proof.
  intros Hr Hc Hrows Hq Hj. unfold keeps, col_keeps.
  assert (q < ncols layer) as Hql by (rewrite Hc; by eapply lookup_lt_Some).
  f_equal.
  - unfold sum_sq_diff, col_sum_sq_diff. f_equal. apply imap_ext. intros p i Hp.
    assert (p < nrows layer) by (rewrite Hr; by eapply lookup_lt_Some).
    assert (i < nrows a) by (by apply (Forall_lookup_1 _ rows p i Hrows)).
    by rewrite !get_transpose.
  - f_equal. unfold sum_sq, col_sum_sq. f_equal. apply map_ext_in. intros i Hi.
    apply list_elem_of_In in Hi.
    assert (i < nrows a) by (rewrite Forall_forall in Hrows; by apply Hrows).
    by rewrite get_transpose.
Qed.

Lemma select_in_range keep sel n :
  Forall (λ i, i < n) sel → Forall (λ i, i < n) (select keep sel).
Proof.
  rewrite !Forall_forall. intros H i Hi. apply H.
  eapply elem_of_sublist; [done|apply select_sublist].
Qed.

(** The outcome of one refinement round, in closed form. *)
Lemma fit_layer_round_spec self residuals a s rows cols layer :
  heap s !! residuals = Some (PyArray a) →
  wf layer → nrows layer = length rows → ncols layer = length cols →
  Forall (λ i, i < nrows a) rows → Forall (λ j, j < ncols a) cols →
  let rows' := select (keeps a layer cols (row_prunning_threshold self)) rows in
  let cols' := select (col_keeps a layer rows (col_prunning_threshold self)) cols in
  _prune a layer rows cols (row_prunning_threshold self) = Ok rows'
  ∧ _prune (transpose a) (transpose layer) cols rows (col_prunning_threshold self) = Ok cols'
  ∧ ∃ c layer', fit_layer_round self residuals (rows, cols, layer) s = (Ok c, s)
      ∧ ctrl_value c = (rows', cols', layer')
      ∧ wf layer' ∧ (c = Break (rows', cols', layer) ∨
           (c = Continue (rows', cols', layer')
            ∧ nrows layer' = length rows' ∧ ncols layer' = length cols')).
Proof.
  intros Hh Hwf Hr Hc Hrows Hcols rows' cols'.
  assert (_prune a layer rows cols (row_prunning_threshold self) = Ok rows') as Hp1.
  { by apply prune_select. }
  assert (_prune (transpose a) (transpose layer) cols rows
            (col_prunning_threshold self) = Ok cols') as Hp2.
  { destruct (transpose_shape layer) as (Hr' & Hc' & Hw').
    destruct (transpose_shape a) as (Hra & Hca & _).
    rewrite prune_select; [|done|congruence|congruence|by rewrite Hra|by rewrite Hca].
    f_equal. apply select_ext. intros q j Hq. apply (keeps_transpose a layer rows cols); try done.
    by apply (Forall_lookup_1 _ cols q j Hcols). }
  split; [done|]. split; [done|].
  unfold fit_layer_round. rewrite bind_run, (load_array_run _ _ _ Hh).
  rewrite bind_run. unfold lift at 1. rewrite Hp1.
  rewrite bind_run, (load_array_run _ _ _ Hh).
  rewrite bind_run. unfold lift at 1. rewrite Hp2.
  destruct ((length rows' =? 0) || (length cols' =? 0)) eqn:E.
  - exists (Break (rows', cols', layer)), layer. simpl. eauto.
  - rewrite bind_run, (load_array_run _ _ _ Hh).
    destruct (take_grid_ok a rows' cols') as [g Hg]; [by apply select_in_range..|].
    rewrite bind_run. unfold lift at 1. rewrite Hg.
    destruct (create_layer_shape g) as (Hlr & Hlc & Hlw).
    destruct (take_grid_shape _ _ _ _ Hg) as (Hgr & Hgc & _).
    exists (Continue (rows', cols', _create_layer g)), (_create_layer g).
    repeat split; [done|]. right. repeat split; congruence.
Qed.

(** The selections of [_fit_layer] have distinct indices: the initial one
    comes from [np.where], and a round keeps a subsequence. *)
Lemma where_true_sublist (mask : list bool) :
  where_true mask `sublist_of` arange (length mask).
Proof.
  unfold where_true, arange. generalize 0.
  induction mask as [|b mask IH]; intros k; simpl; [done|].
  destruct b; [apply sublist_skip|apply sublist_cons]; apply IH.
Qed.

Lemma where_true_NoDup (mask : list bool) : NoDup (where_true mask).
Proof.
  eapply sublist_NoDup; [|apply where_true_sublist]. apply NoDup_seq.
Qed.

Lemma kmeans_initialization_NoDup self a s rows s1 :
  _kmeans_initialization self a s = (Ok rows, s1) → NoDup rows.
Proof.
  unfold _kmeans_initialization, call_k_means. rewrite bind_run.
  destruct (k_means (rng s) a _) as [g [labels|e]]; [|done].
  repeat case_match; intros [= <- _]; try done; apply where_true_NoDup.
Qed.

(** The initial state of the loop of [_fit_layer] is ready for a round, and a
    round that continues leaves a state that is ready for the next one. *)
Lemma fit_layer_initial_ready self l a s rows cols s1 g :
  _generate_initial_bicluster self l s = (Ok (rows, cols), s1) →
  take_grid a rows cols = Ok g →
  round_ready a (rows, cols, _create_layer g).
Proof.
  intros H Hg. unfold _generate_initial_bicluster in H.
  apply bind_ok_inv in H as (a1 & s2 & _ & H).
  apply bind_ok_inv in H as (r0 & s3 & Hr & H).
  apply bind_ok_inv in H as (a2 & s4 & _ & H).
  apply bind_ok_inv in H as (c0 & s5 & Hc & H).
  injection H as <- <- _.
  apply kmeans_initialization_NoDup in Hr, Hc.
  destruct (take_grid_inv _ _ _ _ Hg) as [Hrows Hcols].
  destruct (take_grid_shape _ _ _ _ Hg) as (Hgr & Hgc & _).
  destruct (create_layer_shape g) as (Hlr & Hlc & Hlw).
  unfold round_ready. repeat split; (done || congruence).
Qed.

Lemma fit_layer_round_ready self l a s st st' s1 :
  heap s !! l = Some (PyArray a) → round_ready a st →
  fit_layer_round self l st s = (Ok (Continue st'), s1) → round_ready a st'.
Proof.
  destruct st as [[rows cols] layer].
  intros Hh (Hwf & Hr & Hc & Hrows & Hcols & Hnd1 & Hnd2) H.
  destruct (fit_layer_round_spec self l a s rows cols layer)
    as (_ & _ & c & layer' & Hrun & Hval & Hwf' & Hc'); [done..|].
  rewrite Hrun in H. injection H as -> <-.
  destruct Hc' as [?|([= ->] & Hr' & Hcc')]; [done|].
  unfold round_ready. repeat split; try done.
  - by apply select_in_range.
  - by apply select_in_range.
  - eapply sublist_NoDup; [exact Hnd1|apply select_sublist].
  - eapply sublist_NoDup; [exact Hnd2|apply select_sublist].
Qed.

(** C1 (as amended).  In a pruning step of layer fitting, a
    row index of the current row set is retained exactly when the comparison
    of the program holds: its sum of squared deviations from the layer over
    the current column set, strictly below (1 - row threshold) times its sum
    of squares over that column set, every square, difference, sum and
    product being the one of the arithmetic of the arrays; columns are
    retained by the same comparison with the column threshold. *)
Theorem pruning_rule self residuals a s rows cols layer :
  heap s !! residuals = Some (PyArray a) →
  wf layer → nrows layer = length rows → ncols layer = length cols →
  Forall (λ i, i < nrows a) rows → Forall (λ j, j < ncols a) cols →
  NoDup rows → NoDup cols →
  ∃ c rows' cols' layer',
    fit_layer_round self residuals (rows, cols, layer) s = (Ok c, s)
    ∧ ctrl_value c = (rows', cols', layer')
    ∧ (∀ p i, rows !! p = Some i →
         i ∈ rows' ↔
         flt (sum_sq_diff a layer cols p i)
             (fmul (fsub fone (row_prunning_threshold self)) (sum_sq a cols i)) = true)
    ∧ (∀ q j, cols !! q = Some j →
         j ∈ cols' ↔
         flt (col_sum_sq_diff a layer rows q j)
             (fmul (fsub fone (col_prunning_threshold self)) (col_sum_sq a rows j)) = true)
    ∧ (∀ i, i ∈ rows' → i ∈ rows) ∧ (∀ j, j ∈ cols' → j ∈ cols).
Proof.
  intros Hh Hwf Hr Hc Hrows Hcols Hnd1 Hnd2.
  destruct (fit_layer_round_spec self residuals a s rows cols layer)
    as (_ & _ & c & layer' & Hrun & Hval & _); [done..|].
  eexists c, _, _, layer'. split; [done|]. split; [done|].
  repeat split.
  - intros Hin. apply elem_of_select in Hin as (p' & Hp' & Hk).
    by rewrite (NoDup_lookup _ _ _ _ Hnd1 H Hp').
  - intros Hret. apply elem_of_select. by exists p.
  - intros Hin. apply elem_of_select in Hin as (q' & Hq' & Hk).
    by rewrite (NoDup_lookup _ _ _ _ Hnd2 H Hq').
  - intros Hret. apply elem_of_select. by exists q.
  - intros i Hi. eapply elem_of_sublist; [done|apply select_sublist].
  - intros j Hj. eapply elem_of_sublist; [done|apply select_sublist].
Qed.

(** C6. Within a refinement round, rows are pruned against the row and
    column sets of the start of the round, and columns are pruned against
    the row set of the start of the round, not the freshly pruned one: the
    columns kept do not depend on the outcome of the row pruning of the same
    round. *)
Theorem column_pruning_uses_start_rows self residuals a s rows cols layer :
  heap s !! residuals = Some (PyArray a) →
  wf layer → nrows layer = length rows → ncols layer = length cols →
  Forall (λ i, i < nrows a) rows → Forall (λ j, j < ncols a) cols →
  ∃ c rows' cols' layer',
    fit_layer_round self residuals (rows, cols, layer) s = (Ok c, s)
    ∧ ctrl_value c = (rows', cols', layer')
    ∧ _prune a layer rows cols (row_prunning_threshold self) = Ok rows'
    ∧ rows' = select (keeps a layer cols (row_prunning_threshold self)) rows
    ∧ _prune (transpose a) (transpose layer) cols rows (col_prunning_threshold self)
      = Ok cols'
    ∧ cols' = select (col_keeps a layer rows (col_prunning_threshold self)) cols
    ∧ (∀ self2, col_prunning_threshold self2 = col_prunning_threshold self →
         ∃ c2 rows2 layer2,
           fit_layer_round self2 residuals (rows, cols, layer) s = (Ok c2, s)
           ∧ ctrl_value c2 = (rows2, cols', layer2)).
Proof.
  intros Hh Hwf Hr Hc Hrows Hcols.
  destruct (fit_layer_round_spec self residuals a s rows cols layer)
    as (Hp1 & Hp2 & c & layer' & Hrun & Hval & _); [done..|].
  eexists c, _, _, layer'. repeat split; try done.
  intros self2 Heq.
  destruct (fit_layer_round_spec self2 residuals a s rows cols layer)
    as (_ & _ & c2 & layer2 & Hrun2 & Hval2 & _); [done..|].
  exists c2, (select (keeps a layer cols (row_prunning_threshold self2)) rows), layer2.
  split; [done|]. by rewrite Hval2, Heq.
Qed.

(** ** What a computation leaves untouched *)

Lemma preserves_bind o0 {A B} (m : M A) (f : A → M B) V V' :
  preserves o0 m V → (∀ a, V a → preserves o0 (f a) V') → preserves o0 (m ≫= f) V'.
Proof.
  intros Hm Hf s Hs. specialize (Hm s Hs). rewrite bind_run.
  destruct (m s) as [[a|e] s1]; simpl in *.
  - destruct Hm as [H1 H2]. by apply Hf.
  - by destruct Hm.
Qed.

Lemma preserves_weaken o0 {A} (m : M A) (V V' : A → Prop) :
  preserves o0 m V → (∀ a, V a → V' a) → preserves o0 m V'.
Proof.
  intros Hm HV s Hs. destruct (Hm s Hs) as [H1 H2]. split; [done|].
  destruct (m s).1; auto.
Qed.

Lemma preserves_ret o0 {A} (a : A) (V : A → Prop) : V a → preserves o0 (mret a) V.
Proof. intros HV s Hs. by split. Qed.

Lemma preserves_lift o0 {A} (r : res A) : preserves o0 (lift r) (λ _, True).
Proof. intros s Hs. split; [done|]. simpl. by destruct r. Qed.

Lemma preserves_load_array o0 l : preserves o0 (load_array l) (λ _, True).
Proof. intros s Hs. unfold load_array. by repeat case_match. Qed.

Lemma preserves_load_layers o0 l : preserves o0 (load_layers l) (λ _, True).
Proof. intros s Hs. unfold load_layers. by repeat case_match. Qed.

Lemma preserves_load_biclusters o0 l : preserves o0 (load_biclusters l) (λ _, True).
Proof. intros s Hs. unfold load_biclusters. by repeat case_match. Qed.

Lemma fresh_loc_None (h : gmap loc pyobj) : h !! fresh (dom h) = None.
Proof. apply not_elem_of_dom, is_fresh. Qed.

Lemma preserves_alloc o0 o : preserves o0 (alloc o) (λ l, o0 !! l = None).
Proof.
  intros s Hs. unfold alloc. simpl.
  pose proof (fresh_loc_None (heap s)) as Hf.
  assert (o0 !! fresh (dom (heap s)) = None) as Hn.
  { by eapply lookup_weaken_None. }
  split; [|done]. by apply insert_subseteq_r.
Qed.

Lemma preserves_store o0 l o : o0 !! l = None → preserves o0 (store l o) (λ _, True).
Proof. intros Hn s Hs. unfold store. simpl. split; [|done]. by apply insert_subseteq_r. Qed.

Lemma preserves_call_k_means o0 a n : preserves o0 (call_k_means a n) (λ _, True).
Proof.
  intros s Hs. unfold call_k_means. destruct (k_means (rng s) a n) as [r [l|e]]; by simpl.
Qed.

Lemma preserves_call_shuffle o0 buf : preserves o0 (call_shuffle buf) (λ _, True).
Proof. intros s Hs. unfold call_shuffle. by destruct (shuffle (rng s) buf). Qed.

Lemma preserves_for_range o0 {A} n (body : A → M (ctrl A)) a :
  (∀ a, preserves o0 (body a) (λ _, True)) → preserves o0 (for_range n body a) (λ _, True).
Proof.
  intros Hb. revert a. induction n as [|n IH]; intros a; simpl.
  - by apply preserves_ret.
  - eapply preserves_bind; [apply Hb|]. intros [a'|a'] _; [apply IH|by apply preserves_ret].
Qed.

Lemma preserves_for_each o0 {A} (l : list A) (body : A → M unit) :
  (∀ a, preserves o0 (body a) (λ _, True)) → preserves o0 (for_each l body) (λ _, True).
Proof.
  intros Hb. induction l as [|x l IH]; simpl.
  - by apply preserves_ret.
  - eapply preserves_bind; [apply Hb|]. intros _ _. apply IH.
Qed.

Ltac pres_bind lem := eapply preserves_bind; [apply lem | intros ? ?].

Lemma preserves_np_copy o0 l : preserves o0 (np_copy l) (λ c, o0 !! c = None).
Proof. unfold np_copy. pres_bind preserves_load_array. apply preserves_alloc. Qed.

Lemma preserves_isub o0 l v : o0 !! l = None → preserves o0 (isub l v) (λ _, True).
Proof.
  intros Hl. unfold isub. pres_bind preserves_load_array.
  pres_bind preserves_lift. by apply preserves_store.
Qed.

Lemma preserves_grid_iop o0 op l rows cols v :
  o0 !! l = None → preserves o0 (grid_iop op l rows cols v) (λ _, True).
Proof.
  intros Hl. unfold grid_iop. pres_bind preserves_load_array.
  pres_bind preserves_lift. pres_bind preserves_lift. by apply preserves_store.
Qed.

Lemma preserves_random_shuffle_flat o0 l :
  o0 !! l = None → preserves o0 (random_shuffle_flat l) (λ _, True).
Proof.
  intros Hl. unfold random_shuffle_flat. pres_bind preserves_load_array.
  pres_bind preserves_call_shuffle. by apply preserves_store.
Qed.

Lemma preserves_layers_append o0 l x :
  o0 !! l = None → preserves o0 (layers_append l x) (λ _, True).
Proof.
  intros Hl. unfold layers_append. pres_bind preserves_load_layers.
  by apply preserves_store.
Qed.

Lemma preserves_layers_getitem o0 l j : preserves o0 (layers_getitem l j) (λ _, True).
Proof.
  unfold layers_getitem. pres_bind preserves_load_layers.
  case_match; [apply preserves_load_array | apply preserves_lift].
Qed.

Lemma preserves_layers_setitem o0 l j x :
  o0 !! l = None → preserves o0 (layers_setitem l j x) (λ _, True).
Proof.
  intros Hl. unfold layers_setitem. pres_bind preserves_load_layers.
  case_match; [by apply preserves_store | apply preserves_lift].
Qed.

Lemma preserves_layers_pop0 o0 l :
  o0 !! l = None → preserves o0 (layers_pop0 l) (λ _, True).
Proof.
  intros Hl. unfold layers_pop0. pres_bind preserves_load_layers.
  case_match; [apply preserves_lift | by apply preserves_store].
Qed.

Lemma preserves_biclusters_append o0 l b :
  o0 !! l = None → preserves o0 (biclusters_append l b) (λ _, True).
Proof.
  intros Hl. unfold biclusters_append. pres_bind preserves_load_biclusters.
  by apply preserves_store.
Qed.

Lemma preserves_biclusters_pop0 o0 l :
  o0 !! l = None → preserves o0 (biclusters_pop0 l) (λ _, True).
Proof.
  intros Hl. unfold biclusters_pop0. pres_bind preserves_load_biclusters.
  case_match; [apply preserves_lift | by apply preserves_store].
Qed.

Lemma preserves_kmeans_initialization o0 self a :
  preserves o0 (_kmeans_initialization self a) (λ _, True).
Proof.
  unfold _kmeans_initialization. pres_bind preserves_call_k_means.
  repeat case_match; (by apply preserves_ret) || apply preserves_lift.
Qed.

Lemma preserves_generate_initial_bicluster o0 self l :
  preserves o0 (_generate_initial_bicluster self l) (λ _, True).
Proof.
  unfold _generate_initial_bicluster. pres_bind preserves_load_array.
  pres_bind preserves_kmeans_initialization. pres_bind preserves_load_array.
  pres_bind preserves_kmeans_initialization. by apply preserves_ret.
Qed.

Lemma preserves_fit_layer_round o0 self l st :
  preserves o0 (fit_layer_round self l st) (λ _, True).
Proof.
  unfold fit_layer_round. destruct st as [[rows cols] layer].
  pres_bind preserves_load_array. pres_bind preserves_lift.
  pres_bind preserves_load_array. pres_bind preserves_lift.
  case_match; [by apply preserves_ret|].
  pres_bind preserves_load_array. pres_bind preserves_lift. by apply preserves_ret.
Qed.

Lemma preserves_fit_layer o0 self l : preserves o0 (_fit_layer self l) (λ _, True).
Proof.
  unfold _fit_layer. pres_bind preserves_generate_initial_bicluster.
  destruct a as [rows cols]. pres_bind preserves_load_array.
  pres_bind preserves_lift. apply preserves_for_range.
  intros st. apply preserves_fit_layer_round.
Qed.

Lemma preserves_significance_trial o0 self c score acc :
  o0 !! c = None → preserves o0 (significance_trial self c score acc) (λ _, True).
Proof.
  intros Hc. unfold significance_trial.
  eapply preserves_bind; [by apply preserves_random_shuffle_flat|intros _ _].
  pres_bind preserves_fit_layer. destruct a as [[rows cols] test_layer].
  pres_bind preserves_lift. case_match; by apply preserves_ret.
Qed.

Lemma preserves_is_significant o0 self residuals layer :
  preserves o0 (_is_significant self residuals layer) (λ _, True).
Proof.
  unfold _is_significant. pres_bind preserves_lift.
  pres_bind preserves_np_copy.
  eapply preserves_bind.
  { apply preserves_for_range. intros acc. by apply preserves_significance_trial. }
  intros [b|] _; by apply preserves_ret.
Qed.

Lemma preserves_back_fit_pair o0 residuals layers jb :
  o0 !! residuals = None → o0 !! layers = None →
  preserves o0 (back_fit_pair residuals layers jb) (λ _, True).
Proof.
  intros Hr Hl. unfold back_fit_pair. destruct jb as [j b].
  pres_bind preserves_layers_getitem.
  eapply preserves_bind; [by apply preserves_grid_iop|intros _ _].
  pres_bind preserves_load_array. pres_bind preserves_lift.
  pres_bind preserves_alloc.
  eapply preserves_bind; [by apply preserves_layers_setitem|intros _ _].
  pres_bind preserves_layers_getitem. by apply preserves_grid_iop.
Qed.

Lemma preserves_back_fitting o0 self residuals layers bics :
  o0 !! residuals = None → o0 !! layers = None →
  preserves o0 (_back_fitting self residuals layers bics) (λ _, True).
Proof.
  intros Hr Hl. unfold _back_fitting. apply preserves_for_range. intros _.
  pres_bind preserves_load_layers. pres_bind preserves_load_biclusters.
  eapply preserves_bind; [|intros _ _; by apply preserves_ret].
  apply preserves_for_each. intros jb. by apply preserves_back_fit_pair.
Qed.

Lemma preserves_run_init o0 data : preserves o0 (run_init data) (frame_outside o0).
Proof.
  unfold run_init. pres_bind preserves_np_copy. pres_bind preserves_load_array.
  pres_bind preserves_alloc. pres_bind preserves_alloc. by apply preserves_ret.
Qed.

Lemma preserves_run_background o0 self f :
  frame_outside o0 f → preserves o0 (run_background self f) (λ _, True).
Proof.
  intros (Hr & Hb & Hl). unfold run_background. case_match; [|by apply preserves_ret].
  pres_bind preserves_load_array. pres_bind preserves_alloc.
  eapply preserves_bind; [by apply preserves_layers_append|intros _ _].
  eapply preserves_bind; [by apply preserves_isub|intros _ _].
  by apply preserves_biclusters_append.
Qed.

Lemma preserves_run_discover o0 self f u :
  frame_outside o0 f → preserves o0 (run_discover self f u) (λ _, True).
Proof.
  intros (Hr & Hb & Hl). unfold run_discover. pres_bind preserves_fit_layer.
  destruct a as [[rows cols] layer]. case_match; [by apply preserves_ret|].
  pres_bind preserves_is_significant. case_match; [by apply preserves_ret|].
  eapply preserves_bind; [by apply preserves_grid_iop|intros _ _].
  pres_bind preserves_alloc.
  eapply preserves_bind; [by apply preserves_layers_append|intros _ _].
  eapply preserves_bind; [by apply preserves_biclusters_append|intros _ _].
  eapply preserves_bind; [by apply preserves_back_fitting|intros _ _].
  by apply preserves_ret.
Qed.

Lemma preserves_run_finalize o0 self f :
  frame_outside o0 f → preserves o0 (run_finalize self f) (λ _, True).
Proof.
  intros (Hr & Hb & Hl). unfold run_finalize. case_match.
  - eapply preserves_bind; [by apply preserves_layers_append|intros _ _].
    eapply preserves_bind; [by apply preserves_biclusters_append|intros _ _].
    by apply preserves_ret.
  - eapply (preserves_bind _ _ _ (λ _, True)); [|intros _ _; by apply preserves_ret].
    case_match; [|by apply preserves_ret].
    eapply preserves_bind; [by apply preserves_biclusters_pop0|intros _ _].
    by apply preserves_layers_pop0.
Qed.

Lemma preserves_run o0 self data : preserves o0 (run self data) (λ _, True).
Proof.
  unfold run. pres_bind preserves_lift. pres_bind preserves_run_init.
  eapply preserves_bind; [by apply preserves_run_background|intros _ _].
  eapply preserves_bind.
  { apply preserves_for_range. intros u. by apply preserves_run_discover. }
  intros _ _. by apply preserves_run_finalize.
Qed.

(** C10. The significance test never mutates the residual matrix it is
    given: whatever the verdict and the number of trials, every object that
    existed before the call, the residual matrix among them, is unchanged
    afterwards; the trials shuffle a copy allocated by the call. *)
Theorem is_significant_leaves_residuals self residuals layer s a :
  heap s !! residuals = Some (PyArray a) →
  heap (_is_significant self residuals layer s).2 !! residuals = Some (PyArray a)
  ∧ heap s ⊆ heap (_is_significant self residuals layer s).2.
Proof.
  intros Hres.
  destruct (preserves_is_significant (heap s) self residuals layer s) as [Hsub _];
    [done|].
  split; [|done]. by eapply lookup_weaken.
Qed.

(** ** Inversion of successful runs *)

Lemma ret_ok_inv {A} (a b : A) s s1 :
  (mret a : M A) s = (Ok b, s1) → b = a ∧ s1 = s.
Proof. by intros [= -> ->]. Qed.

Lemma lift_ok_inv {A} (r : res A) a s s1 :
  lift r s = (Ok a, s1) → r = Ok a ∧ s1 = s.
Proof. unfold lift. by intros [= -> ->]. Qed.

Lemma load_array_inv l a s s1 :
  load_array l s = (Ok a, s1) → heap s !! l = Some (PyArray a) ∧ s1 = s.
Proof. unfold load_array. repeat case_match; by intros [= -> ->]. Qed.

Lemma load_layers_inv l ls s s1 :
  load_layers l s = (Ok ls, s1) → heap s !! l = Some (PyLayers ls) ∧ s1 = s.
Proof. unfold load_layers. repeat case_match; by intros [= -> ->]. Qed.

Lemma load_biclusters_inv l bs s s1 :
  load_biclusters l s = (Ok bs, s1) → heap s !! l = Some (PyBiclusters bs) ∧ s1 = s.
Proof. unfold load_biclusters. repeat case_match; by intros [= -> ->]. Qed.

Lemma alloc_inv o l s s1 :
  alloc o s = (Ok l, s1) →
  heap s !! l = None ∧ s1 = mk_state (<[l := o]> (heap s)) (rng s).
Proof. unfold alloc. intros [= <- <-]. split; [apply fresh_loc_None|done]. Qed.

Lemma store_inv l o u s s1 :
  store l o s = (Ok u, s1) → s1 = mk_state (<[l := o]> (heap s)) (rng s).
Proof. unfold store. by intros [= _ <-]. Qed.

Ltac inv_run :=
  repeat match goal with
  | H : (_ ≫= _) _ = (Ok _, _) |- _ =>
      apply bind_ok_inv in H as (? & ? & ? & H)
  | H : (mret _) _ = (Ok _, _) |- _ => apply ret_ok_inv in H as [? ?]; subst
  | H : lift _ _ = (Ok _, _) |- _ => apply lift_ok_inv in H as [? ?]; subst
  | H : load_array _ _ = (Ok _, _) |- _ => apply load_array_inv in H as [? ?]; subst
  | H : load_layers _ _ = (Ok _, _) |- _ => apply load_layers_inv in H as [? ?]; subst
  | H : load_biclusters _ _ = (Ok _, _) |- _ =>
      apply load_biclusters_inv in H as [? ?]; subst
  | H : alloc _ _ = (Ok _, _) |- _ => apply alloc_inv in H as [? ?]; subst
  | H : store _ _ _ = (Ok _, _) |- _ => apply store_inv in H; subst
  end.

Lemma np_copy_inv l c s s1 :
  np_copy l s = (Ok c, s1) →
  ∃ a, heap s !! l = Some (PyArray a) ∧ heap s !! c = None
       ∧ s1 = mk_state (<[c := PyArray a]> (heap s)) (rng s).
Proof. unfold np_copy. intros H. inv_run. eauto. Qed.

Lemma isub_inv l v u s s1 :
  isub l v s = (Ok u, s1) →
  ∃ a a', heap s !! l = Some (PyArray a) ∧ elementwise fsub a v = Ok a'
          ∧ s1 = mk_state (<[l := PyArray a']> (heap s)) (rng s).
Proof. unfold isub. intros H. inv_run. eauto. Qed.

Lemma grid_iop_inv op l rows cols v u s s1 :
  grid_iop op l rows cols v s = (Ok u, s1) →
  ∃ a sub new, heap s !! l = Some (PyArray a) ∧ take_grid a rows cols = Ok sub
          ∧ elementwise op sub v = Ok new
          ∧ s1 = mk_state (<[l := PyArray (put_grid a rows cols new)]> (heap s)) (rng s).
Proof. unfold grid_iop. intros H. inv_run. eauto 10. Qed.

Lemma layers_append_inv l x u s s1 :
  layers_append l x s = (Ok u, s1) →
  ∃ ls, heap s !! l = Some (PyLayers ls)
        ∧ s1 = mk_state (<[l := PyLayers (ls ++ [x])]> (heap s)) (rng s).
Proof. unfold layers_append. intros H. inv_run. eauto. Qed.

Lemma layers_getitem_inv l j v s s1 :
  layers_getitem l j s = (Ok v, s1) →
  ∃ ls x, heap s !! l = Some (PyLayers ls) ∧ ls !! j = Some x
          ∧ heap s !! x = Some (PyArray v) ∧ s1 = s.
Proof.
  unfold layers_getitem. intros H. inv_run.
  destruct (_ !! j) eqn:E; inv_run; [eauto 10|done].
Qed.

Lemma layers_setitem_inv l j x u s s1 :
  layers_setitem l j x s = (Ok u, s1) →
  ∃ ls, heap s !! l = Some (PyLayers ls) ∧ j < length ls
        ∧ s1 = mk_state (<[l := PyLayers (<[j := x]> ls)]> (heap s)) (rng s).
Proof.
  unfold layers_setitem. intros H. inv_run.
  destruct (_ <? _) eqn:E; inv_run; [|done].
  apply Nat.ltb_lt in E. eauto.
Qed.

Lemma layers_pop0_inv l u s s1 :
  layers_pop0 l s = (Ok u, s1) →
  ∃ x ls, heap s !! l = Some (PyLayers (x :: ls))
        ∧ s1 = mk_state (<[l := PyLayers ls]> (heap s)) (rng s).
Proof.
  unfold layers_pop0. intros H. inv_run.
  match goal with H : match ?l with _ => _ end _ = _ |- _ => destruct l; inv_run end;
    [done|eauto].
Qed.

Lemma biclusters_append_inv l b u s s1 :
  biclusters_append l b s = (Ok u, s1) →
  ∃ bs, heap s !! l = Some (PyBiclusters bs)
        ∧ s1 = mk_state (<[l := PyBiclusters (bs ++ [b])]> (heap s)) (rng s).
Proof. unfold biclusters_append. intros H. inv_run. eauto. Qed.

Lemma biclusters_pop0_inv l u s s1 :
  biclusters_pop0 l s = (Ok u, s1) →
  ∃ b bs, heap s !! l = Some (PyBiclusters (b :: bs))
        ∧ s1 = mk_state (<[l := PyBiclusters bs]> (heap s)) (rng s).
Proof.
  unfold biclusters_pop0. intros H. inv_run.
  match goal with H : match ?l with _ => _ end _ = _ |- _ => destruct l; inv_run end;
    [done|eauto].
Qed.

Lemma for_range_ok_inv {A} (I : state → Prop) n (body : A → M (ctrl A)) a s r s1 :
  (∀ a s c s1, I s → body a s = (Ok c, s1) → I s1) →
  I s → for_range n body a s = (Ok r, s1) → I s1.
Proof.
  intros Hb. revert a s. induction n as [|n IH]; intros a s Hs H; simpl in H.
  - by inv_run.
  - apply bind_ok_inv in H as (c & s0 & Hc & H).
    specialize (Hb _ _ _ _ Hs Hc). destruct c; [exact (IH _ _ Hb H)|by inv_run].
Qed.

Lemma for_each_ok_inv {A} (I : state → Prop) (l : list A) (body : A → M unit) s u s1 :
  (∀ x s u s1, x ∈ l → I s → body x s = (Ok u, s1) → I s1) →
  I s → for_each l body s = (Ok u, s1) → I s1.
Proof.
  revert s. induction l as [|x l IH]; intros s Hb Hs H; simpl in H.
  - by inv_run.
  - apply bind_ok_inv in H as (c & s0 & Hc & H).
    eapply (IH s0); [|by eapply Hb; [left|..]|done].
    intros y s' u' s1' Hy. apply Hb. by right.
Qed.

(** A computation that preserves the whole store it starts from. *)
Lemma preserves_extends {A} (m : M A) s :
  (∀ o0, preserves o0 m (λ _, True)) → heap s ⊆ heap (m s).2.
Proof. intros H. by destruct (H (heap s) s). Qed.

(** ** Alignment of [layers] and [biclusters] *)

Lemma aligned_mono f s s1 : aligned f s → heap s ⊆ heap s1 → aligned f s1.
Proof.
  intros (ls & bs & Hl & Hb & Hlen) Hsub. exists ls, bs.
  repeat split; [by eapply lookup_weaken..|done].
Qed.

Lemma aligned_store_array f s l a a' r :
  heap s !! l = Some (PyArray a) → aligned f s →
  aligned f (mk_state (<[l := PyArray a']> (heap s)) r).
Proof.
  intros Hl (ls & bs & Hls & Hbs & Hlen). exists ls, bs. simpl.
  repeat split; [| |done]; rewrite lookup_insert_ne; congruence.
Qed.

Lemma aligned_alloc f s l o r :
  heap s !! l = None → aligned f s → aligned f (mk_state (<[l := o]> (heap s)) r).
Proof.
  intros Hl Ha. eapply aligned_mono; [done|]. simpl. by apply insert_subseteq.
Qed.

Lemma aligned_fit_layer self f l s r s1 :
  aligned f s → _fit_layer self l s = (r, s1) → aligned f s1.
Proof.
  intros Ha H. eapply aligned_mono; [done|].
  pose proof (preserves_extends (_fit_layer self l) s) as Hext.
  rewrite H in Hext. apply Hext. intros o0. apply preserves_fit_layer.
Qed.

Lemma aligned_is_significant self f l layer s r s1 :
  aligned f s → _is_significant self l layer s = (r, s1) → aligned f s1.
Proof.
  intros Ha H. eapply aligned_mono; [done|].
  pose proof (preserves_extends (_is_significant self l layer) s) as Hext.
  rewrite H in Hext. apply Hext. intros o0. apply preserves_is_significant.
Qed.

Lemma aligned_grid_iop f op l rows cols v u s s1 :
  aligned f s → grid_iop op l rows cols v s = (Ok u, s1) → aligned f s1.
Proof.
  intros Ha H. apply grid_iop_inv in H as (a & sub & new & Hl & _ & _ & ->).
  by eapply aligned_store_array.
Qed.

Lemma aligned_back_fit_pair f jb u s s1 :
  aligned f s →
  back_fit_pair (f_residuals f) (f_layers f) jb s = (Ok u, s1) → aligned f s1.
Proof.
  intros Ha H. unfold back_fit_pair in H. destruct jb as [j b].
  apply bind_ok_inv in H as (lj & s2 & H1 & H).
  apply layers_getitem_inv in H1 as (? & ? & _ & _ & _ & ->).
  apply bind_ok_inv in H as (? & s3 & H2 & H).
  apply (aligned_grid_iop f) in H2; [|done].
  apply bind_ok_inv in H as (a & s4 & H3 & H). apply load_array_inv in H3 as [_ ->].
  apply bind_ok_inv in H as (sub & s5 & H4 & H). apply lift_ok_inv in H4 as [_ ->].
  apply bind_ok_inv in H as (new & s6 & H5 & H). apply alloc_inv in H5 as [Hnew ->].
  pose proof (aligned_alloc f _ new (PyArray (_create_layer sub)) (rng s3) Hnew H2) as H2'.
  clear H2; rename H2' into H2.
  apply bind_ok_inv in H as (? & s7 & H6 & H).
  apply layers_setitem_inv in H6 as (ls & Hls & Hj & ->).
  apply bind_ok_inv in H as (lj' & s8 & H7 & H).
  apply layers_getitem_inv in H7 as (? & ? & _ & _ & _ & ->).
  eapply aligned_grid_iop; [|done].
  destruct H2 as (ls' & bs & Hls' & Hbs & Hlen). simpl in *.
  exists (<[j := new]> ls), bs. simpl. rewrite lookup_insert_eq.
  assert (f_layers f ≠ f_biclusters f) by congruence.
  rewrite lookup_insert_ne by done. rewrite length_insert.
  repeat split; [done|congruence].
Qed.

Lemma aligned_back_fitting self f u s s1 :
  aligned f s →
  _back_fitting self (f_residuals f) (f_layers f) (f_biclusters f) s = (Ok u, s1) →
  aligned f s1.
Proof.
  intros Ha H. unfold _back_fitting in H.
  eapply (for_range_ok_inv (aligned f)); [|exact Ha|exact H].
  clear. intros [] s c s1 Ha H.
  apply bind_ok_inv in H as (ls & s2 & H1 & H). apply load_layers_inv in H1 as [_ ->].
  apply bind_ok_inv in H as (bs & s3 & H2 & H). apply load_biclusters_inv in H2 as [_ ->].
  apply bind_ok_inv in H as (? & s4 & H3 & H). inv_run.
  eapply (for_each_ok_inv (aligned f)); [|exact Ha|exact H3].
  intros jb s' u' s1' _. apply aligned_back_fit_pair.
Qed.

Lemma aligned_run_init data f s s1 : run_init data s = (Ok f, s1) → aligned f s1.
Proof.
  unfold run_init. intros H.
  apply bind_ok_inv in H as (c & s2 & H1 & H).
  apply bind_ok_inv in H as (a & s3 & H2 & H). apply load_array_inv in H2 as [_ ->].
  apply bind_ok_inv in H as (b & s4 & H3 & H). apply alloc_inv in H3 as [Hb ->].
  apply bind_ok_inv in H as (l & s5 & H4 & H). apply alloc_inv in H4 as [Hl ->].
  inv_run. exists [], []. simpl in *. rewrite lookup_insert_eq.
  assert (l ≠ b) by (intros ->; by rewrite lookup_insert_eq in Hl).
  rewrite lookup_insert_ne, lookup_insert_eq by done. done.
Qed.

Lemma aligned_run_background self f u s s1 :
  aligned f s → run_background self f s = (Ok u, s1) → aligned f s1.
Proof.
  intros (ls & bs & Hls & Hbs & Hlen) H. unfold run_background in H.
  destruct (fit_background_layer self); [|inv_run; by exists ls, bs].
  apply bind_ok_inv in H as (a & s2 & H1 & H). apply load_array_inv in H1 as [Hres ->].
  apply bind_ok_inv in H as (bl & s3 & H2 & H). apply alloc_inv in H2 as [Hbl ->].
  apply bind_ok_inv in H as (? & s4 & H3 & H).
  apply layers_append_inv in H3 as (ls' & Hls' & ->).
  apply bind_ok_inv in H as (? & s5 & H4 & H).
  apply isub_inv in H4 as (a' & a'' & Hres' & _ & ->).
  apply biclusters_append_inv in H as (bs' & Hbs' & ->). simpl in *.
  assert (bl ≠ f_layers f) by congruence.
  assert (bl ≠ f_biclusters f) by congruence.
  assert (f_layers f ≠ f_biclusters f) by congruence.
  assert (f_residuals f ≠ f_layers f) by congruence.
  assert (f_residuals f ≠ f_biclusters f) by congruence.
  simplify_map_eq.
  exists (ls ++ [bl]), (bs ++ [mk_Bicluster (arange (f_num_rows f)) (arange (f_num_cols f))]).
  simplify_map_eq. rewrite !length_app. simpl. repeat split; [done..|lia].
Qed.

Lemma aligned_run_discover self f u c s s1 :
  aligned f s → run_discover self f u s = (Ok c, s1) → aligned f s1.
Proof.
  intros Ha H. unfold run_discover in H.
  apply bind_ok_inv in H as ([[rows cols] layer] & s2 & H1 & H).
  apply (aligned_fit_layer _ f) in H1; [|done].
  destruct ((length rows =? 0) || (length cols =? 0)); [by inv_run|].
  apply bind_ok_inv in H as (sig & s3 & H2 & H).
  apply (aligned_is_significant _ f) in H2; [|done].
  destruct (negb sig); [by inv_run|].
  apply bind_ok_inv in H as (? & s4 & H3 & H).
  apply (aligned_grid_iop f) in H3; [|done].
  apply bind_ok_inv in H as (l & s5 & H4 & H). apply alloc_inv in H4 as [Hl ->].
  apply bind_ok_inv in H as (? & s6 & H5 & H).
  apply layers_append_inv in H5 as (ls' & Hls' & ->).
  apply bind_ok_inv in H as (? & s7 & H6 & H).
  apply biclusters_append_inv in H6 as (bs' & Hbs' & ->).
  apply bind_ok_inv in H as (? & s8 & H7 & H). inv_run.
  eapply aligned_back_fitting; [|exact H7].
  destruct H3 as (ls & bs & Hls & Hbs & Hlen). simpl in *.
  assert (l ≠ f_layers f) by congruence.
  assert (l ≠ f_biclusters f) by congruence.
  assert (f_layers f ≠ f_biclusters f) by congruence.
  simplify_map_eq.
  exists (ls ++ [l]), (bs ++ [mk_Bicluster rows cols]).
  simplify_map_eq. rewrite !length_app. simpl. repeat split; [done..|lia].
Qed.

Lemma aligned_run_finalize self f r s s1 :
  aligned f s → run_finalize self f s = (Ok r, s1) →
  aligned f s1 ∧ result_of_frame f r.
Proof.
  intros (ls & bs & Hls & Hbs & Hlen) H. unfold run_finalize in H.
  assert (f_layers f ≠ f_biclusters f) by congruence.
  destruct (return_layers self).
  - apply bind_ok_inv in H as (? & s2 & H1 & H).
    apply layers_append_inv in H1 as (ls' & Hls' & ->).
    apply bind_ok_inv in H as (? & s3 & H2 & H).
    apply biclusters_append_inv in H2 as (bs' & Hbs' & ->). inv_run.
    simpl in *. simplify_map_eq. split; [|done].
    eexists _, _. simpl. simplify_map_eq. repeat split; [done..|].
    rewrite !length_app. simpl. lia.
  - apply bind_ok_inv in H as (? & s2 & H1 & H). inv_run. split; [|done].
    destruct (fit_background_layer self); [|inv_run; by exists ls, bs].
    apply bind_ok_inv in H1 as (? & s3 & H1 & H2).
    apply biclusters_pop0_inv in H1 as (b & bs' & Hbs' & ->).
    apply layers_pop0_inv in H2 as (l & ls' & Hls' & ->).
    simpl in *. simplify_map_eq.
    exists ls', bs'. simpl. simplify_map_eq. repeat split; [done..|].
    simpl in Hlen. lia.
Qed.

(** C8. The layer list and the bicluster list stay aligned: they have the
    same length after initialization, after the optional background step,
    after every pass of the discovery loop (append and back-fitting), after
    back-fitting alone, and after finalization in either output mode; the
    lists of the result of a run are the aligned lists. *)
Theorem alignment_invariant self data :
  (∀ s f s1, run_init data s = (Ok f, s1) → aligned f s1)
  ∧ (∀ f s u s1, aligned f s → run_background self f s = (Ok u, s1) → aligned f s1)
  ∧ (∀ f s u c s1, aligned f s → run_discover self f u s = (Ok c, s1) → aligned f s1)
  ∧ (∀ f s u s1, aligned f s →
       _back_fitting self (f_residuals f) (f_layers f) (f_biclusters f) s = (Ok u, s1) →
       aligned f s1)
  ∧ (∀ f s r s1, aligned f s → run_finalize self f s = (Ok r, s1) →
       aligned f s1 ∧ result_of_frame f r)
  ∧ (∀ s r s1, run self data s = (Ok r, s1) →
       ∃ f, aligned f s1 ∧ result_of_frame f r).
Proof.
  split; [intros; by eapply aligned_run_init|].
  split; [intros; by eapply aligned_run_background|].
  split; [intros; by eapply aligned_run_discover|].
  split; [intros; by eapply aligned_back_fitting|].
  split; [intros; by eapply aligned_run_finalize|].
  intros s r s1 H. unfold run in H.
  apply bind_ok_inv in H as (? & s2 & H1 & H). apply lift_ok_inv in H1 as [_ ->].
  apply bind_ok_inv in H as (f & s3 & H2 & H). apply aligned_run_init in H2.
  apply bind_ok_inv in H as (? & s4 & H3 & H).
  apply (aligned_run_background _ f) in H3; [|done].
  apply bind_ok_inv in H as (? & s5 & H4 & H).
  exists f. eapply aligned_run_finalize; [|exact H].
  eapply (for_range_ok_inv (aligned f)); [|exact H3|exact H4].
  intros u s' c s1' Ha. by apply aligned_run_discover.
Qed.

(** ** The input of [run] *)

(** C9. [run] works on a freshly allocated copy of the input and never
    modifies the caller's matrix: once [run] has finished, the input holds
    the entries it held before the call (and so does every other object of
    the caller). *)
Theorem run_leaves_input self data s a :
  heap s !! data = Some (PyArray a) →
  (∃ f s1, run_init data s = (Ok f, s1)
     ∧ heap s !! f_residuals f = None
     ∧ heap s1 !! f_residuals f = Some (PyArray a)
     ∧ heap s1 !! data = Some (PyArray a))
  ∧ heap (run self data s).2 !! data = Some (PyArray a)
  ∧ heap s ⊆ heap (run self data s).2.
Proof.
  intros Hd. split.
  - destruct (run_init data s) as [[f|e] s1] eqn:E.
    + exists f, s1. split; [done|].
      destruct (preserves_run_init (heap s) data s) as [Hsub Hout]; [done|].
      rewrite E in Hsub, Hout. simpl in *. destruct Hout as (Hr & _ & _).
      split; [done|]. split; [|by eapply lookup_weaken].
      unfold run_init in E.
      apply bind_ok_inv in E as (c & s2 & H1 & E).
      apply np_copy_inv in H1 as (a' & Ha' & Hc & ->).
      apply bind_ok_inv in E as (a2 & s3 & H2 & E). apply load_array_inv in H2 as [H2 ->].
      apply bind_ok_inv in E as (b & s4 & H3 & E). apply alloc_inv in H3 as [Hb ->].
      apply bind_ok_inv in E as (l & s5 & H4 & E). apply alloc_inv in H4 as [Hl ->].
      inv_run. simpl in *.
      assert (a' = a) as -> by congruence.
      assert (b ≠ c) by (intros ->; by rewrite lookup_insert_eq in Hb).
      assert (l ≠ c).
      { intros ->. by rewrite lookup_insert_ne, lookup_insert_eq in Hl. }
      rewrite 2!lookup_insert_ne by done. by rewrite lookup_insert_eq.
    + exfalso. unfold run_init, np_copy, alloc in E.
      rewrite !bind_run, (load_array_run _ _ _ Hd) in E. simpl in E.
      rewrite bind_run in E. unfold load_array in E. simpl in E.
      rewrite lookup_insert_eq in E. done.
  - destruct (preserves_run (heap s) self data s) as [Hsub _]; [done|].
    split; [|done]. by eapply lookup_weaken.
Qed.

(** ** The initial selection is a proper part of the rows *)

Lemma length_where_eq (labels : list nat) v :
  length (where_true (map (λ x, x =? v) labels))
  = length (filter (λ x, x = v) labels).
Proof.
  unfold where_true, arange. rewrite length_map. generalize 0.
  induction labels as [|x labels IH]; intros k; [done|].
  specialize (IH (S k)). rewrite filter_cons. simpl in *.
  destruct (Nat.eqb_spec x v) as [->|Hne].
  - rewrite decide_True by done. simpl. f_equal. exact IH.
  - rewrite decide_False by done. exact IH.
Qed.

Lemma bincount_two labels c0 c1 :
  bincount labels = [c0; c1] →
  c0 = length (filter (λ x, x = 0) labels)
  ∧ c1 = length (filter (λ x, x = 1) labels)
  ∧ 1 ∈ labels.
Proof.
  unfold bincount. destruct labels as [|x labels]; [done|].
  set (l := x :: labels). intros H.
  assert (max_list l = 1) as Hmax.
  { apply (f_equal length) in H. rewrite length_map, length_arange in H.
    simpl in H. unfold l. simpl. lia. }
  rewrite Hmax in H. simpl in H. injection H as <- <-.
  repeat split. rewrite <- Hmax. by apply max_list_elem_of.
Qed.

Lemma where_eq_proper_part labels c0 c1 :
  bincount labels = [c0; c1] →
  length (if c0 <=? c1 then where_true (map (λ x, x =? 0) labels)
          else where_true (map (λ x, x =? 1) labels)) < length labels.
Proof.
  intros H. apply bincount_two in H as (-> & -> & H1).
  destruct (_ <=? _) eqn:E; rewrite length_where_eq.
  - by apply (length_filter_lt _ _ 1).
  - apply Nat.leb_gt in E.
    destruct (filter (λ x, x = 0) labels) as [|z l] eqn:Ez; [simpl in E; lia|].
    assert (z ∈ filter (λ x, x = 0) labels) as Hz by (rewrite Ez; left).
    apply list_elem_of_filter in Hz as [-> Hz].
    by apply (length_filter_lt _ _ 0).
Qed.

(** The refinement loop of [_fit_layer] runs to its end without raising, and
    only shrinks the selection. *)
Lemma fit_layer_loop self l a s n rows cols layer :
  heap s !! l = Some (PyArray a) →
  wf layer → nrows layer = length rows → ncols layer = length cols →
  Forall (λ i, i < nrows a) rows → Forall (λ j, j < ncols a) cols →
  ∃ rows' cols' layer',
    for_range n (fit_layer_round self l) (rows, cols, layer) s
    = (Ok (rows', cols', layer'), s)
    ∧ rows' `sublist_of` rows ∧ cols' `sublist_of` cols ∧ wf layer'.
Proof.
  intros Hh. revert rows cols layer.
  induction n as [|n IH]; intros rows cols layer Hwf Hr Hc Hrows Hcols.
  - exists rows, cols, layer. by repeat split.
  - destruct (fit_layer_round_spec self l a s rows cols layer)
      as (_ & _ & c & layer' & Hrun & Hval & Hwf' & Hc'); [done..|].
    assert (∀ r, for_range (S n) (fit_layer_round self l) (rows, cols, layer) s = r ↔
              match c with
              | Continue st => for_range n (fit_layer_round self l) st s
              | Break st => (Ok st, s)
              end = r) as Hstep.
    { intros r. change (for_range (S n) (fit_layer_round self l) (rows, cols, layer) s)
        with ((fit_layer_round self l (rows, cols, layer) ≫= λ c,
                 match c with
                 | Continue a' => for_range n (fit_layer_round self l) a'
                 | Break a' => mret a'
                 end) s).
      rewrite bind_run, Hrun. by destruct c. }
    destruct Hc' as [->|(-> & Hr' & Hcc')].
    + eexists _, _, layer. split; [by apply Hstep|].
      repeat split; [apply select_sublist..|done].
    + destruct (IH _ _ layer' Hwf' Hr' Hcc') as (r2 & c2 & l2 & Hrun2 & Hs1 & Hs2 & Hw2).
      { by apply select_in_range. }
      { by apply select_in_range. }
      exists r2, c2, l2. split; [by apply Hstep|].
      repeat split; [| |done].
      * etrans; [exact Hs1|apply select_sublist].
      * etrans; [exact Hs2|apply select_sublist].
Qed.

Lemma kmeans_initialization_heap self a s r s1 :
  _kmeans_initialization self a s = (r, s1) → heap s1 = heap s.
Proof.
  unfold _kmeans_initialization, call_k_means. rewrite bind_run.
  destruct (k_means (rng s) a _) as [g [labels|e]]; [|by intros [= _ <-]].
  repeat case_match; by intros [= _ <-].
Qed.

(** ** The cluster chosen by the initialization *)

Lemma elem_of_where_true (mask : list bool) i :
  i ∈ where_true mask ↔ mask !! i = Some true.
Proof.
  unfold where_true. rewrite list_elem_of_omap. split.
  - intros ([p b] & Hin & Hb). simpl in Hb. apply elem_of_zip_arange in Hin.
    destruct b; by simplify_eq.
  - intros Hi. exists (i, true). split; [by apply elem_of_zip_arange|done].
Qed.

Lemma elem_of_where_eq (labels : list nat) v i :
  i ∈ where_true (map (λ x, x =? v) labels) ↔ labels !! i = Some v.
Proof.
  rewrite elem_of_where_true, list_lookup_fmap. split.
  - destruct (labels !! i) as [x|]; simpl; [|done].
    intros [= H]. apply Nat.eqb_eq in H. by subst.
  - intros ->. simpl. by rewrite Nat.eqb_refl.
Qed.

Lemma length_two_clusters (labels : list nat) :
  Forall (λ x, x ≤ 1) labels →
  length labels = length (filter (λ x, x = 0) labels) + length (filter (λ x, x = 1) labels).
Proof.
  induction 1 as [|x labels Hx _ IH]; [done|].
  rewrite !filter_cons. simpl.
  destruct (decide (x = 0)), (decide (x = 1)); simpl; lia.
Qed.

Lemma bincount_two_iff (labels : list nat) :
  (∃ c0 c1, bincount labels = [c0; c1]) ↔ max_list labels = 1.
Proof.
  unfold bincount. destruct labels as [|x labels]; [split; [by intros (? & ? & ?)|done]|].
  set (l := x :: labels). split.
  - intros (c0 & c1 & H). apply (f_equal length) in H.
    rewrite length_map, length_arange in H. simpl in H. unfold l. simpl. lia.
  - intros ->. simpl. eauto.
Qed.

(** What a successful initialization returns. *)
Lemma kmeans_initialization_ok_inv self a s rows s1 :
  _kmeans_initialization self a s = (Ok rows, s1) →
  ∃ labels v,
    k_means (rng s) a (initialization_iterations self) = (rng s1, Ok labels)
    ∧ heap s1 = heap s
    ∧ max_list labels = 1
    ∧ rows = where_true (map (λ x, x =? v) labels)
    ∧ (v = 0 ∧ length (filter (λ x, x = 0) labels) ≤ length (filter (λ x, x = 1) labels)
       ∨ v = 1 ∧ length (filter (λ x, x = 1) labels) < length (filter (λ x, x = 0) labels)).
Proof.
  unfold _kmeans_initialization, call_k_means. rewrite bind_run.
  destruct (k_means (rng s) a _) as [g [labels|e]] eqn:E; [|done].
  destruct (bincount labels) as [|c0 [|c1 [|]]] eqn:Eb; try done.
  assert (max_list labels = 1) as Hmax by (apply bincount_two_iff; eauto).
  apply bincount_two in Eb as (-> & -> & _).
  destruct (_ <=? _) eqn:Ele; intros [= <- <-]; simpl.
  - apply Nat.leb_le in Ele. exists labels, 0. eauto 10.
  - apply Nat.leb_gt in Ele. exists labels, 1. eauto 10.
Qed.

(** X7. The initialization returns the positions of the smaller of the two
    clusters found by [k_means], in increasing order; a tie goes to the
    cluster labelled 0; the store is left as it is. *)
Theorem kmeans_initialization_smaller_cluster self a s rows s1 :
  _kmeans_initialization self a s = (Ok rows, s1) →
  ∃ labels v,
    k_means (rng s) a (initialization_iterations self) = (rng s1, Ok labels)
    ∧ heap s1 = heap s
    ∧ (v = 0 ∨ v = 1)
    ∧ (∀ i, i ∈ rows ↔ labels !! i = Some v)
    ∧ rows `sublist_of` arange (length labels)
    ∧ 2 * length rows ≤ length labels
    ∧ (v = 1 → 2 * length rows < length labels).
Proof.
  intros H. apply kmeans_initialization_ok_inv in H
    as (labels & v & Hk & Hh & Hmax & -> & Hv).
  exists labels, v. split; [done|]. split; [done|].
  assert (length labels = length (filter (λ x, x = 0) labels)
                          + length (filter (λ x, x = 1) labels)) as Hlen.
  { apply length_two_clusters, Forall_forall. intros x Hx.
    rewrite <- Hmax. by apply max_list_elem_of_le. }
  split; [destruct Hv as [[-> _]|[-> _]]; eauto|].
  split; [intros i; apply elem_of_where_eq|].
  split.
  { pose proof (where_true_sublist (map (λ x, x =? v) labels)) as Hsub.
    by rewrite length_map in Hsub. }
  rewrite length_where_eq.
  destruct Hv as [[-> Hle]|[-> Hlt]]; (split; [lia|intros; (done || lia)]).
Qed.

(** X8. The unpacking of the two counts: the initialization succeeds when
    the largest label returned by [k_means] is 1, and raises [ValueError]
    otherwise (no label at all, every sample in cluster 0, or a label above
    1); either way the store is left as it is. *)
Theorem kmeans_initialization_unpacks_two_counts self a s g labels :
  k_means (rng s) a (initialization_iterations self) = (g, Ok labels) →
  (max_list labels = 1 →
     ∃ rows, _kmeans_initialization self a s = (Ok rows, mk_state (heap s) g))
  ∧ (max_list labels ≠ 1 →
     ∃ msg, _kmeans_initialization self a s
            = (Raise (ValueError msg), mk_state (heap s) g)).
Proof.
  intros Hk. unfold _kmeans_initialization, call_k_means. rewrite bind_run, Hk.
  split.
  - intros Hmax. apply bincount_two_iff in Hmax as (c0 & c1 & ->).
    destruct (c0 <=? c1); eauto.
  - intros Hmax.
    destruct (bincount labels) as [|c0 [|c1 [|]]] eqn:Eb; try (by eexists).
    exfalso. apply Hmax, bincount_two_iff. eauto.
Qed.

(** ** What [_fit_layer] returns *)

Lemma for_range_acc_inv {A} (I J : A → state → Prop) n (body : A → M (ctrl A)) a s r s1 :
  (∀ a s c s1, I a s → body a s = (Ok c, s1) →
     match c with Continue a' => I a' s1 | Break a' => J a' s1 end) →
  I a s → for_range n body a s = (Ok r, s1) → I r s1 ∨ J r s1.
Proof.
  intros Hb. revert a s. induction n as [|n IH]; intros a s Ha H; simpl in H.
  - apply ret_ok_inv in H as [-> ->]. by left.
  - apply bind_ok_inv in H as (c & s0 & Hc & H).
    specialize (Hb _ _ _ _ Ha Hc). destruct c as [a'|a'].
    + exact (IH _ _ Hb H).
    + apply ret_ok_inv in H as [-> ->]. by right.
Qed.

(** A round leaves the store as it is; when it continues, the layer is the
    one fitted on the new selection; when it leaves the loop, the new
    selection is empty. *)
Lemma fit_layer_round_inv self l a s st c s1 :
  heap s !! l = Some (PyArray a) →
  fit_layer_round self l st s = (Ok c, s1) →
  s1 = s ∧ match c with
           | Continue st' => fitted a st'
           | Break (rows', cols', _) => rows' = [] ∨ cols' = []
           end.
Proof.
  destruct st as [[rows cols] layer]. intros Hh H. unfold fit_layer_round in H.
  apply bind_ok_inv in H as (a1 & s2 & H1 & H). apply load_array_inv in H1 as [Ha1 ->].
  apply bind_ok_inv in H as (rows' & s3 & H2 & H). apply lift_ok_inv in H2 as [_ ->].
  apply bind_ok_inv in H as (a2 & s4 & H3 & H). apply load_array_inv in H3 as [Ha2 ->].
  apply bind_ok_inv in H as (cols' & s5 & H4 & H). apply lift_ok_inv in H4 as [_ ->].
  destruct ((length rows' =? 0) || (length cols' =? 0)) eqn:E.
  - apply ret_ok_inv in H as [-> ->]. split; [done|].
    apply orb_true_iff in E as [E|E]; apply Nat.eqb_eq, nil_length_inv in E; eauto.
  - apply bind_ok_inv in H as (a3 & s6 & H5 & H). apply load_array_inv in H5 as [Ha3 ->].
    apply bind_ok_inv in H as (sub & s7 & H6 & H). apply lift_ok_inv in H6 as [Hsub ->].
    apply ret_ok_inv in H as [-> ->]. split; [done|].
    assert (a3 = a) as -> by congruence. by exists sub.
Qed.

Lemma sublist_arange_bound (l : list nat) m n :
  l `sublist_of` arange m → Forall (λ i, i < n) l → l `sublist_of` arange n.
Proof.
  unfold arange. revert l. induction m as [|m IH]; intros l Hsub Hall.
  - apply sublist_nil_r in Hsub as ->. apply sublist_nil_l.
  - destruct (decide (S m ≤ n)) as [Hle|Hgt].
    + etrans; [exact Hsub|].
      replace n with (S m + (n - S m)) by lia. rewrite seq_app.
      by apply sublist_inserts_r.
    + rewrite seq_S in Hsub. simpl in Hsub.
      apply sublist_app_r in Hsub as (k1 & k2 & -> & Hk1 & Hk2).
      apply Forall_app in Hall as [Hall1 Hall2].
      assert (k2 = []) as ->.
      { destruct k2 as [|x k2]; [done|]. exfalso.
        assert (x ∈ [m]) as Hx by (eapply elem_of_sublist; [left|done]).
        apply list_elem_of_singleton in Hx as ->.
        apply Forall_cons in Hall2 as [Hm _]. lia. }
      rewrite app_nil_r. by apply IH.
Qed.

Lemma sublist_arange_inv (l : list nat) n :
  l `sublist_of` arange n → Forall (λ i, i < n) l ∧ NoDup l.
Proof.
  intros Hsub. split.
  - apply Forall_forall. intros i Hi. apply elem_of_arange.
    by eapply elem_of_sublist.
  - eapply sublist_NoDup; [|exact Hsub]. apply NoDup_seq.
Qed.

Lemma kmeans_initialization_sorted self a s rows s1 :
  _kmeans_initialization self a s = (Ok rows, s1) →
  ∃ m, rows `sublist_of` arange m.
Proof.
  intros H. apply kmeans_initialization_ok_inv in H as (labels & v & _ & _ & _ & -> & _).
  eexists. apply where_true_sublist.
Qed.

(** A successful call of [_fit_layer], taken apart. *)
Lemma fit_layer_outcome self l a s rows cols layer s1 :
  heap s !! l = Some (PyArray a) →
  _fit_layer self l s = (Ok (rows, cols, layer), s1) →
  heap s1 = heap s
  ∧ (∃ rows0 cols0,
       _generate_initial_bicluster self l s = (Ok (rows0, cols0), s1)
       ∧ rows `sublist_of` rows0 ∧ cols `sublist_of` cols0)
  ∧ rows `sublist_of` arange (nrows a) ∧ cols `sublist_of` arange (ncols a)
  ∧ wf layer
  ∧ (rows = [] ∨ cols = [] ∨ fitted a (rows, cols, layer)).
Proof.
  intros Hh H. unfold _fit_layer in H.
  apply bind_ok_inv in H as ([rows0 cols0] & s2 & Hgen & H).
  pose proof Hgen as Hgen'. unfold _generate_initial_bicluster in Hgen'.
  apply bind_ok_inv in Hgen' as (a1 & s3 & H1 & H2).
  apply load_array_inv in H1 as [Ha1 ->].
  apply bind_ok_inv in H2 as (r0 & s4 & H2 & H3).
  pose proof (kmeans_initialization_heap _ _ _ _ _ H2) as Hh4.
  apply kmeans_initialization_sorted in H2 as [m1 Hs1].
  apply bind_ok_inv in H3 as (a2 & s5 & H3 & H4).
  apply load_array_inv in H3 as [Ha2 ->].
  apply bind_ok_inv in H4 as (c0 & s6 & H4 & H5).
  pose proof (kmeans_initialization_heap _ _ _ _ _ H4) as Hh6.
  apply kmeans_initialization_sorted in H4 as [m2 Hs2].
  apply ret_ok_inv in H5 as [[= -> ->] ->].
  apply bind_ok_inv in H as (a3 & s7 & H6 & H). apply load_array_inv in H6 as [Ha3 ->].
  apply bind_ok_inv in H as (g & s8 & H7 & H). apply lift_ok_inv in H7 as [Hg ->].
  assert (heap s6 = heap s) as Hh2 by congruence.
  assert (a3 = a) as -> by congruence.
  destruct (take_grid_inv _ _ _ _ Hg) as [Hrows Hcols].
  destruct (take_grid_shape _ _ _ _ Hg) as (Hgr & Hgc & _).
  destruct (create_layer_shape g) as (Hlr & Hlc & Hlw).
  destruct (fit_layer_loop self l a s6 (Z.to_nat (iterations_per_layer self))
              r0 c0 (_create_layer g))
    as (r' & c' & l' & Hrun & Hsub1 & Hsub2 & Hw'); [done|done|congruence|congruence|done|done|].
  pose proof H as Hloop. rewrite Hrun in H. injection H as -> -> -> ->.
  split; [done|]. split; [by exists r0, c0|].
  split.
  { apply (sublist_arange_bound _ m1); [by etrans|].
    rewrite Forall_forall in Hrows |- *. intros i Hi. apply Hrows.
    by eapply elem_of_sublist. }
  split.
  { apply (sublist_arange_bound _ m2); [by etrans|].
    rewrite Forall_forall in Hcols |- *. intros i Hi. apply Hcols.
    by eapply elem_of_sublist. }
  split; [done|].
  assert (heap s1 !! l = Some (PyArray a) ∧ fitted a (rows, cols, layer)
          ∨ (rows, cols, layer).1.1 = [] ∨ (rows, cols, layer).1.2 = []) as Hend.
  { refine (for_range_acc_inv
              (λ st s, heap s !! l = Some (PyArray a) ∧ fitted a st)
              (λ st _, st.1.1 = [] ∨ st.1.2 = []) _ _ _ _ _ _ _ _ Hloop).
    - intros st s' c s'' [HI1 _] Hb.
      destruct (fit_layer_round_inv _ _ _ _ _ _ _ HI1 Hb) as [-> Hc].
      destruct c as [st'|[[? ?] ?]]; [by split|exact Hc].
    - split; [exact Ha3|]. exists g. by split. }
  simpl in Hend. destruct Hend as [[_ Hf]|[Hf|Hf]]; eauto.
Qed.

(** X9. A successful call of [_fit_layer] leaves the store as it is and
    returns a selection within the initial one: rows and columns are
    subsequences of the rows and columns chosen by the initialization, hence
    increasing sequences of distinct indices of the matrix. *)
Theorem fit_layer_refines_initial_selection self l a s rows cols layer s1 :
  heap s !! l = Some (PyArray a) →
  _fit_layer self l s = (Ok (rows, cols, layer), s1) →
  heap s1 = heap s
  ∧ (∃ rows0 cols0,
       _generate_initial_bicluster self l s = (Ok (rows0, cols0), s1)
       ∧ rows `sublist_of` rows0 ∧ cols `sublist_of` cols0)
  ∧ rows `sublist_of` arange (nrows a) ∧ cols `sublist_of` arange (ncols a).
Proof.
  intros Hh H.
  destruct (fit_layer_outcome _ _ _ _ _ _ _ _ Hh H) as (H1 & H2 & H3 & H4 & _).
  done.
Qed.

(** X10. Whenever [_fit_layer] returns a selection with at least one row and
    one column, the layer returned is the one fitted on that selection of
    the matrix, and has its shape.  (When pruning has emptied the selection,
    the layer returned is the one of the round before.) *)
Theorem fit_layer_returns_fitted_layer self l a s rows cols layer s1 :
  heap s !! l = Some (PyArray a) →
  _fit_layer self l s = (Ok (rows, cols, layer), s1) →
  rows ≠ [] → cols ≠ [] →
  ∃ g, take_grid a rows cols = Ok g
    ∧ layer = _create_layer g
    ∧ nrows layer = length rows ∧ ncols layer = length cols ∧ wf layer.
Proof.
  intros Hh H Hr Hc.
  destruct (fit_layer_outcome _ _ _ _ _ _ _ _ Hh H) as (_ & _ & _ & _ & _ & [?|[?|Hf]]);
    [done..|].
  destruct Hf as (g & Hg & ->). exists g.
  destruct (take_grid_shape _ _ _ _ Hg) as (Hgr & Hgc & _).
  destruct (create_layer_shape g) as (Hlr & Hlc & Hlw).
  repeat split; (done || congruence).
Qed.

Section Contract.

(** [k_means] labels every sample: it returns one label per row of the data
    it is given. *)
Hypothesis k_means_labels : ∀ g a n g' labels,
  k_means g a n = (g', Ok labels) → length labels = nrows a.

Lemma kmeans_initialization_proper_part self a s rows s1 :
  _kmeans_initialization self a s = (Ok rows, s1) → length rows < nrows a.
Proof.
  unfold _kmeans_initialization, call_k_means. rewrite bind_run.
  destruct (k_means (rng s) a _) as [g [labels|e]] eqn:E; [|done].
  apply k_means_labels in E. rewrite <- E.
  destruct (bincount labels) as [|c0 [|c1 [|]]] eqn:Eb; try done.
  pose proof (where_eq_proper_part labels c0 c1 Eb) as Hlt.
  destruct (c0 <=? c1); by intros [= <- _].
Qed.

Lemma fit_layer_ok_inv self l a s rows cols layer s1 :
  heap s !! l = Some (PyArray a) →
  _fit_layer self l s = (Ok (rows, cols, layer), s1) →
  heap s1 = heap s ∧ length rows < nrows a ∧ wf layer.
Proof.
  intros Hh H. unfold _fit_layer, _generate_initial_bicluster in H.
  apply bind_ok_inv in H as ([rows0 cols0] & s2 & H1 & H).
  apply bind_ok_inv in H1 as (a1 & s3 & H1 & H2).
  apply load_array_inv in H1 as [Ha1 ->].
  apply bind_ok_inv in H2 as (r0 & s4 & H2 & H3).
  pose proof (kmeans_initialization_heap _ _ _ _ _ H2) as Hh4.
  apply kmeans_initialization_proper_part in H2.
  apply bind_ok_inv in H3 as (a2 & s5 & H3 & H4).
  apply load_array_inv in H3 as [Ha2 ->].
  apply bind_ok_inv in H4 as (c0 & s6 & H4 & H5).
  pose proof (kmeans_initialization_heap _ _ _ _ _ H4) as Hh6.
  inv_run. injection H3 as -> ->.
  assert (a1 = a) as -> by congruence.
  match goal with Hx : heap s6 !! l = Some (PyArray ?x) |- _ =>
    assert (x = a) as -> by congruence end.
  match goal with Hg : take_grid a r0 c0 = Ok ?g |- _ =>
    destruct (take_grid_inv _ _ _ _ Hg) as [Hrows Hcols];
    destruct (take_grid_shape _ _ _ _ Hg) as (Hgr & Hgc & _);
    destruct (create_layer_shape g) as (Hlr & Hlc & Hlw);
    destruct (fit_layer_loop self l a s6 (Z.to_nat (iterations_per_layer self))
                r0 c0 (_create_layer g))
      as (r' & c' & l' & Hrun & Hs1 & _ & Hw');
      [done|done|congruence|congruence|done|done|]
  end.
  rewrite Hrun in H. injection H as -> -> -> ->.
  repeat split; [congruence| |done].
  apply sublist_length in Hs1. lia.
Qed.

(** The initial selection lies within the matrix. *)
Lemma kmeans_initialization_in_range self a s rows s1 :
  _kmeans_initialization self a s = (Ok rows, s1) →
  Forall (λ i, i < nrows a) rows.
Proof.
  intros H. apply kmeans_initialization_ok_inv in H as (labels & v & Hk & _ & _ & -> & _).
  apply k_means_labels in Hk. rewrite <- Hk.
  pose proof (where_true_sublist (map (λ x, x =? v) labels)) as Hsub.
  rewrite length_map in Hsub. by apply sublist_arange_inv in Hsub as [? _].
Qed.

(** X11. [_fit_layer] raises only where the initialization does: once the
    two k-means runs have given an initial selection, the fit of the layer
    and the pruning rounds run to their end. *)
Theorem fit_layer_raises_with_initialization self l a s e s1 :
  heap s !! l = Some (PyArray a) →
  _fit_layer self l s = (Raise e, s1) →
  _generate_initial_bicluster self l s = (Raise e, s1).
Proof.
  intros Hh H. unfold _fit_layer in H. rewrite bind_run in H.
  destruct (_generate_initial_bicluster self l s) as [[[rows0 cols0]|e'] s2] eqn:E;
    [exfalso|by injection H as -> ->].
  unfold _generate_initial_bicluster in E.
  apply bind_ok_inv in E as (a1 & s3 & H1 & H2).
  apply load_array_inv in H1 as [Ha1 ->].
  apply bind_ok_inv in H2 as (r0 & s4 & H2 & H3).
  pose proof (kmeans_initialization_heap _ _ _ _ _ H2) as Hh4.
  apply kmeans_initialization_in_range in H2.
  apply bind_ok_inv in H3 as (a2 & s5 & H3 & H4).
  apply load_array_inv in H3 as [Ha2 ->].
  apply bind_ok_inv in H4 as (c0 & s6 & H4 & H5).
  pose proof (kmeans_initialization_heap _ _ _ _ _ H4) as Hh6.
  apply kmeans_initialization_in_range in H4.
  apply ret_ok_inv in H5 as [[= -> ->] ->].
  assert (a1 = a) as -> by congruence.
  assert (a2 = a) as -> by congruence.
  destruct (transpose_shape a) as (Htr & _ & _). rewrite Htr in H4.
  assert (heap s6 !! l = Some (PyArray a)) as Hh' by congruence.
  rewrite bind_run, (load_array_run _ _ _ Hh') in H.
  destruct (take_grid_ok a r0 c0 H2 H4) as [g Hg].
  rewrite bind_run in H. unfold lift at 1 in H. rewrite Hg in H.
  destruct (take_grid_shape _ _ _ _ Hg) as (Hgr & Hgc & _).
  destruct (create_layer_shape g) as (Hlr & Hlc & Hlw).
  destruct (fit_layer_loop self l a s6 (Z.to_nat (iterations_per_layer self))
              r0 c0 (_create_layer g))
    as (r' & c' & l' & Hrun & _); [done|done|congruence|congruence|done|done|].
  by rewrite Hrun in H.
Qed.

(** ** The state of [run] when a background layer is fitted *)

Lemma with_background_mono f found s s1 :
  with_background f found s → heap s ⊆ heap s1 → with_background f found s1.
Proof.
  intros (r & l0 & L0 & ls' & H1 & H2 & H3 & H4 & H5 & H6 & H) Hsub.
  exists r, l0, L0, ls'. repeat split; try (by eapply lookup_weaken); tauto.
Qed.

Lemma with_background_store_residual f found s r' g :
  with_background f found s →
  nrows r' = f_num_rows f → ncols r' = f_num_cols f →
  with_background f found (mk_state (<[f_residuals f := PyArray r']> (heap s)) g).
Proof.
  intros (r & l0 & L0 & ls' & H1 & H2 & H3 & H4 & H5 & H6 & H7 & H8 & H9 & Ha & Hb) Hr Hc.
  assert (f_residuals f ≠ f_layers f) by congruence.
  assert (f_residuals f ≠ f_biclusters f) by congruence.
  exists r', l0, L0, ls'. simpl. rewrite lookup_insert_eq.
  rewrite !lookup_insert_ne by done. by repeat split.
Qed.

Lemma with_background_grid_iop f found op rows cols v u s s1 :
  with_background f found s →
  grid_iop op (f_residuals f) rows cols v s = (Ok u, s1) →
  with_background f found s1.
Proof.
  intros Hw H. apply grid_iop_inv in H as (a & sub & new & Hl & _ & _ & ->).
  assert (nrows a = f_num_rows f ∧ ncols a = f_num_cols f) as [Hr Hc].
  { destruct Hw as (r & l0 & L0 & ls' & H1 & H2 & H3 & _). split; congruence. }
  by apply with_background_store_residual.
Qed.

Lemma with_background_back_fit_pair f found j b u s s1 :
  (full_bicluster (f_num_rows f) (f_num_cols f) :: found) !! j = Some b →
  with_background f found s →
  back_fit_pair (f_residuals f) (f_layers f) (j, b) s = (Ok u, s1) →
  with_background f found s1.
Proof.
  intros Hjb Hw H. unfold back_fit_pair in H.
  apply bind_ok_inv in H as (lj & s2 & H1 & H).
  apply layers_getitem_inv in H1 as (? & ? & _ & _ & _ & ->).
  apply bind_ok_inv in H as (? & s3 & H2 & H).
  apply (with_background_grid_iop f found) in H2; [|done].
  apply bind_ok_inv in H as (a & s4 & H3 & H). apply load_array_inv in H3 as [Ha ->].
  apply bind_ok_inv in H as (sub & s5 & H4 & H). apply lift_ok_inv in H4 as [Hsub ->].
  apply bind_ok_inv in H as (new & s6 & H5 & H). apply alloc_inv in H5 as [Hnew ->].
  apply bind_ok_inv in H as (? & s7 & H6 & H).
  apply layers_setitem_inv in H6 as (ls & Hls & Hj & ->).
  apply bind_ok_inv in H as (lj' & s8 & H7 & H).
  apply layers_getitem_inv in H7 as (? & ? & _ & _ & _ & ->).
  eapply with_background_grid_iop; [|exact H].
  destruct H2 as (r & l0 & L0 & ls' & G1 & G2 & G3 & G4 & G5 & G6 & G7 & G8 & G9 & G10 & G11).
  simpl in *.
  assert (new ≠ f_residuals f) by congruence.
  assert (new ≠ f_layers f) by congruence.
  assert (new ≠ f_biclusters f) by congruence.
  assert (new ≠ l0) by congruence.
  assert (f_layers f ≠ f_residuals f) by congruence.
  assert (f_layers f ≠ f_biclusters f) by congruence.
  assert (f_layers f ≠ l0) by congruence.
  rewrite lookup_insert_ne in Hls by done. rewrite G4 in Hls. injection Hls as <-.
  destruct (take_grid_shape _ _ _ _ Hsub) as (Hsr & Hsc & _).
  destruct (create_layer_shape sub) as (Hlr & Hlc & _).
  destruct j as [|j]; simpl in *.
  - injection Hjb as <-. simpl in *. rewrite !length_arange in *.
    exists r, new, (_create_layer sub), ls'. simpl.
    rewrite lookup_insert_eq. rewrite !lookup_insert_ne by done.
    rewrite lookup_insert_eq.
    repeat split; (done || congruence).
  - exists r, l0, L0, (<[j := new]> ls'). simpl.
    rewrite lookup_insert_eq. rewrite !lookup_insert_ne by done.
    rewrite length_insert. by repeat split.
Qed.

Lemma with_background_back_fitting self f found u s s1 :
  with_background f found s →
  _back_fitting self (f_residuals f) (f_layers f) (f_biclusters f) s = (Ok u, s1) →
  with_background f found s1.
Proof.
  intros Hw H. unfold _back_fitting in H.
  eapply (for_range_ok_inv (with_background f found)); [|exact Hw|exact H].
  clear. intros [] s c s1 Hw H.
  apply bind_ok_inv in H as (ls & s2 & H1 & H). apply load_layers_inv in H1 as [Hls ->].
  apply bind_ok_inv in H as (bs & s3 & H2 & H). apply load_biclusters_inv in H2 as [Hbs ->].
  apply bind_ok_inv in H as (? & s4 & H3 & H). inv_run.
  assert (bs = full_bicluster (f_num_rows f) (f_num_cols f) :: found) as ->.
  { destruct Hw as (r & l0 & L0 & ls' & _ & _ & _ & _ & G5 & _). congruence. }
  eapply (for_each_ok_inv (with_background f found)); [|exact Hw|exact H3].
  intros [j b] s' u' s1' Hin. apply with_background_back_fit_pair.
  apply list_elem_of_lookup in Hin as [n Hn].
  apply lookup_zip_Some in Hn as [Hn1 Hn2].
  apply lookup_seq in Hn1 as [-> _]. done.
Qed.

Lemma initialized_run_init data a f s s1 :
  heap s !! data = Some (PyArray a) →
  run_init data s = (Ok f, s1) → initialized f a s1.
Proof.
  intros Hd H. unfold run_init in H.
  apply bind_ok_inv in H as (c & s2 & H1 & H).
  apply np_copy_inv in H1 as (a' & Ha' & Hc & ->).
  apply bind_ok_inv in H as (a2 & s3 & H2 & H). apply load_array_inv in H2 as [H2 ->].
  apply bind_ok_inv in H as (b & s4 & H3 & H). apply alloc_inv in H3 as [Hb ->].
  apply bind_ok_inv in H as (l & s5 & H4 & H). apply alloc_inv in H4 as [Hl ->].
  inv_run. simpl in *. rewrite lookup_insert_eq in H2.
  assert (a' = a) as -> by congruence. assert (a2 = a) as -> by congruence.
  assert (b ≠ c) by (intros ->; by rewrite lookup_insert_eq in Hb).
  assert (l ≠ b) by (intros ->; by rewrite lookup_insert_eq in Hl).
  assert (l ≠ c).
  { intros ->. by rewrite lookup_insert_ne, lookup_insert_eq in Hl. }
  unfold initialized. simpl.
  rewrite lookup_insert_eq, (lookup_insert_ne _ l b), lookup_insert_eq by done.
  rewrite 2!lookup_insert_ne by done. by rewrite lookup_insert_eq.
Qed.

Lemma with_background_run_background self f a u s s1 :
  fit_background_layer self = true →
  initialized f a s → run_background self f s = (Ok u, s1) →
  with_background f [] s1.
Proof.
  intros Hbg (I1 & I2 & I3 & I4 & I5) H. unfold run_background in H. rewrite Hbg in H.
  apply bind_ok_inv in H as (a1 & s2 & H1 & H). apply load_array_inv in H1 as [Hres ->].
  assert (a1 = a) as -> by congruence.
  apply bind_ok_inv in H as (bl & s3 & H2 & H). apply alloc_inv in H2 as [Hbl ->].
  apply bind_ok_inv in H as (? & s4 & H3 & H).
  apply layers_append_inv in H3 as (ls' & Hls' & ->).
  apply bind_ok_inv in H as (? & s5 & H4 & H).
  apply isub_inv in H4 as (a' & a'' & Hres' & Hsub & ->).
  apply biclusters_append_inv in H as (bs' & Hbs' & ->). simpl in *.
  assert (bl ≠ f_layers f) by congruence.
  assert (bl ≠ f_biclusters f) by congruence.
  assert (bl ≠ f_residuals f) by congruence.
  assert (f_layers f ≠ f_biclusters f) by congruence.
  assert (f_residuals f ≠ f_layers f) by congruence.
  assert (f_residuals f ≠ f_biclusters f) by congruence.
  simplify_map_eq.
  destruct (create_layer_shape a') as (Hlr & Hlc & _).
  unfold elementwise in Hsub. destruct (same_shape _ _); [|done].
  injection Hsub as <-.
  exists (mk_ndarray (nrows a') (ncols a')
            (zip_with fsub (cells a') (cells (_create_layer a')))),
         bl, (_create_layer a'), []. simpl.
  simplify_map_eq. rewrite I2, I3. by repeat split.
Qed.

Lemma with_background_run_discover self f found u c s s1 :
  with_background f found s → run_discover self f u s = (Ok c, s1) →
  ∃ found', with_background f found' s1.
Proof.
  intros Hw H. unfold run_discover in H.
  apply bind_ok_inv in H as ([[rows cols] layer] & s2 & H1 & H).
  assert (length rows < f_num_rows f ∧ heap s2 = heap s) as [Hlt Hh2].
  { destruct Hw as (r & ? & ? & ? & G1 & G2 & _).
    destruct (fit_layer_ok_inv _ _ _ _ _ _ _ _ G1 H1) as (? & ? & _).
    split; [lia|done]. }
  assert (with_background f found s2) as Hw2.
  { eapply with_background_mono; [done|]. by rewrite Hh2. }
  destruct ((length rows =? 0) || (length cols =? 0)); [inv_run; eauto|].
  apply bind_ok_inv in H as (sig & s3 & H2 & H).
  assert (with_background f found s3) as Hw3.
  { eapply with_background_mono; [done|].
    pose proof (preserves_extends (_is_significant self (f_residuals f) layer) s2) as Hext.
    rewrite H2 in Hext. apply Hext. intros o0. apply preserves_is_significant. }
  destruct (negb sig); [inv_run; eauto|].
  apply bind_ok_inv in H as (? & s4 & H3 & H).
  apply (with_background_grid_iop f found) in H3; [|done].
  apply bind_ok_inv in H as (l & s5 & H4 & H). apply alloc_inv in H4 as [Hl ->].
  apply bind_ok_inv in H as (? & s6 & H5 & H).
  apply layers_append_inv in H5 as (ls' & Hls' & ->).
  apply bind_ok_inv in H as (? & s7 & H6 & H).
  apply biclusters_append_inv in H6 as (bs' & Hbs' & ->).
  apply bind_ok_inv in H as (? & s8 & H7 & H). inv_run.
  exists (found ++ [mk_Bicluster rows cols]).
  eapply with_background_back_fitting; [|exact H7].
  destruct H3 as (r & l0 & L0 & ls0 & G1 & G2 & G3 & G4 & G5 & G6 & G7 & G8 & G9 & G10 & G11).
  simpl in *.
  assert (l ≠ f_residuals f) by congruence.
  assert (l ≠ f_layers f) by congruence.
  assert (l ≠ f_biclusters f) by congruence.
  assert (l ≠ l0) by congruence.
  assert (f_layers f ≠ f_residuals f) by congruence.
  assert (f_layers f ≠ f_biclusters f) by congruence.
  assert (f_biclusters f ≠ f_residuals f) by congruence.
  assert (f_layers f ≠ l0) by congruence.
  assert (f_biclusters f ≠ l0) by congruence.
  simplify_map_eq.
  exists r, l0, L0, (ls0 ++ [l]). simpl. simplify_map_eq.
  rewrite !length_app. simpl.
  repeat split; try done; [lia|].
  apply Forall_app. split; [done|]. by apply Forall_singleton.
Qed.

Lemma small_not_full (b : Bicluster) num_rows num_cols :
  length (b_rows b) < num_rows → b ≠ full_bicluster num_rows num_cols.
Proof. intros Hlt ->. simpl in Hlt. rewrite length_arange in Hlt. lia. Qed.

(** C3. With background fitting enabled: in biclusters-only mode the
    biclustering returned holds no full-matrix entry (the background entry
    has been dropped, and no discovered bicluster spans all rows); in layers
    mode the biclustering and the list of layers returned start with the
    background entry and end with the residual entry, both spanning all rows
    and all columns. *)
Theorem trimming_correctness self data s a r s1 :
  heap s !! data = Some (PyArray a) →
  fit_background_layer self = true →
  run self data s = (Ok r, s1) →
  let full := full_bicluster (nrows a) (ncols a) in
  if return_layers self then
    ∃ B layers found mid l0 L0 res Rm,
      r = WithLayers B layers
      ∧ heap s1 !! biclusters B = Some (PyBiclusters (full :: found ++ [full]))
      ∧ heap s1 !! layers = Some (PyLayers (l0 :: mid ++ [res]))
      ∧ length mid = length found
      ∧ heap s1 !! l0 = Some (PyArray L0) ∧ nrows L0 = nrows a ∧ ncols L0 = ncols a
      ∧ heap s1 !! res = Some (PyArray Rm) ∧ nrows Rm = nrows a ∧ ncols Rm = ncols a
  else
    ∃ B found,
      r = OnlyBiclustering B
      ∧ heap s1 !! biclusters B = Some (PyBiclusters found)
      ∧ ∀ b, b ∈ found → b ≠ full.
Proof.
  intros Hd Hbg H full. unfold run in H.
  apply bind_ok_inv in H as (? & s2 & H1 & H). apply lift_ok_inv in H1 as [_ ->].
  apply bind_ok_inv in H as (f & s3 & H2 & H).
  apply (initialized_run_init _ a) in H2; [|done].
  apply bind_ok_inv in H as (? & s4 & H3 & H).
  pose proof H2 as (_ & Hnr & Hnc & _).
  apply (with_background_run_background _ _ a) in H3; [|done..].
  apply bind_ok_inv in H as (? & s5 & H4 & H).
  assert (∃ found, with_background f found s5) as [found Hw].
  { eapply (for_range_ok_inv (λ s, ∃ found, with_background f found s));
      [|by exists []|exact H4].
    intros u s' c s1' [found Hw]. by apply (with_background_run_discover self f found). }
  destruct Hw as (rm & l0 & L0 & ls' & G1 & G2 & G3 & G4 & G5 & G6 & G7 & G8 & G9 & G10 & G11).
  assert (f_layers f ≠ f_residuals f) by congruence.
  assert (f_layers f ≠ f_biclusters f) by congruence.
  assert (f_biclusters f ≠ f_residuals f) by congruence.
  assert (f_layers f ≠ l0) by congruence.
  assert (f_biclusters f ≠ l0) by congruence.
  unfold run_finalize in H. rewrite Hbg in H. unfold full. rewrite <- Hnr, <- Hnc.
  destruct (return_layers self).
  - apply bind_ok_inv in H as (? & s6 & F5 & H).
    apply layers_append_inv in F5 as (ls & Hls & ->).
    apply bind_ok_inv in H as (? & s7 & F6 & H).
    apply biclusters_append_inv in F6 as (bs & Hbs & ->).
    apply ret_ok_inv in H as [-> ->]. simpl in *.
    rewrite G4 in Hls. injection Hls as <-.
    rewrite lookup_insert_ne, G5 in Hbs by done. injection Hbs as <-.
    exists (mk_Biclustering (f_biclusters f)), (f_layers f), found, ls', l0, L0,
           (f_residuals f), rm.
    simpl. rewrite lookup_insert_eq.
    rewrite (lookup_insert_ne _ (f_biclusters f) (f_layers f)) by done.
    rewrite lookup_insert_eq.
    rewrite !(lookup_insert_ne _ _ l0) by done.
    rewrite !(lookup_insert_ne _ _ (f_residuals f)) by done.
    by repeat split.
  - apply bind_ok_inv in H as (? & s6 & F5 & H).
    apply ret_ok_inv in H as [-> ->].
    apply bind_ok_inv in F5 as (? & s7 & F5 & F6).
    apply biclusters_pop0_inv in F5 as (b & bs & Hbs & ->).
    apply layers_pop0_inv in F6 as (l & ls & Hls & ->).
    rewrite G5 in Hbs. injection Hbs as <- <-. simpl in *.
    exists (mk_Biclustering (f_biclusters f)), found. simpl.
    rewrite lookup_insert_ne, lookup_insert_eq by done. split; [done|]. split; [done|].
    intros b Hb. apply small_not_full.
    rewrite Forall_forall in G11. by apply G11.
Qed.

End Contract.

(** ** The significance test, trial by trial *)

Lemma elementwise_self op (a : ndarray) :
  elementwise op a a = Ok (mk_ndarray (nrows a) (ncols a) (zip_with op (cells a) (cells a))).
Proof. by apply elementwise_ok. Qed.

Lemma significance_trial_of_trial self c score acc s x t s1 :
  trial self c s x t s1 →
  significance_trial self c score acc s
  = (Ok (if fle score t then Break (Some false) else Continue None), s1).
Proof.
  intros (s_sh & rows & cols & tl & sq & H1 & _ & H2 & H3 & ->).
  unfold significance_trial. rewrite bind_run, H1, bind_run, H2, bind_run.
  unfold lift at 1. rewrite H3. by destruct (fle _ _).
Qed.

Lemma random_shuffle_flat_inv c u s s1 :
  random_shuffle_flat c s = (Ok u, s1) →
  ∃ y, heap s !! c = Some (PyArray y)
    ∧ heap s1 !! c
      = Some (PyArray (mk_ndarray (nrows y) (ncols y) (shuffle (rng s) (cells y)).2)).
Proof.
  unfold random_shuffle_flat. intros H.
  apply bind_ok_inv in H as (y & s2 & H1 & H). apply load_array_inv in H1 as [Hy ->].
  apply bind_ok_inv in H as (buf & s3 & H2 & H).
  unfold call_shuffle in H2. destruct (shuffle (rng s) (cells y)) as [g buf'] eqn:E.
  injection H2 as <- <-. apply store_inv in H as ->. simpl.
  exists y. split; [done|]. by rewrite lookup_insert_eq, E.
Qed.

Lemma trial_of_significance_trial self c score acc s r s1 :
  significance_trial self c score acc s = (Ok r, s1) →
  ∃ x t, trial self c s x t s1
    ∧ r = (if fle score t then Break (Some false) else Continue None).
Proof.
  unfold significance_trial. intros H.
  apply bind_ok_inv in H as ([] & s2 & H1 & H).
  destruct (random_shuffle_flat_inv _ _ _ _ H1) as (y & Hy & Hx).
  apply bind_ok_inv in H as ([[rows cols] tl] & s3 & H2 & H).
  apply bind_ok_inv in H as (sq & s4 & H3 & H). apply lift_ok_inv in H3 as [H3 ->].
  assert (s1 = s3 ∧ r = if fle score (np_sum sq)
                         then Break (Some false) else Continue None) as [-> ->].
  { destruct (fle _ _); by apply ret_ok_inv in H as [-> ->]. }
  eexists _, (np_sum sq). split; [|done].
  exists s2, rows, cols, tl, sq. split; [done|]. split; [exact Hx|]. by repeat split.
Qed.

Lemma for_range_S {A} n (body : A → M (ctrl A)) a s :
  for_range (S n) body a s
  = match body a s with
    | (Ok (Continue a'), s') => for_range n body a' s'
    | (Ok (Break a'), s') => (Ok a', s')
    | (Raise e, s') => (Raise e, s')
    end.
Proof.
  change (for_range (S n) body a s)
    with ((body a ≫= λ c, match c with
                          | Continue a' => for_range n body a'
                          | Break a' => mret a'
                          end) s).
  rewrite bind_run. by destruct (body a s) as [[[?|?]|?] ?].
Qed.

Lemma trials_accept self c score s tr s' :
  trials self c s tr s' → Forall (λ xt : ndarray * F, fle score xt.2 = false) tr →
  for_range (length tr) (significance_trial self c score) None s = (Ok None, s').
Proof.
  induction 1 as [s|s x t s1 tr s2 Ht _ IH]; intros Hall; [done|].
  apply Forall_cons in Hall as [Hx Hall]. simpl in Hx.
  simpl length. rewrite for_range_S, (significance_trial_of_trial _ _ _ _ _ _ _ _ Ht).
  rewrite Hx. by apply IH.
Qed.

Lemma trials_reject self c score s tr x t s' n :
  trials self c s (tr ++ [(x, t)]) s' → length tr < n →
  Forall (λ xt : ndarray * F, fle score xt.2 = false) tr → fle score t = true →
  for_range n (significance_trial self c score) None s = (Ok (Some false), s').
Proof.
  revert s n. induction tr as [|[y u] tr IH]; intros s n Htr Hlen Hall Hle.
  - inversion Htr as [|? ? ? s1 ? ? Ht Hrest]; subst.
    inversion Hrest; subst. destruct n as [|n]; [simpl in Hlen; lia|].
    rewrite for_range_S, (significance_trial_of_trial _ _ _ _ _ _ _ _ Ht).
    by rewrite Hle.
  - simpl in Htr. inversion Htr as [|? ? ? s1 ? ? Ht Hrest]; subst.
    apply Forall_cons in Hall as [Hy Hall]. simpl in Hy, Hlen.
    destruct n as [|n]; [lia|].
    rewrite for_range_S, (significance_trial_of_trial _ _ _ _ _ _ _ _ Ht).
    rewrite Hy. apply IH; (done || lia).
Qed.

Lemma trials_complete self c score n s r s' :
  for_range n (significance_trial self c score) None s = (Ok r, s') →
  ∃ tr, trials self c s tr s' ∧ length tr ≤ n
    ∧ match r with
      | None => length tr = n ∧ Forall (λ xt : ndarray * F, fle score xt.2 = false) tr
      | Some b => b = false ∧ ∃ tr0 x t, tr = tr0 ++ [(x, t)]
          ∧ Forall (λ xt : ndarray * F, fle score xt.2 = false) tr0 ∧ fle score t = true
      end.
Proof.
  revert s. induction n as [|n IH]; intros s H.
  - apply ret_ok_inv in H as [-> ->]. exists []. repeat split; (done || constructor).
  - rewrite for_range_S in H.
    destruct (significance_trial self c score None s) as [[cr|e] s1] eqn:E; [|done].
    apply trial_of_significance_trial in E as (x & t & Ht & ->).
    destruct (fle score t) eqn:Ele.
    + injection H as <- <-. exists [(x, t)]. split; [|split; [simpl; lia|]].
      * econstructor; [done|constructor].
      * split; [done|]. exists [], x, t. by repeat split; [constructor|].
    + apply IH in H as (tr & Htr & Hlen & Hr).
      exists ((x, t) :: tr). split; [by econstructor|]. split; [simpl; lia|].
      destruct r as [b|].
      * destruct Hr as (-> & tr0 & x' & t' & -> & Hall & Hle).
        split; [done|]. exists ((x, t) :: tr0), x', t'.
        repeat split; [|done]. by constructor.
      * destruct Hr as [<- Hall]. split; [done|]. by constructor.
Qed.

Lemma fit_layer_extends self l s r s1 :
  _fit_layer self l s = (r, s1) → heap s ⊆ heap s1.
Proof.
  intros H. pose proof (preserves_extends (_fit_layer self l) s) as Hext.
  rewrite H in Hext. apply Hext. intros o0. apply preserves_fit_layer.
Qed.

Section Shuffle.

(** [numpy.random.shuffle] permutes the buffer it is given. *)
Hypothesis shuffle_permutes : ∀ g buf, (shuffle g buf).2 ≡ₚ buf.

Lemma trials_permutations self c a s tr s' :
  trials self c s tr s' →
  (∃ y, heap s !! c = Some (PyArray y)
        ∧ cells y ≡ₚ cells a ∧ nrows y = nrows a ∧ ncols y = ncols a) →
  Forall (λ xt : ndarray * F,
            cells xt.1 ≡ₚ cells a ∧ nrows xt.1 = nrows a ∧ ncols xt.1 = ncols a) tr.
Proof.
  induction 1 as [s|s x t s1 tr s2 Ht _ IH]; intros (y & Hy & Hp & Hr & Hc);
    [constructor|].
  destruct Ht as (s_sh & rows & cols & tl & sq & H1 & Hx & H2 & _).
  destruct (random_shuffle_flat_inv _ _ _ _ H1) as (y' & Hy' & Hx').
  assert (y' = y) as -> by congruence.
  rewrite Hx in Hx'. injection Hx' as ->.
  assert ((shuffle (rng s) (cells y)).2 ≡ₚ cells a) as Hperm.
  { etrans; [apply shuffle_permutes|done]. }
  constructor; [done|].
  apply IH. exists (mk_ndarray (nrows y) (ncols y) (shuffle (rng s) (cells y)).2).
  split; [|done].
  eapply lookup_weaken; [exact Hx|]. by eapply fit_layer_extends.
Qed.

(** C2 (as amended).  The significance test computes the sum
    of squares of the candidate layer and runs at most [significance_tests]
    trials, each fitting a layer on a permutation of the entries of the
    residual matrix.  The scores are the sums of squares that the arithmetic
    of the arrays gives, and a trial rejects when the comparison [>=] of its
    computed score with the computed score of the candidate holds.  The test
    answers "not significant" at the first trial that rejects, without
    running the remaining trials; it answers "significant" when no trial
    rejects; with no trial at all the candidate is accepted. *)
Theorem significance_test_trials self residuals layer s a :
  heap s !! residuals = Some (PyArray a) →
  let n := Z.to_nat (significance_tests self) in
  ∃ c s0 sq,
    elementwise fmul layer layer = Ok sq
    ∧ np_copy residuals s = (Ok c, s0)
    ∧ heap s !! c = None
    ∧ (significance_tests self = 0%Z →
         _is_significant self residuals layer s = (Ok true, s0))
    ∧ (∀ tr s', trials self c s0 tr s' → length tr = n →
         Forall (λ xt : ndarray * F, fle (np_sum sq) xt.2 = false) tr →
         _is_significant self residuals layer s = (Ok true, s'))
    ∧ (∀ tr x t s', trials self c s0 (tr ++ [(x, t)]) s' → length tr < n →
         Forall (λ xt : ndarray * F, fle (np_sum sq) xt.2 = false) tr →
         fle (np_sum sq) t = true →
         _is_significant self residuals layer s = (Ok false, s'))
    ∧ (∀ tr s', trials self c s0 tr s' →
         Forall (λ xt : ndarray * F,
                   cells xt.1 ≡ₚ cells a ∧ nrows xt.1 = nrows a ∧ ncols xt.1 = ncols a) tr)
    ∧ (∀ b s', _is_significant self residuals layer s = (Ok b, s') →
         ∃ tr, trials self c s0 tr s' ∧ length tr ≤ n
           ∧ if b then length tr = n
                       ∧ Forall (λ xt : ndarray * F, fle (np_sum sq) xt.2 = false) tr
             else ∃ tr0 x t, tr = tr0 ++ [(x, t)]
                    ∧ Forall (λ xt : ndarray * F, fle (np_sum sq) xt.2 = false) tr0
                    ∧ fle (np_sum sq) t = true).
Proof.
  intros Hres n.
  set (c := fresh (dom (heap s))).
  set (s0 := mk_state (<[c := PyArray a]> (heap s)) (rng s)).
  set (sq := mk_ndarray (nrows layer) (ncols layer)
               (zip_with fmul (cells layer) (cells layer))).
  assert (np_copy residuals s = (Ok c, s0)) as Hcopy.
  { unfold np_copy. by rewrite bind_run, (load_array_run _ _ _ Hres). }
  assert (∀ r, _is_significant self residuals layer s = r ↔
             match for_range n (significance_trial self c (np_sum sq)) None s0 with
             | (Ok (Some b), s') => (Ok b, s')
             | (Ok None, s') => (Ok true, s')
             | (Raise e, s') => (Raise e, s')
             end = r) as Hrun.
  { intros r. unfold _is_significant. rewrite bind_run. unfold lift at 1.
    rewrite elementwise_self, bind_run, Hcopy, bind_run. fold sq. fold n.
    by destruct (for_range n _ None s0) as [[[b|]|e] s']. }
  exists c, s0, sq. split; [apply elementwise_self|]. split; [done|].
  split; [apply fresh_loc_None|].
  repeat split.
  - intros Hz. apply Hrun. unfold n. by rewrite Hz.
  - intros tr s' Htr Hlen Hall. apply Hrun.
    rewrite <- Hlen. by rewrite (trials_accept _ _ _ _ _ _ Htr Hall).
  - intros tr x t s' Htr Hlen Hall Hle. apply Hrun.
    by rewrite (trials_reject _ _ _ _ _ _ _ _ _ Htr Hlen Hall Hle).
  - intros tr s' Htr. eapply trials_permutations; [done|].
    exists a. unfold s0. simpl. by rewrite lookup_insert_eq.
  - intros b s' H. apply Hrun in H.
    destruct (for_range n _ None s0) as [[r|e] s1] eqn:E; [|done].
    apply trials_complete in E as (tr & Htr & Hlen & Hr).
    destruct r as [b'|].
    + injection H as <- <-. destruct Hr as (-> & Hr). eauto.
    + injection H as <- <-. eauto.
Qed.

End Shuffle.

(** ** A converged fit *)

(** X12. A converged fit is stable: when a round prunes nothing from a
    selection whose layer is the fitted one, it returns the same layer, and
    any number of further rounds returns the same selection and layer. *)
Theorem fit_layer_converged_is_stable self l a s rows cols layer layer' s1 :
  heap s !! l = Some (PyArray a) →
  fitted a (rows, cols, layer) →
  fit_layer_round self l (rows, cols, layer) s = (Ok (Continue (rows, cols, layer')), s1) →
  s1 = s ∧ layer' = layer
  ∧ ∀ n, for_range n (fit_layer_round self l) (rows, cols, layer) s
         = (Ok (rows, cols, layer), s).
Proof.
  intros Hh (g & Hg & ->) H.
  destruct (fit_layer_round_inv _ _ _ _ _ _ _ Hh H) as [-> (g' & Hg' & ->)].
  assert (g' = g) as -> by congruence.
  split; [done|]. split; [done|].
  induction n as [|n IH]; [done|]. by rewrite for_range_S, H.
Qed.

(** ** The state of [run] between its steps *)

Lemma put_grid_shape (a : ndarray) rows cols (v : ndarray) :
  nrows (put_grid a rows cols v) = nrows a ∧ ncols (put_grid a rows cols v) = ncols a
  ∧ (wf a → wf (put_grid a rows cols v)).
Proof.
  split; [done|]. split; [done|]. unfold wf, put_grid. simpl. intros <-.
  generalize (zip (arange (length rows)) rows) (cells a).
  intros l. induction l as [|pi l IH]; intros buf; simpl; [done|].
  rewrite IH. generalize (zip (arange (length cols)) cols). clear.
  intros l. revert buf. induction l as [|qj l IH]; intros buf; simpl; [done|].
  by rewrite IH, length_insert.
Qed.

(** An augmented assignment to a grid replaces the array by one of the same
    shape; the operand has the shape of the grid. *)
Lemma grid_iop_shape op l rows cols (v : ndarray) u s s1 a :
  heap s !! l = Some (PyArray a) → wf a → wf v →
  grid_iop op l rows cols v s = (Ok u, s1) →
  ∃ a', s1 = mk_state (<[l := PyArray a']> (heap s)) (rng s)
    ∧ wf a' ∧ nrows a' = nrows a ∧ ncols a' = ncols a
    ∧ nrows v = length rows ∧ ncols v = length cols.
Proof.
  intros Hh Hwa Hwv H.
  apply grid_iop_inv in H as (a0 & sub & new & Hl & Hsub & Hnew & ->).
  assert (a0 = a) as -> by congruence.
  destruct (take_grid_shape _ _ _ _ Hsub) as (Hsr & Hsc & Hsw).
  destruct (elementwise_shape _ _ _ _ Hnew Hsw Hwv) as (Hnr & Hnc & Hvr & Hvc & Hnw).
  destruct (put_grid_shape a rows cols new) as (Hpr & Hpc & Hpw).
  exists (put_grid a rows cols new).
  split; [done|]. split; [by apply Hpw|]. split; [done|]. split; [done|].
  split; congruence.
Qed.

(** Objects other than the entries of [layers] may be replaced. *)
Lemma loaded_insert h res ls Ls k o :
  loaded h res ls Ls →
  k = res ∨ h !! k = None ∨ (∃ x, h !! k = Some (PyLayers x))
  ∨ (∃ x, h !! k = Some (PyBiclusters x)) →
  loaded (<[k := o]> h) res ls Ls.
Proof.
  intros Hl Hk. eapply Forall2_impl; [exact Hl|]. intros l L [Hlook Hne].
  split; [|done]. rewrite lookup_insert_ne; [done|]. intros ->.
  destruct Hk as [->|[Hk|[[x Hk]|[x Hk]]]]; congruence.
Qed.

Lemma loaded_mono h h' res ls Ls : loaded h res ls Ls → h ⊆ h' → loaded h' res ls Ls.
Proof.
  intros Hl Hsub. eapply Forall2_impl; [exact Hl|]. intros l L [Hlook Hne].
  split; [by eapply lookup_weaken|done].
Qed.

Lemma discovering_mono f a pre found s s1 :
  discovering f a pre found s → heap s ⊆ heap s1 → discovering f a pre found s1.
Proof.
  intros (r & ls & Ls & H1 & H2 & H3 & H4 & H5 & H6 & H7 & H8 & H9 & H) Hsub.
  exists r, ls, Ls.
  repeat split; try (by eapply lookup_weaken); try tauto.
  by eapply loaded_mono.
Qed.

Lemma discovering_init f a s :
  initialized f a s → wf a → discovering f a [] [] s.
Proof.
  intros (I1 & I2 & I3 & I4 & I5) Hwf. exists a, [], []. simpl.
  repeat split; try done; try constructor.
Qed.

Lemma discovering_run_background self f a u s s1 :
  discovering f a [] [] s → run_background self f s = (Ok u, s1) →
  discovering f a (if fit_background_layer self
                  then [full_bicluster (nrows a) (ncols a)] else []) [] s1.
Proof.
  intros Hd H. unfold run_background in H.
  destruct (fit_background_layer self); [|by apply ret_ok_inv in H as [_ ->]].
  destruct Hd as (r & ls & Ls & Hres & Hwr & Hnr & Hnc & Hfr & Hfc & Hlay & Hbic
                  & Hload & Hfit & Hne).
  simpl in *. apply Forall2_nil_inv_r in Hfit as ->.
  apply Forall2_nil_inv_r in Hload as ->.
  apply bind_ok_inv in H as (a1 & s2 & H1 & H). apply load_array_inv in H1 as [Ha1 ->].
  assert (a1 = r) as -> by congruence.
  apply bind_ok_inv in H as (bl & s3 & H2 & H). apply alloc_inv in H2 as [Hbl ->].
  apply bind_ok_inv in H as (? & s4 & H3 & H).
  apply layers_append_inv in H3 as (ls' & Hls' & ->).
  apply bind_ok_inv in H as (? & s5 & H4 & H).
  apply isub_inv in H4 as (a' & r' & Hres' & Hsub & ->).
  apply biclusters_append_inv in H as (bs' & Hbs' & ->). simpl in *.
  assert (bl ≠ f_layers f) by congruence.
  assert (bl ≠ f_biclusters f) by congruence.
  assert (bl ≠ f_residuals f) by congruence.
  assert (f_layers f ≠ f_biclusters f) by congruence.
  assert (f_residuals f ≠ f_layers f) by congruence.
  assert (f_residuals f ≠ f_biclusters f) by congruence.
  simplify_map_eq.
  destruct (create_layer_shape a') as (Hlr & Hlc & Hlw).
  destruct (elementwise_shape _ _ _ _ Hsub Hwr Hlw) as (Hr'r & Hr'c & _ & _ & Hr'w).
  exists r', [bl], [_create_layer a']. simpl. simplify_map_eq.
  rewrite Hfr, Hfc.
  split; [done|]. split; [done|]. split; [congruence|]. split; [congruence|].
  split; [done|]. split; [done|]. split; [done|]. split; [done|].
  split. { constructor; [|constructor]. by simplify_map_eq. }
  split.
  { constructor; [|constructor]. unfold layer_fits. simpl.
    rewrite !length_arange. repeat split; (done || congruence). }
  constructor.
Qed.

(** One back-fitting update of the layer at position [k]: the layer is
    replaced by one of the same shape, the biclusters are left as they
    are. *)
Lemma discovering_back_fit_pair f a pre found k b u s s1 :
  (pre ++ found) !! k = Some b →
  discovering f a pre found s →
  back_fit_pair (f_residuals f) (f_layers f) (k, b) s = (Ok u, s1) →
  discovering f a pre found s1.
Proof.
  intros Hkb Hd H. unfold back_fit_pair in H.
  destruct Hd as (r & ls & Ls & Hres & Hwr & Hnr & Hnc & Hfr & Hfc & Hlay & Hbic
                  & Hload & Hfit & Hne).
  apply bind_ok_inv in H as (lj & s2 & H1 & H).
  apply layers_getitem_inv in H1 as (ls0 & x & Hls0 & Hx & Hlj & ->).
  assert (ls0 = ls) as -> by congruence.
  destruct (Forall2_lookup_l _ _ _ _ _ Hload Hx) as (L & HL & HxL & Hxne).
  assert (lj = L) as -> by congruence.
  destruct (Forall2_lookup_lr _ _ _ _ _ _ Hfit HL Hkb) as (HLw & HLr & HLc & Hrows & Hcols).
  apply bind_ok_inv in H as (? & s3 & H2 & H).
  destruct (grid_iop_shape _ _ _ _ _ _ _ _ r Hres Hwr HLw H2)
    as (r1 & -> & Hw1 & Hr1 & Hc1 & _ & _).
  apply bind_ok_inv in H as (a1 & s4 & H3 & H). apply load_array_inv in H3 as [Ha1 ->].
  simpl in Ha1. rewrite lookup_insert_eq in Ha1. injection Ha1 as <-.
  apply bind_ok_inv in H as (sub & s5 & H4 & H). apply lift_ok_inv in H4 as [Hsub ->].
  apply bind_ok_inv in H as (new & s6 & H5 & H). apply alloc_inv in H5 as [Hnew ->].
  apply bind_ok_inv in H as (? & s7 & H6 & H).
  apply layers_setitem_inv in H6 as (ls1 & Hls1 & Hk & ->).
  apply bind_ok_inv in H as (lj' & s8 & H7 & H).
  apply layers_getitem_inv in H7 as (ls2 & x' & Hls2 & Hx' & Hlj' & ->).
  simpl in *.
  assert (f_layers f ≠ f_residuals f) by congruence.
  assert (f_biclusters f ≠ f_residuals f) by congruence.
  assert (f_layers f ≠ f_biclusters f) by congruence.
  assert (new ≠ f_residuals f).
  { intros ->. by rewrite lookup_insert_eq in Hnew. }
  assert (new ≠ f_layers f).
  { intros ->. rewrite lookup_insert_ne in Hnew by done. congruence. }
  assert (new ≠ f_biclusters f).
  { intros ->. rewrite lookup_insert_ne in Hnew by done. congruence. }
  assert (f_residuals f ≠ f_layers f) by congruence.
  assert (f_residuals f ≠ f_biclusters f) by congruence.
  assert (f_residuals f ≠ new) by congruence.
  assert (f_layers f ≠ new) by congruence.
  rewrite lookup_insert_ne, lookup_insert_ne in Hls1 by done.
  assert (ls1 = ls) as -> by congruence.
  rewrite lookup_insert_eq in Hls2. injection Hls2 as <-.
  rewrite list_lookup_insert_eq in Hx' by done. injection Hx' as <-.
  rewrite lookup_insert_ne, lookup_insert_eq in Hlj' by done. injection Hlj' as <-.
  destruct (take_grid_shape _ _ _ _ Hsub) as (Hsr & Hsc & _).
  destruct (create_layer_shape sub) as (Hnlr & Hnlc & Hnlw).
  assert (heap (mk_state (<[f_layers f := PyLayers (<[k := new]> ls)]>
                           (<[new := PyArray (_create_layer sub)]>
                              (<[f_residuals f := PyArray r1]> (heap s)))) (rng s))
            !! f_residuals f = Some (PyArray r1)) as Hres1.
  { simpl. rewrite !lookup_insert_ne by done. by rewrite lookup_insert_eq. }
  destruct (grid_iop_shape _ _ _ _ _ _ _ _ r1 Hres1 Hw1 Hnlw H)
    as (r2 & -> & Hw2 & Hr2 & Hc2 & _ & _).
  simpl.
  exists r2, (<[k := new]> ls), (<[k := _create_layer sub]> Ls). simpl.
  rewrite lookup_insert_eq.
  rewrite (lookup_insert_ne _ (f_residuals f) (f_layers f)) by done.
  rewrite lookup_insert_eq.
  rewrite !(lookup_insert_ne _ _ (f_biclusters f)) by done.
  split; [done|]. split; [done|]. split; [congruence|]. split; [congruence|].
  split; [done|]. split; [done|]. split; [done|]. split; [done|].
  split.
  { apply loaded_insert; [|by left]. apply Forall2_insert.
    - apply loaded_insert.
      + apply loaded_insert.
        * apply loaded_insert; [done|by left].
        * right; left. exact Hnew.
      + right; right; left. exists ls.
        rewrite !lookup_insert_ne by done. exact Hlay.
    - split; [|done]. rewrite lookup_insert_ne by done.
      by rewrite lookup_insert_eq. }
  split.
  { rewrite <- (list_insert_id (pre ++ found) k b Hkb).
    apply Forall2_insert; [done|]. unfold layer_fits.
    repeat split; (done || congruence). }
  done.
Qed.

Lemma discovering_back_fitting self f a pre found u s s1 :
  discovering f a pre found s →
  _back_fitting self (f_residuals f) (f_layers f) (f_biclusters f) s = (Ok u, s1) →
  discovering f a pre found s1.
Proof.
  intros Hd H. unfold _back_fitting in H.
  eapply (for_range_ok_inv (discovering f a pre found)); [|exact Hd|exact H].
  clear. intros [] s c s1 Hd H.
  apply bind_ok_inv in H as (ls & s2 & H1 & H). apply load_layers_inv in H1 as [Hls ->].
  apply bind_ok_inv in H as (bs & s3 & H2 & H). apply load_biclusters_inv in H2 as [Hbs ->].
  apply bind_ok_inv in H as (? & s4 & H3 & H). apply ret_ok_inv in H as [_ ->].
  assert (bs = pre ++ found) as ->.
  { destruct Hd as (r & ls' & Ls & _ & _ & _ & _ & _ & _ & _ & G & _). congruence. }
  eapply (for_each_ok_inv (discovering f a pre found)); [|exact Hd|exact H3].
  intros [j b] s' u' s1' Hin. apply discovering_back_fit_pair.
  apply list_elem_of_lookup in Hin as [n Hn].
  apply lookup_zip_Some in Hn as [Hn1 Hn2].
  apply lookup_seq in Hn1 as [-> _]. done.
Qed.

Lemma discovering_run_discover self f a pre found u c s s1 :
  discovering f a pre found s → run_discover self f u s = (Ok c, s1) →
  ∃ found', discovering f a pre found' s1 ∧ length found' ≤ S (length found).
Proof.
  intros Hd H. unfold run_discover in H.
  apply bind_ok_inv in H as ([[rows cols] layer] & s2 & H1 & H).
  pose proof Hd as (r & ls & Ls & Hres & Hwr & Hnr & Hnc & Hfr & Hfc & Hlay & Hbic
                    & Hload & Hfit & Hne).
  destruct (fit_layer_outcome _ _ _ _ _ _ _ _ Hres H1)
    as (Hh2 & _ & Hrows & Hcols & Hlw & _).
  assert (discovering f a pre found s2) as Hd2.
  { eapply discovering_mono; [exact Hd|]. by rewrite Hh2. }
  destruct ((length rows =? 0) || (length cols =? 0)) eqn:Eempty.
  { apply ret_ok_inv in H as [_ ->]. exists found. split; [done|lia]. }
  apply orb_false_iff in Eempty as [Er Ec]. apply Nat.eqb_neq in Er, Ec.
  apply bind_ok_inv in H as (sig & s3 & H2 & H).
  assert (heap s ⊆ heap s3) as Hsub3.
  { rewrite <- Hh2.
    pose proof (preserves_extends (_is_significant self (f_residuals f) layer) s2) as Hext.
    rewrite H2 in Hext. apply Hext. intros o0. apply preserves_is_significant. }
  destruct (negb sig).
  { apply ret_ok_inv in H as [_ ->]. exists found. split; [|lia].
    exact (discovering_mono _ _ _ _ _ _ Hd Hsub3). }
  pose proof (lookup_weaken _ _ _ _ Hres Hsub3) as Hres3.
  pose proof (lookup_weaken _ _ _ _ Hlay Hsub3) as Hlay3.
  pose proof (lookup_weaken _ _ _ _ Hbic Hsub3) as Hbic3.
  pose proof (loaded_mono _ _ _ _ _ Hload Hsub3) as Hload3.
  apply bind_ok_inv in H as (? & s4 & H3 & H).
  destruct (grid_iop_shape _ _ _ _ _ _ _ _ r Hres3 Hwr Hlw H3)
    as (r' & -> & Hw' & Hr' & Hc' & Hlr & Hlc).
  apply bind_ok_inv in H as (l & s5 & H4 & H). apply alloc_inv in H4 as [Hl ->].
  apply bind_ok_inv in H as (? & s6 & H5 & H).
  apply layers_append_inv in H5 as (ls' & Hls' & ->).
  apply bind_ok_inv in H as (? & s7 & H6 & H).
  apply biclusters_append_inv in H6 as (bs' & Hbs' & ->).
  apply bind_ok_inv in H as (? & s8 & H7 & H). apply ret_ok_inv in H as [_ ->].
  simpl in *.
  assert (f_layers f ≠ f_residuals f) by congruence.
  assert (f_biclusters f ≠ f_residuals f) by congruence.
  assert (f_layers f ≠ f_biclusters f) by congruence.
  assert (f_residuals f ≠ f_layers f) by congruence.
  assert (f_residuals f ≠ f_biclusters f) by congruence.
  assert (f_biclusters f ≠ f_layers f) by congruence.
  assert (l ≠ f_residuals f).
  { intros ->. by rewrite lookup_insert_eq in Hl. }
  assert (l ≠ f_layers f).
  { intros ->. rewrite lookup_insert_ne in Hl by done. congruence. }
  assert (l ≠ f_biclusters f).
  { intros ->. rewrite lookup_insert_ne in Hl by done. congruence. }
  assert (f_residuals f ≠ l) by congruence.
  assert (f_layers f ≠ l) by congruence.
  assert (f_biclusters f ≠ l) by congruence.
  rewrite !lookup_insert_ne in Hls' by done.
  assert (ls' = ls) as -> by congruence.
  rewrite !lookup_insert_ne in Hbs' by done.
  assert (bs' = pre ++ found) as -> by congruence.
  exists (found ++ [mk_Bicluster rows cols]). split; [|rewrite length_app; simpl; lia].
  eapply discovering_back_fitting; [|exact H7].
  exists r', (ls ++ [l]), (Ls ++ [layer]). simpl.
  rewrite lookup_insert_eq.
  rewrite (lookup_insert_ne _ (f_biclusters f) (f_layers f)) by done.
  rewrite lookup_insert_eq.
  rewrite !(lookup_insert_ne _ _ (f_residuals f)) by done.
  rewrite lookup_insert_eq. rewrite app_assoc.
  rewrite Hnr in Hrows. rewrite Hnc in Hcols.
  split; [done|]. split; [done|]. split; [congruence|]. split; [congruence|].
  split; [done|]. split; [done|]. split; [done|]. split; [done|].
  split.
  { apply Forall2_app.
    - apply loaded_insert.
      + apply loaded_insert.
        * apply loaded_insert.
          -- apply loaded_insert; [done|by left].
          -- right; left. exact Hl.
        * right; right; left. exists ls.
          rewrite !lookup_insert_ne by done. exact Hlay3.
      + right; right; right. exists (pre ++ found).
        rewrite !lookup_insert_ne by done. exact Hbic3.
    - constructor; [|constructor]. split; [|done].
      rewrite !lookup_insert_ne by done. by rewrite lookup_insert_eq. }
  split.
  { apply Forall2_app; [done|]. constructor; [|constructor].
    unfold layer_fits. simpl. by repeat split. }
  apply Forall_app. split; [done|]. apply Forall_singleton. simpl. split.
  - intros ->. by apply Er.
  - intros ->. by apply Ec.
Qed.

Lemma for_range_count_inv {A} (I : nat → state → Prop) n (body : A → M (ctrl A)) a s r s1 :
  (∀ k a s c s1, I k s → body a s = (Ok c, s1) → I (S k) s1) →
  I 0 s → for_range n body a s = (Ok r, s1) → ∃ k, k ≤ n ∧ I k s1.
Proof.
  intros Hb H0.
  assert (∀ k0 a s, I k0 s → for_range n body a s = (Ok r, s1) →
            ∃ k, k ≤ k0 + n ∧ I k s1) as Hgen; [|by apply (Hgen 0 a s)].
  clear a s H0. induction n as [|n IH]; intros k0 a s Hk H; simpl in H.
  - apply ret_ok_inv in H as [_ ->]. exists k0. split; [lia|done].
  - apply bind_ok_inv in H as (c & s0 & Hc & H).
    specialize (Hb _ _ _ _ _ Hk Hc). destruct c as [a'|a'].
    + destruct (IH _ _ _ Hb H) as (k & Hle & HI). exists k. split; [lia|done].
    + apply ret_ok_inv in H as [_ ->]. exists (S k0). split; [lia|done].
Qed.

(** A successful run, up to the construction of the result. *)
Lemma run_ok_inv self data s a r s1 :
  heap s !! data = Some (PyArray a) → wf a →
  run self data s = (Ok r, s1) →
  ∃ f s5 found,
    discovering f a
      (if fit_background_layer self then [full_bicluster (nrows a) (ncols a)] else [])
      found s5
    ∧ (Z.of_nat (length found) <= num_biclusters self)%Z
    ∧ run_finalize self f s5 = (Ok r, s1).
Proof.
  intros Hd Hwf H. unfold run in H.
  apply bind_ok_inv in H as (? & s2 & H1 & H). apply lift_ok_inv in H1 as [Hval ->].
  apply bind_ok_inv in H as (f & s3 & H2 & H).
  apply (initialized_run_init _ a) in H2; [|done].
  apply discovering_init in H2; [|done].
  apply bind_ok_inv in H as (? & s4 & H3 & H).
  apply (discovering_run_background _ _ a) in H3; [|done].
  apply bind_ok_inv in H as (? & s5 & H4 & H).
  set (pre := if fit_background_layer self
              then [full_bicluster (nrows a) (ncols a)] else []) in *.
  assert (∃ k, k ≤ Z.to_nat (num_biclusters self)
               ∧ ∃ found, length found ≤ k ∧ discovering f a pre found s5)
    as (k & Hk & found & Hlen & Hdec).
  { refine (for_range_count_inv
              (λ k s, ∃ found, length found ≤ k ∧ discovering f a pre found s)
              _ _ _ _ _ _ _ _ H4).
    - intros k u s' c s'' (found & Hlen & Hdec) Hb.
      destruct (discovering_run_discover _ _ _ _ _ _ _ _ _ Hdec Hb) as (found' & Hdec' & Hlen').
      exists found'. split; [lia|done].
    - exists []. split; [done|exact H3]. }
  exists f, s5, found. split; [done|]. split; [|done].
  assert (0 < num_biclusters self)%Z as Hpos.
  { unfold _validate_parameters in Hval.
    destruct (Z.leb_spec (num_biclusters self) 0); [done|lia]. }
  lia.
Qed.

Lemma Forall2_Forall_right {A B} (P : A → B → Prop) (Q : B → Prop) l k :
  Forall2 P l k → (∀ x y, P x y → Q y) → Forall Q k.
Proof. induction 1; intros HPQ; constructor; eauto. Qed.

(** X15. In biclusters-only mode [run] returns at most [num_biclusters]
    biclusters; each has at least one row and one column, and its rows and
    its columns are increasing sequences of indices of the input matrix. *)
Theorem discovered_biclusters_are_valid self data s a r s1 :
  heap s !! data = Some (PyArray a) → wf a →
  return_layers self = false →
  run self data s = (Ok r, s1) →
  ∃ B found,
    r = OnlyBiclustering B
    ∧ heap s1 !! biclusters B = Some (PyBiclusters found)
    ∧ (Z.of_nat (length found) <= num_biclusters self)%Z
    ∧ Forall (λ b, b_rows b ≠ [] ∧ b_cols b ≠ []
                   ∧ b_rows b `sublist_of` arange (nrows a)
                   ∧ b_cols b `sublist_of` arange (ncols a)) found.
Proof.
  intros Hd Hwf Hmode H.
  destruct (run_ok_inv _ _ _ _ _ _ Hd Hwf H) as (f & s5 & found & Hdec & Hcount & Hfin).
  unfold run_finalize in Hfin. rewrite Hmode in Hfin.
  destruct Hdec as (r0 & ls & Ls & Hres & Hwr & Hnr & Hnc & Hfr & Hfc & Hlay & Hbic
                    & Hload & Hfit & Hne).
  apply bind_ok_inv in Hfin as (? & s6 & F1 & Hfin).
  apply ret_ok_inv in Hfin as [-> ->].
  exists (mk_Biclustering (f_biclusters f)), found. simpl.
  assert (f_layers f ≠ f_biclusters f) by congruence.
  assert (Forall (λ b, b_rows b ≠ [] ∧ b_cols b ≠ []
                   ∧ b_rows b `sublist_of` arange (nrows a)
                   ∧ b_cols b `sublist_of` arange (ncols a)) found) as Hvalid.
  { apply Forall2_app_inv_r in Hfit as (L1 & L2 & _ & Hfit & _).
    pose proof (Forall2_Forall_right _ (λ b, b_rows b `sublist_of` arange (nrows a)
                  ∧ b_cols b `sublist_of` arange (ncols a)) _ _ Hfit) as Hsorted.
    rewrite Forall_forall in Hne. apply Forall_forall. intros b Hb.
    rewrite Forall_forall in Hsorted.
    destruct (Hne b Hb) as [? ?].
    destruct (Hsorted ltac:(by intros L b' (_ & _ & _ & ? & ?)) b Hb) as [? ?].
    done. }
  split; [done|]. split; [|done].
  destruct (fit_background_layer self).
  - apply bind_ok_inv in F1 as (? & s7 & F1 & F2).
    apply biclusters_pop0_inv in F1 as (b & bs & Hbs & ->).
    apply layers_pop0_inv in F2 as (l & ls' & Hls & ->).
    simpl in *. rewrite Hbic in Hbs. injection Hbs as <- <-.
    by rewrite lookup_insert_ne, lookup_insert_eq by done.
  - by apply ret_ok_inv in F1 as [_ ->].
Qed.

(** ** The score of the candidate *)





(** ** Parameter validation *)

(** The configurations that the validation accepts.  The bounds on a
    threshold are the comparisons of the program, each of them false. *)
Lemma validate_parameters_ok (self : Plaid) :
  _validate_parameters self = Ok () ↔
    (0 < num_biclusters self)%Z ∧ (0 < initialization_iterations self)%Z
    ∧ (0 <= iterations_per_layer self)%Z
    ∧ (0 <= significance_tests self)%Z ∧ (0 <= back_fitting_steps self)%Z
    ∧ fle fone (row_prunning_threshold self) = false
    ∧ fle (row_prunning_threshold self) fzero = false
    ∧ fle fone (col_prunning_threshold self) = false
    ∧ fle (col_prunning_threshold self) fzero = false.
Proof.
  unfold _validate_parameters. split.
  - intros H.
    destruct (_ || _ || _) eqn:E1 in H; [done|].
    destruct (_ || _) eqn:E2 in H; [done|].
    destruct (_ || _ || _ || _) eqn:E3 in H; [done|].
    apply orb_false_iff in E1 as [E1 E1c]. apply orb_false_iff in E1 as [E1a E1b].
    apply orb_false_iff in E2 as [E2a E2b].
    apply orb_false_iff in E3 as [E3 E3d]. apply orb_false_iff in E3 as [E3 E3c].
    apply orb_false_iff in E3 as [E3a E3b].
    apply Z.leb_gt in E1a, E1b. apply Z.ltb_ge in E1c, E2a, E2b.
    by repeat split.
  - intros (H1 & H2 & H3 & H4 & H5 & H6 & H7 & H8 & H9).
    apply Z.leb_gt in H1, H2. apply Z.ltb_ge in H3, H4, H5.
    by rewrite H1, H2, H3, H4, H5, H6, H7, H8, H9.
Qed.

(** A configuration error is raised before anything else happens. *)
Lemma run_validates_first self data s e :
  _validate_parameters self = Raise e → run self data s = (Raise e, s).
Proof. intros H. unfold run. rewrite bind_run. unfold lift. by rewrite H. Qed.

Lemma validate_parameters_raises (self : Plaid) e :
  _validate_parameters self = Raise e → ∃ msg, e = ValueError msg.
Proof.
  unfold _validate_parameters. repeat case_match; intros [= <-]; eauto.
Qed.

(** X18. [run] checks the configuration first: outside the bounds (a
    positive number of biclusters and of k-means restarts, no negative number
    of pruning rounds, of significance tests or of back-fitting steps, and
    for each threshold neither [threshold >= 1.0] nor [threshold <= 0.0]) it
    raises the [ValueError] of [_validate_parameters] and leaves the store
    and the random source as they are, whatever the data; inside the bounds
    the validation passes.  The bounds on a threshold are the two
    comparisons of the program: a threshold for which both are false is
    within them, also when it is not a number between 0 and 1. *)
Theorem run_checks_configuration_first self data s :
  let within_bounds :=
    (0 < num_biclusters self)%Z ∧ (0 < initialization_iterations self)%Z
    ∧ (0 <= iterations_per_layer self)%Z
    ∧ (0 <= significance_tests self)%Z ∧ (0 <= back_fitting_steps self)%Z
    ∧ fle fone (row_prunning_threshold self) = false
    ∧ fle (row_prunning_threshold self) fzero = false
    ∧ fle fone (col_prunning_threshold self) = false
    ∧ fle (col_prunning_threshold self) fzero = false in
  (within_bounds ↔ _validate_parameters self = Ok ())
  ∧ (¬ within_bounds ↔
     ∃ msg, _validate_parameters self = Raise (ValueError msg)
            ∧ run self data s = (Raise (ValueError msg), s)).
Proof.
  intros within_bounds. split; [symmetry; apply validate_parameters_ok|].
  split.
  - intros Hout. destruct (_validate_parameters self) as [[]|e] eqn:E.
    + exfalso. by apply Hout, validate_parameters_ok.
    + destruct (validate_parameters_raises _ _ E) as [msg ->].
      exists msg. split; [done|]. by apply run_validates_first.
  - intros (msg & Hraise & _) Hin. apply validate_parameters_ok in Hin. congruence.
Qed.

End Plaid.

(** * Exact arithmetic *)

(** The theorems of this part use the laws of an ordered field: they are
    stated for the program computing over the rationals ([Q_arith]). *)

Lemma Qltb_lt (x y : Q) : Qltb x y = true ↔ (x < y)%Q.
Proof.
  unfold Qltb. rewrite negb_true_iff. split.
  - intros H. apply Qnot_le_lt. intros Hle.
    apply Qle_bool_iff in Hle. congruence.
  - intros H. destruct (Qle_bool y x) eqn:E; [|done].
    apply Qle_bool_iff in E. exfalso. eapply Qlt_not_le; eauto.
Qed.


Lemma Qsum_nonneg (l : list Q) : Forall (λ x, (0 <= x)%Q) l → (0 <= Qsum l)%Q.
Proof.
  induction 1 as [|x l Hx _ IH]; simpl; [apply Qle_refl|].
  replace 0%Q with (0 + 0)%Q by reflexivity. by apply Qplus_le_compat.
Qed.

Lemma Qsquare_nonneg (x : Q) : (0 <= x * x)%Q.
Proof.
  destruct x as [n d]. unfold Qle, Qmult. simpl. nia.
Qed.

Lemma Qsum_zero {A} (f : A → Q) (l : list A) :
  (∀ x, x ∈ l → (f x == 0)%Q) → (Qsum (map f l) == 0)%Q.
Proof.
  induction l as [|x l IH]; intros H; simpl; [reflexivity|].
  rewrite (H x) by left. rewrite IH; [ring|].
  intros y Hy. apply H. by right.
Qed.

(** ** The closed form of a layer *)

(** C7. For a submatrix with at least one row and one column, the layer is
    the closed-form additive decomposition: the mean is the average of all
    entries, the effect of row [i] is the average of row [i] minus the mean,
    the effect of column [j] is the average of column [j] minus the mean, the
    value at [(i, j)] is mean + row effect + column effect, and the layer has
    the shape of the submatrix. *)
Theorem create_layer_closed_form (m : ndarray Q) (i j : nat) :
  wf m → i < nrows m → j < ncols m →
  let mean := average (cells m) in
  let row_effect := (average (row_of m i) - mean)%Q in
  let col_effect := (average (col_of m j) - mean)%Q in
  nrows (_create_layer m) = nrows m ∧ ncols (_create_layer m) = ncols m
  ∧ wf (_create_layer m)
  ∧ get (_create_layer m) i j = (mean + row_effect + col_effect)%Q.
Proof.
  intros Hwf Hi Hj mean row_effect col_effect.
  destruct (create_layer_shape m) as (Hr & Hc & Hw).
  repeat split; [done..|].
  rewrite get_create_layer by done.
  unfold row_effect. by rewrite row_of_get.
Qed.

(** ** The pruning rule over the rationals *)

(** Over the rationals the comparison of the program is the rule of the
    specification. *)
Lemma keeps_retained (residuals layer : ndarray Q) others threshold p i :
  keeps residuals layer others threshold p i = true
  ↔ retained residuals layer others threshold p i.
Proof. apply Qltb_lt. Qed.

Lemma col_keeps_retained (residuals layer : ndarray Q) rows threshold q j :
  col_keeps residuals layer rows threshold q j = true
  ↔ col_retained residuals layer rows threshold q j.
Proof. apply Qltb_lt. Qed.

Lemma sum_sq_nonneg (residuals : ndarray Q) others i :
  (0 <= sum_sq residuals others i)%Q.
Proof.
  unfold sum_sq. apply Qsum_nonneg, Forall_forall. intros x Hx.
  apply list_elem_of_fmap in Hx as (j & -> & _). apply Qsquare_nonneg.
Qed.

(** Over the rationals a pruning step of layer fitting decides the rule of
    the specification, for the rows and for the columns. *)
Lemma round_decides_exact_rule {R : Type} (self : Plaid Q) residuals (a : ndarray Q)
    (s : state Q R) rows cols layer :
  heap s !! residuals = Some (PyArray a) →
  wf layer → nrows layer = length rows → ncols layer = length cols →
  Forall (λ i, i < nrows a) rows → Forall (λ j, j < ncols a) cols →
  NoDup rows → NoDup cols →
  ∃ c rows' cols' layer',
    fit_layer_round self residuals (rows, cols, layer) s = (Ok c, s)
    ∧ ctrl_value c = (rows', cols', layer')
    ∧ (∀ p i, rows !! p = Some i →
         i ∈ rows' ↔ retained a layer cols (row_prunning_threshold self) p i)
    ∧ (∀ q j, cols !! q = Some j →
         j ∈ cols' ↔ col_retained a layer rows (col_prunning_threshold self) q j).
Proof.
  intros Hh Hwf Hr Hc Hrows Hcols Hnd1 Hnd2.
  destruct (fit_layer_round_spec self residuals a s rows cols layer)
    as (_ & _ & c & layer' & Hrun & Hval & _); [done..|].
  eexists c, _, _, layer'. split; [done|]. split; [done|].
  repeat split.
  - intros Hin. apply elem_of_select in Hin as (p' & Hp' & Hk).
    rewrite (NoDup_lookup _ _ _ _ Hnd1 H Hp'). by apply keeps_retained.
  - intros Hret. apply elem_of_select. exists p. split; [done|].
    by apply keeps_retained.
  - intros Hin. apply elem_of_select in Hin as (q' & Hq' & Hk).
    rewrite (NoDup_lookup _ _ _ _ Hnd2 H Hq'). by apply col_keeps_retained.
  - intros Hret. apply elem_of_select. exists q. split; [done|].
    by apply col_keeps_retained.
Qed.

(** A stricter threshold keeps no index that a laxer one drops. *)
Lemma keeps_antitone (residuals layer : ndarray Q) others t1 t2 p i :
  (t1 <= t2)%Q →
  keeps residuals layer others t2 p i = true →
  keeps residuals layer others t1 p i = true.
Proof.
  intros Ht. rewrite !keeps_retained. unfold retained. intros H2.
  eapply Qlt_le_trans; [exact H2|].
  apply Qmult_le_compat_r; [|apply (sum_sq_nonneg residuals others i)].
  apply Qplus_le_r. by apply Qopp_le_compat.
Qed.

(** C5 (as amended). For a fixed residual, layer and selection, the indices
    retained by the pruning rule shrink weakly as the threshold is raised
    toward 1: the selection kept at the higher threshold is a subsequence of
    the one kept at the lower threshold, so its size never increases. *)
Theorem prune_antitone_in_threshold residuals layer rows cols (t1 t2 : Q) :
  wf layer → nrows layer = length rows → ncols layer = length cols →
  Forall (λ i, i < nrows residuals) rows → Forall (λ j, j < ncols residuals) cols →
  (t1 <= t2)%Q →
  ∃ kept1 kept2,
    _prune residuals layer rows cols t1 = Ok kept1
    ∧ _prune residuals layer rows cols t2 = Ok kept2
    ∧ kept2 `sublist_of` kept1
    ∧ length kept2 ≤ length kept1.
Proof.
  intros Hwf Hr Hc Hrows Hcols Ht.
  exists (select (keeps residuals layer cols t1) rows),
         (select (keeps residuals layer cols t2) rows).
  rewrite !prune_select by done.
  assert (select (keeps residuals layer cols t2) rows
            `sublist_of` select (keeps residuals layer cols t1) rows) as Hsub.
  { apply select_mono. intros p i. by apply keeps_antitone. }
  repeat split; [done|]. by apply sublist_length.
Qed.

(** C5 as stated fails: on [demo_matrix] with [demo_layer], rows 0-1 and
    columns 0-1, the threshold 1/2 keeps a row and the higher threshold 99/100
    keeps none. *)
Lemma prune_monotone_counterexample :
  (0 < 1 # 2)%Q ∧ (1 # 2 <= 99 # 100)%Q ∧ (99 # 100 < 1)%Q
  ∧ ∃ kept1 kept2,
      _prune demo_matrix demo_layer [0; 1] [0; 1] (1 # 2) = Ok kept1
      ∧ _prune demo_matrix demo_layer [0; 1] [0; 1] (99 # 100) = Ok kept2
      ∧ ¬ (length kept1 ≤ length kept2).
Proof.
  split; [reflexivity|]. split; [by vm_compute|]. split; [reflexivity|].
  exists [0], []. split; [reflexivity|]. split; [reflexivity|]. simpl. lia.
Qed.

(** ** Degenerate rows *)

Lemma sum_sq_diff_nonneg (residuals layer : ndarray Q) others p i :
  (0 <= sum_sq_diff residuals layer others p i)%Q.
Proof.
  unfold sum_sq_diff. apply Qsum_nonneg, Forall_forall. intros x Hx.
  apply list_elem_of_lookup in Hx as [q Hq].
  rewrite list_lookup_imap in Hq.
  destruct (others !! q); simplify_eq/=. apply Qsquare_nonneg.
Qed.

Lemma sum_sq_zero (residuals : ndarray Q) others i :
  (∀ j, j ∈ others → (get residuals i j == 0)%Q) → (sum_sq residuals others i == 0)%Q.
Proof.
  intros H. unfold sum_sq. apply Qsum_zero. intros j Hj.
  unfold sq. simpl. rewrite (H j Hj). ring.
Qed.

Lemma keeps_zero_row (residuals layer : ndarray Q) others threshold p i :
  (∀ j, j ∈ others → (get residuals i j == 0)%Q) →
  keeps residuals layer others threshold p i = false.
Proof.
  intros H. destruct (keeps _ _ _ _ _ _) eqn:E; [|done]. exfalso.
  apply keeps_retained in E.
  pose proof (sum_sq_diff_nonneg residuals layer others p i) as Hnn.
  pose proof (sum_sq_zero residuals others i H) as Hz.
  unfold retained in E. unfold sum_sq_diff, sum_sq, sq in Hnn, Hz. simpl in Hnn, Hz.
  rewrite Hz in E.
  assert ((1 - threshold) * 0 == 0)%Q as Hz0 by ring. rewrite Hz0 in E.
  by eapply Qlt_not_le.
Qed.

(** X4. A row whose residual entries are all zero on the current columns is
    pruned, whatever the layer and the threshold: the comparison of the rule
    is strict. *)
Theorem prune_drops_zero_rows residuals layer rows cols (threshold : Q) (i : nat) :
  wf layer → nrows layer = length rows → ncols layer = length cols →
  Forall (λ i, i < nrows residuals) rows → Forall (λ j, j < ncols residuals) cols →
  (∀ j, j ∈ cols → (get residuals i j == 0)%Q) →
  ∃ kept, _prune residuals layer rows cols threshold = Ok kept ∧ i ∉ kept.
Proof.
  intros Hwf Hr Hc Hrows Hcols Hz. eexists. split; [by apply prune_select|].
  intros Hin. apply elem_of_select in Hin as (p & _ & Hk).
  by rewrite keeps_zero_row in Hk.
Qed.

(** ** The verdict on a layer of zeros *)

Section ExactSignificance.

Context {R : Type}.
Variable k_means : R → ndarray Q → Z → R * res (list nat).
Variable shuffle : R → list Q → R * list Q.



End ExactSignificance.

(** ** The configuration of the defect in the validation *)

(** C4, at the input where the code departs from it: with a budget of zero
    pruning rounds (and every other parameter at its default) the validation
    accepts the configuration, although the message of the check itself asks
    for a value greater than zero. *)
Theorem validate_accepts_zero_rounds :
  _validate_parameters (mk_Plaid 10 true (1 # 2) (1 # 2) 3 1 6 0 false) = Ok ().
Proof. reflexivity. Qed.

(** * Binary64 arithmetic *)

(** The rule and the test of the specification compare exact sums of
    squares; the program compares the sums that binary64 gives.  The two
    differ on the inputs below. *)

Lemma b64_shuffle_permutes g buf : (b64_shuffle g buf).2 ≡ₚ buf.
Proof. simpl. symmetry. apply Permutation_rev. Qed.

(** C1 as stated fails in binary64.  The matrix has the single entry
    [2^-600], and the layer fitted on it is the matrix itself.  The entry
    deviates from the layer by 0, and 0 is strictly below half the square of
    the entry, [2^-1201]: the rule of the specification retains row 0 and
    column 0.  The program computes the square of the entry as 0.0 (it is
    below the smallest positive binary64 number), tests [0.0 < 0.5 * 0.0]
    and drops both. *)
Lemma pruning_rule_counterexample :
  _create_layer tiny_matrix = tiny_matrix
  ∧ Q_of_float 0.5 = Some (1 # 2)%Q
  ∧ (∃ a, exact_array tiny_matrix = Some a
          ∧ cells a = [(1 # 2 ^ 600)%Q]
          ∧ retained a a [0] (1 # 2) 0 0 ∧ col_retained a a [0] (1 # 2) 0 0)
  ∧ sum_sq_diff tiny_matrix tiny_matrix [0] 0 0 = 0%float
  ∧ sum_sq tiny_matrix [0] 0 = 0%float
  ∧ fit_layer_round (b64_params 0) 0 ([0], [0], tiny_matrix) tiny_state
    = (Ok (Break ([], [], tiny_matrix)), tiny_state).
Proof.
  split; [by vm_compute|]. split; [by vm_compute|]. split.
  - eexists. split; [by vm_compute|]. split; [by vm_compute|]. split; by vm_compute.
  - split; [by vm_compute|]. split; by vm_compute.
Qed.

(** C2 as stated fails in binary64.  The candidate layer [9, 2^-30] has the
    sum of squares [81 + 2^-60].  On [b64_matrix] the two trials fit an empty
    layer and the layer [9], whose sums of squares, 0 and 81, are strictly
    smaller: by the specification the candidate is significant.  The program
    computes the score of the candidate as 81.0, and the second trial, which
    scores 81.0 too, rejects it. *)
Lemma significance_test_counterexample :
  ∃ s0 s1 s2 s3 s4 q q1 q2,
    np_copy 0 b64_state = (Ok 1, s0)
    ∧ random_shuffle_flat b64_shuffle 1 s0 = (Ok (), s1)
    ∧ _fit_layer b64_k_means (b64_params 2) 1 s1 = (Ok ([], [], mk_ndarray 0 0 []), s2)
    ∧ random_shuffle_flat b64_shuffle 1 s2 = (Ok (), s3)
    ∧ _fit_layer b64_k_means (b64_params 2) 1 s3
      = (Ok ([0], [0], mk_ndarray 1 1 [9%float]), s4)
    ∧ exact_sum_of_squares <$> exact_array b64_candidate = Some q
    ∧ exact_sum_of_squares <$> exact_array (mk_ndarray 0 0 []) = Some q1
    ∧ exact_sum_of_squares <$> exact_array (mk_ndarray 1 1 [9%float]) = Some q2
    ∧ (q == 81 + (1 # 2 ^ 60))%Q ∧ (q1 == 0)%Q ∧ (q2 == 81)%Q
    ∧ (q1 < q)%Q ∧ (q2 < q)%Q
    ∧ sum_of_squares b64_candidate = 81%float
    ∧ sum_of_squares (mk_ndarray 1 1 [9%float]) = 81%float
    ∧ _is_significant b64_k_means b64_shuffle (b64_params 2) 0 b64_candidate b64_state
      = (Ok false, s4).
Proof.
  do 8 eexists.
  split; [vm_compute; reflexivity|].
  split; [vm_compute; reflexivity|].
  split; [vm_compute; reflexivity|].
  split; [vm_compute; reflexivity|].
  split; [vm_compute; reflexivity|].
  split; [vm_compute; reflexivity|].
  split; [vm_compute; reflexivity|].
  split; [vm_compute; reflexivity|].
  split; [by vm_compute|]. split; [by vm_compute|]. split; [by vm_compute|].
  split; [by vm_compute|]. split; [by vm_compute|].
  split; [by vm_compute|]. split; [by vm_compute|].
  vm_compute. reflexivity.
Qed.

(** A threshold that is not a number passes the validation: each of the
    four comparisons of the check is false. *)
Example nan_threshold_is_accepted :
  _validate_parameters (mk_Plaid 10 true nan 0.5%float 3 1 6 10 false) = Ok ().
Proof. reflexivity. Qed.

(** * The theorems at concrete inputs *)

Lemma demo_k_means_labels g a n g' labels :
  demo_k_means g a n = (g', Ok labels) → length labels = nrows a.
Proof. intros [= _ <-]. by rewrite length_map, length_arange. Qed.

(** The scenario of the specification: the planted 2x2 block is recovered. *)
Example planted_block_recovered :
  (run demo_k_means demo_shuffle block_params 0 block_state).1
  = Ok (OnlyBiclustering (mk_Biclustering 2))
  ∧ heap (run demo_k_means demo_shuffle block_params 0 block_state).2 !! 2
    = Some (PyBiclusters [mk_Bicluster [0; 1] [0; 1]]).
Proof. split; by vm_compute. Qed.

(** A round on [demo_matrix]: row 1 and column 1 are pruned; with a laxer
    row threshold row 1 stays, and the columns kept are the same. *)
Example round_on_demo_matrix :
  (fit_layer_round (demo_params false false 0) 0 ([0; 1], [0; 1], demo_layer)
     demo_state).1
  = Ok (Continue ([0], [0], mk_ndarray 1 1 [9%Q]))
  ∧ ∃ layer',
      (fit_layer_round (mk_Plaid 1 false (1 # 100) (1 # 2) 0 1 6 2 false) 0
         ([0; 1], [0; 1], demo_layer) demo_state).1
      = Ok (Continue ([0], [0], layer')).
Proof. split; [by vm_compute|]. eexists. by vm_compute. Qed.

(** The pruning rule on [b64_matrix], in binary64: row 0 and column 0 pass
    the comparison, row 1 and column 1 do not. *)
Lemma pruning_rule_witness :
  heap b64_state !! 0 = Some (PyArray b64_matrix)
  ∧ wf b64_layer
  ∧ nrows b64_layer = length [0; 1] ∧ ncols b64_layer = length [0; 1]
  ∧ Forall (λ i, i < nrows b64_matrix) [0; 1]
  ∧ Forall (λ j, j < ncols b64_matrix) [0; 1]
  ∧ NoDup [0; 1]
  ∧ ∃ c rows' cols' layer',
      fit_layer_round (b64_params 0) 0 ([0; 1], [0; 1], b64_layer) b64_state
      = (Ok c, b64_state)
      ∧ ctrl_value c = (rows', cols', layer')
      ∧ 0 ∈ rows' ∧ (1 ∉ rows') ∧ 0 ∈ cols' ∧ (1 ∉ cols').
Proof.
  assert (heap b64_state !! 0 = Some (PyArray b64_matrix)) as H1 by reflexivity.
  assert (wf b64_layer) as H2 by reflexivity.
  assert (Forall (λ i, i < 3) [0; 1]) as H3 by (repeat constructor; lia).
  assert (NoDup [0; 1]) as H4 by (apply NoDup_ListNoDup; repeat constructor; simpl; lia).
  split; [exact H1|]. split; [exact H2|]. split; [reflexivity|]. split; [reflexivity|].
  split; [exact H3|]. split; [exact H3|]. split; [exact H4|].
  destruct (pruning_rule (b64_params 0) 0 b64_matrix b64_state
              [0; 1] [0; 1] b64_layer H1 H2 eq_refl eq_refl H3 H3 H4 H4)
    as (c & rows' & cols' & layer' & Hrun & Hval & Hrows & Hcols & _).
  exists c, rows', cols', layer'. split; [exact Hrun|]. split; [exact Hval|].
  split; [|split; [|split]].
  - apply (Hrows 0 0 eq_refl). by vm_compute.
  - intros Hin. apply (Hrows 1 1 eq_refl) in Hin. by vm_compute in Hin.
  - apply (Hcols 0 0 eq_refl). by vm_compute.
  - intros Hin. apply (Hcols 1 1 eq_refl) in Hin. by vm_compute in Hin.
Defined.

(** The significance test on [b64_matrix] with two trials, in binary64: the
    first trial, on the reversed matrix, fits an empty layer and scores 0.0;
    the second, on the matrix itself, scores 81.0 and rejects the candidate
    [9, 2^-30], whose computed score is 81.0. *)
Lemma significance_test_trials_witness :
  (∀ g buf, (b64_shuffle g buf).2 ≡ₚ buf)
  ∧ heap b64_state !! 0 = Some (PyArray b64_matrix)
  ∧ ∃ c s0 x1 s1 x2 s2,
      np_copy 0 b64_state = (Ok c, s0)
      ∧ trial b64_k_means b64_shuffle (b64_params 2) c s0 x1 0%float s1
      ∧ trial b64_k_means b64_shuffle (b64_params 2) c s1 x2 81%float s2
      ∧ _is_significant b64_k_means b64_shuffle (b64_params 2) 0 b64_candidate b64_state
        = (Ok false, s2).
Proof.
  assert (heap b64_state !! 0 = Some (PyArray b64_matrix)) as H1 by reflexivity.
  split; [exact b64_shuffle_permutes|]. split; [exact H1|].
  destruct (significance_test_trials b64_k_means b64_shuffle b64_shuffle_permutes
              (b64_params 2) 0 b64_candidate b64_state b64_matrix H1)
    as (c & s0 & sq & Hsq & Hcopy & _ & _ & _ & Hreject & _).
  assert (np_sum sq = 81%float) as Hscore.
  { vm_compute in Hsq. injection Hsq as <-. by vm_compute. }
  rewrite Hscore in Hreject.
  pose proof Hcopy as Hcopy'. vm_compute in Hcopy'. injection Hcopy' as <- <-.
  assert (∃ x1 s1, trial b64_k_means b64_shuffle (b64_params 2) 1
            (np_copy 0 b64_state).2 x1 0%float s1
          ∧ ∃ x2 s2, trial b64_k_means b64_shuffle (b64_params 2) 1 s1 x2 81%float s2)
    as (x1 & s1 & Ht1 & x2 & s2 & Ht2).
  { do 2 eexists. split.
    - unfold trial. do 5 eexists.
      split; [vm_compute; reflexivity|]. split; [vm_compute; reflexivity|].
      split; [vm_compute; reflexivity|]. split; [vm_compute; reflexivity|].
      by vm_compute.
    - do 2 eexists. unfold trial. do 5 eexists.
      split; [vm_compute; reflexivity|]. split; [vm_compute; reflexivity|].
      split; [vm_compute; reflexivity|]. split; [vm_compute; reflexivity|].
      by vm_compute. }
  eexists _, _, x1, s1, x2, s2. split; [exact Hcopy|].
  split; [exact Ht1|]. split; [exact Ht2|].
  apply (Hreject [(x1, 0%float)] x2 81%float s2).
  - econstructor; [exact Ht1|]. econstructor; [exact Ht2|]. constructor.
  - simpl. lia.
  - constructor; [by vm_compute|constructor].
  - by vm_compute.
Defined.

(** A run with a background layer, in biclusters-only mode. *)
Lemma trimming_correctness_witness :
  (∀ g a n g' labels, demo_k_means g a n = (g', Ok labels) → length labels = nrows a)
  ∧ heap demo_state !! 0 = Some (PyArray demo_matrix)
  ∧ fit_background_layer (demo_params true false 0) = true
  ∧ (run demo_k_means demo_shuffle (demo_params true false 0) 0 demo_state).1
    = Ok (OnlyBiclustering (mk_Biclustering 2))
  ∧ ∃ found,
      heap (run demo_k_means demo_shuffle (demo_params true false 0) 0 demo_state).2 !! 2
      = Some (PyBiclusters found)
      ∧ ∀ b, b ∈ found → b ≠ full_bicluster 3 3.
Proof.
  assert (heap demo_state !! 0 = Some (PyArray demo_matrix)) as H1 by reflexivity.
  assert ((run demo_k_means demo_shuffle (demo_params true false 0) 0 demo_state).1
          = Ok (OnlyBiclustering (mk_Biclustering 2))) as H2 by (by vm_compute).
  split; [exact demo_k_means_labels|]. split; [exact H1|]. split; [reflexivity|].
  split; [exact H2|].
  destruct (run demo_k_means demo_shuffle (demo_params true false 0) 0 demo_state)
    as [r s1] eqn:E.
  simpl in H2. subst r.
  destruct (trimming_correctness demo_k_means demo_shuffle demo_k_means_labels
              (demo_params true false 0) 0 demo_state demo_matrix _ _ H1 eq_refl E)
    as (B & found & HB & Hfound & Hfull).
  injection HB as <-. exists found. by split.
Defined.

(** The thresholds 1/2 and 99/100 on [demo_matrix]. *)
Lemma prune_antitone_witness :
  wf demo_layer
  ∧ nrows demo_layer = length [0; 1] ∧ ncols demo_layer = length [0; 1]
  ∧ Forall (λ i, i < nrows demo_matrix) [0; 1]
  ∧ Forall (λ j, j < ncols demo_matrix) [0; 1]
  ∧ (1 # 2 <= 99 # 100)%Q
  ∧ ∃ kept1 kept2,
      _prune demo_matrix demo_layer [0; 1] [0; 1] (1 # 2) = Ok kept1
      ∧ _prune demo_matrix demo_layer [0; 1] [0; 1] (99 # 100) = Ok kept2
      ∧ kept2 `sublist_of` kept1
      ∧ length kept2 ≤ length kept1.
Proof.
  assert (wf demo_layer) as H2 by reflexivity.
  assert (Forall (λ i, i < 3) [0; 1]) as H3 by (repeat constructor; lia).
  assert (1 # 2 <= 99 # 100)%Q as H4 by (by vm_compute).
  split; [exact H2|]. split; [reflexivity|]. split; [reflexivity|].
  split; [exact H3|]. split; [exact H3|]. split; [exact H4|].
  exact (prune_antitone_in_threshold demo_matrix demo_layer [0; 1] [0; 1]
           (1 # 2) (99 # 100) H2 eq_refl eq_refl H3 H3 H4).
Defined.

(** A round on [demo_matrix], and the same round with another row threshold. *)
Lemma column_pruning_witness :
  heap demo_state !! 0 = Some (PyArray demo_matrix)
  ∧ wf demo_layer
  ∧ nrows demo_layer = length [0; 1] ∧ ncols demo_layer = length [0; 1]
  ∧ Forall (λ i, i < nrows demo_matrix) [0; 1]
  ∧ Forall (λ j, j < ncols demo_matrix) [0; 1]
  ∧ _prune (transpose demo_matrix) (transpose demo_layer) [0; 1] [0; 1] (1 # 2)
    = Ok (select (col_keeps demo_matrix demo_layer [0; 1] (1 # 2)) [0; 1])
  ∧ ∃ c2 rows2 layer2,
      fit_layer_round (mk_Plaid 1 false (1 # 100) (1 # 2) 0 1 6 2 false) 0
        ([0; 1], [0; 1], demo_layer) demo_state = (Ok c2, demo_state)
      ∧ ctrl_value c2
        = (rows2, select (col_keeps demo_matrix demo_layer [0; 1] (1 # 2)) [0; 1], layer2).
Proof.
  assert (heap demo_state !! 0 = Some (PyArray demo_matrix)) as H1 by reflexivity.
  assert (wf demo_layer) as H2 by reflexivity.
  assert (Forall (λ i, i < 3) [0; 1]) as H3 by (repeat constructor; lia).
  split; [exact H1|]. split; [exact H2|]. split; [reflexivity|]. split; [reflexivity|].
  split; [exact H3|]. split; [exact H3|].
  destruct (column_pruning_uses_start_rows (demo_params false false 0) 0 demo_matrix
              demo_state [0; 1] [0; 1] demo_layer H1 H2 eq_refl eq_refl H3 H3)
    as (c & rows' & cols' & layer' & _ & _ & _ & _ & Hp & -> & Hother).
  split; [exact Hp|].
  exact (Hother (mk_Plaid 1 false (1 # 100) (1 # 2) 0 1 6 2 false) eq_refl).
Defined.

(** The entry (0, 2) of the layer fitted on [demo_matrix]. *)
Lemma create_layer_closed_form_witness :
  wf demo_matrix ∧ 0 < nrows demo_matrix ∧ 2 < ncols demo_matrix
  ∧ get (_create_layer demo_matrix) 0 2
    = (average (cells demo_matrix)
       + (average (row_of demo_matrix 0) - average (cells demo_matrix))
       + (average (col_of demo_matrix 2) - average (cells demo_matrix)))%Q.
Proof.
  assert (wf demo_matrix) as H1 by reflexivity.
  assert (0 < nrows demo_matrix) as H2 by (simpl; lia).
  assert (2 < ncols demo_matrix) as H3 by (simpl; lia).
  split; [exact H1|]. split; [exact H2|]. split; [exact H3|].
  exact (proj2 (proj2 (proj2 (create_layer_closed_form demo_matrix 0 2 H1 H2 H3)))).
Defined.

(** A run in layers mode leaves [demo_matrix] at location 0. *)
Lemma run_leaves_input_witness :
  heap demo_state !! 0 = Some (PyArray demo_matrix)
  ∧ heap (run demo_k_means demo_shuffle (demo_params true true 1) 0 demo_state).2 !! 0
    = Some (PyArray demo_matrix).
Proof.
  assert (heap demo_state !! 0 = Some (PyArray demo_matrix)) as H1 by reflexivity.
  split; [exact H1|].
  exact (proj1 (proj2 (run_leaves_input demo_k_means demo_shuffle
                         (demo_params true true 1) 0 demo_state demo_matrix H1))).
Defined.

(** Two trials leave [demo_matrix] at location 0. *)
Lemma is_significant_leaves_residuals_witness :
  heap demo_state !! 0 = Some (PyArray demo_matrix)
  ∧ heap (_is_significant demo_k_means demo_shuffle (demo_params false false 2) 0
            demo_layer demo_state).2 !! 0
    = Some (PyArray demo_matrix).
Proof.
  assert (heap demo_state !! 0 = Some (PyArray demo_matrix)) as H1 by reflexivity.
  split; [exact H1|].
  exact (proj1 (is_significant_leaves_residuals demo_k_means demo_shuffle
                  (demo_params false false 2) 0 demo_layer demo_state demo_matrix H1)).
Defined.

(** A residual whose first row is zero: that row is pruned. *)
Lemma prune_drops_zero_rows_witness :
  ∃ kept,
    _prune (mk_ndarray 2 2 [0; 0; 1; 2]%Q) (mk_ndarray 2 2 [0; 0; 1; 2]%Q)
      [0; 1] [0; 1] (1 # 2) = Ok kept
    ∧ 0 ∉ kept.
Proof.
  apply (prune_drops_zero_rows (mk_ndarray 2 2 [0; 0; 1; 2]%Q)
           (mk_ndarray 2 2 [0; 0; 1; 2]%Q) [0; 1] [0; 1] (1 # 2) 0).
  - reflexivity.
  - reflexivity.
  - reflexivity.
  - repeat constructor; simpl; lia.
  - repeat constructor; simpl; lia.
  - intros j Hj.
    apply elem_of_cons in Hj as [->|Hj]; [reflexivity|].
    apply elem_of_cons in Hj as [->|Hj]; [reflexivity|].
    by apply elem_of_nil in Hj.
Defined.

(** Row 5 is beyond the three rows of [demo_matrix]. *)
Lemma prune_index_error_witness :
  _prune demo_matrix demo_layer [0; 5] [0; 1] (1 # 2) = Raise IndexError.
Proof.
  apply prune_index_error; [done|done|]. left. exists 5. split; [|simpl; lia].
  right. left.
Defined.

(** On [demo_matrix] the stand-in labels the rows 0, 1, 1: the
    initialization returns the cluster of row 0. *)
Lemma kmeans_initialization_smaller_cluster_witness :
  _kmeans_initialization demo_k_means (demo_params false false 0) demo_matrix demo_state
  = (Ok [0], demo_state)
  ∧ ∃ labels v,
      demo_k_means tt demo_matrix 6 = (tt, Ok labels)
      ∧ (∀ i, i ∈ [0] ↔ labels !! i = Some v)
      ∧ 2 * length [0] ≤ length labels.
Proof.
  assert (_kmeans_initialization demo_k_means (demo_params false false 0) demo_matrix
            demo_state = (Ok [0], demo_state)) as H1 by (by vm_compute).
  split; [exact H1|].
  destruct (kmeans_initialization_smaller_cluster demo_k_means _ _ _ _ _ H1)
    as (labels & v & Hk & _ & _ & Hin & _ & Hlen & _).
  exists labels, v. split; [exact Hk|]. split; [exact Hin|exact Hlen].
Defined.

(** The two outcomes of the unpacking on [demo_matrix]: two clusters, and
    one cluster only. *)
Lemma kmeans_initialization_unpacks_two_counts_witness :
  demo_k_means tt demo_matrix 6 = (tt, Ok [0; 1; 1])
  ∧ (∃ rows, _kmeans_initialization demo_k_means (demo_params false false 0)
               demo_matrix demo_state = (Ok rows, demo_state))
  ∧ one_cluster_k_means tt demo_matrix 6 = (tt, Ok [0; 0; 0])
  ∧ (∃ msg, _kmeans_initialization one_cluster_k_means (demo_params false false 0)
              demo_matrix demo_state = (Raise (ValueError msg), demo_state)).
Proof.
  assert (demo_k_means tt demo_matrix 6 = (tt, Ok [0; 1; 1])) as H1 by (by vm_compute).
  assert (one_cluster_k_means tt demo_matrix 6 = (tt, Ok [0; 0; 0])) as H2 by reflexivity.
  split; [exact H1|]. split; [|split; [exact H2|]].
  - apply (proj1 (kmeans_initialization_unpacks_two_counts demo_k_means
                    (demo_params false false 0) demo_matrix demo_state tt [0; 1; 1] H1)).
    reflexivity.
  - apply (proj2 (kmeans_initialization_unpacks_two_counts one_cluster_k_means
                    (demo_params false false 0) demo_matrix demo_state tt [0; 0; 0] H2)).
    by vm_compute.
Defined.

(** The layer fitted on [demo_matrix]: the corner entry. *)
Lemma fit_layer_refines_initial_selection_witness :
  heap demo_state !! 0 = Some (PyArray demo_matrix)
  ∧ _fit_layer demo_k_means (demo_params false false 0) 0 demo_state
    = (Ok ([0], [0], mk_ndarray 1 1 [9%Q]), demo_state)
  ∧ [0] `sublist_of` arange (nrows demo_matrix)
  ∧ [0] `sublist_of` arange (ncols demo_matrix).
Proof.
  assert (heap demo_state !! 0 = Some (PyArray demo_matrix)) as H1 by reflexivity.
  assert (_fit_layer demo_k_means (demo_params false false 0) 0 demo_state
          = (Ok ([0], [0], mk_ndarray 1 1 [9%Q]), demo_state)) as H2 by (by vm_compute).
  split; [exact H1|]. split; [exact H2|].
  exact (proj2 (proj2 (fit_layer_refines_initial_selection demo_k_means _ _ _ _ _ _ _ _
                         H1 H2))).
Defined.

(** The layer returned for [demo_matrix] is the one fitted on its corner. *)
Lemma fit_layer_returns_fitted_layer_witness :
  heap demo_state !! 0 = Some (PyArray demo_matrix)
  ∧ _fit_layer demo_k_means (demo_params false false 0) 0 demo_state
    = (Ok ([0], [0], mk_ndarray 1 1 [9%Q]), demo_state)
  ∧ ∃ g, take_grid demo_matrix [0] [0] = Ok g
      ∧ mk_ndarray 1 1 [9%Q] = _create_layer g.
Proof.
  assert (heap demo_state !! 0 = Some (PyArray demo_matrix)) as H1 by reflexivity.
  assert (_fit_layer demo_k_means (demo_params false false 0) 0 demo_state
          = (Ok ([0], [0], mk_ndarray 1 1 [9%Q]), demo_state)) as H2 by (by vm_compute).
  split; [exact H1|]. split; [exact H2|].
  destruct (fit_layer_returns_fitted_layer demo_k_means _ _ _ _ _ _ _ _ H1 H2)
    as (g & Hg & Hl & _); [done..|].
  by exists g.
Defined.

Lemma one_cluster_k_means_labels g a n g' labels :
  one_cluster_k_means g a n = (g', Ok labels) → length labels = nrows a.
Proof. intros [= _ <-]. by rewrite length_map, length_arange. Qed.

(** With one cluster only, [_fit_layer] fails where the initialization does. *)
Lemma fit_layer_raises_with_initialization_witness :
  (∀ g a n g' labels,
     one_cluster_k_means g a n = (g', Ok labels) → length labels = nrows a)
  ∧ heap demo_state !! 0 = Some (PyArray demo_matrix)
  ∧ ∃ e s1,
      _fit_layer one_cluster_k_means (demo_params false false 0) 0 demo_state
      = (Raise e, s1)
      ∧ _generate_initial_bicluster one_cluster_k_means (demo_params false false 0) 0
          demo_state = (Raise e, s1).
Proof.
  assert (heap demo_state !! 0 = Some (PyArray demo_matrix)) as H1 by reflexivity.
  assert (_fit_layer one_cluster_k_means (demo_params false false 0) 0 demo_state
          = (Raise (ValueError "values to unpack (expected 2)"), demo_state)) as H2
    by (by vm_compute).
  split; [exact one_cluster_k_means_labels|]. split; [exact H1|].
  eexists _, _. split; [exact H2|].
  exact (fit_layer_raises_with_initialization one_cluster_k_means
           one_cluster_k_means_labels _ _ _ _ _ _ H1 H2).
Defined.


(** A run in biclusters-only mode on [demo_matrix]. *)
Lemma discovered_biclusters_are_valid_witness :
  heap demo_state !! 0 = Some (PyArray demo_matrix)
  ∧ wf demo_matrix
  ∧ return_layers (demo_params true false 0) = false
  ∧ (run demo_k_means demo_shuffle (demo_params true false 0) 0 demo_state).1
    = Ok (OnlyBiclustering (mk_Biclustering 2))
  ∧ ∃ found,
      heap (run demo_k_means demo_shuffle (demo_params true false 0) 0 demo_state).2 !! 2
      = Some (PyBiclusters found)
      ∧ (Z.of_nat (length found) <= 1)%Z
      ∧ Forall (λ b, b_rows b ≠ [] ∧ b_cols b ≠ []
                     ∧ b_rows b `sublist_of` arange 3
                     ∧ b_cols b `sublist_of` arange 3) found.
Proof.
  assert (heap demo_state !! 0 = Some (PyArray demo_matrix)) as H1 by reflexivity.
  assert (wf demo_matrix) as H2 by reflexivity.
  assert ((run demo_k_means demo_shuffle (demo_params true false 0) 0 demo_state).1
          = Ok (OnlyBiclustering (mk_Biclustering 2))) as H3 by (by vm_compute).
  split; [exact H1|]. split; [exact H2|]. split; [reflexivity|]. split; [exact H3|].
  destruct (run demo_k_means demo_shuffle (demo_params true false 0) 0 demo_state)
    as [r s1] eqn:E.
  simpl in H3. subst r.
  destruct (discovered_biclusters_are_valid demo_k_means demo_shuffle
              (demo_params true false 0) 0 demo_state demo_matrix _ _ H1 H2 eq_refl E)
    as (B & found & HB & Hfound & Hcount & Hvalid).
  injection HB as <-. exists found. by repeat split.
Defined.

(** A round on the corner entry of [demo_matrix] changes nothing, and neither
    do five more. *)
Lemma fit_layer_converged_is_stable_witness :
  heap demo_state !! 0 = Some (PyArray demo_matrix)
  ∧ fitted demo_matrix ([0], [0], mk_ndarray 1 1 [9%Q])
  ∧ fit_layer_round (demo_params false false 0) 0 ([0], [0], mk_ndarray 1 1 [9%Q])
      demo_state
    = (Ok (Continue ([0], [0], mk_ndarray 1 1 [9%Q])), demo_state)
  ∧ for_range 5 (fit_layer_round (demo_params false false 0) 0)
      ([0], [0], mk_ndarray 1 1 [9%Q]) demo_state
    = (Ok ([0], [0], mk_ndarray 1 1 [9%Q]), demo_state).
Proof.
  assert (heap demo_state !! 0 = Some (PyArray demo_matrix)) as H1 by reflexivity.
  assert (fitted demo_matrix ([0], [0], mk_ndarray 1 1 [9%Q])) as H2.
  { exists (mk_ndarray 1 1 [9%Q]). split; [reflexivity|by vm_compute]. }
  assert (fit_layer_round (demo_params false false 0) 0 ([0], [0], mk_ndarray 1 1 [9%Q])
            demo_state
          = (Ok (Continue ([0], [0], mk_ndarray 1 1 [9%Q])), demo_state)) as H3
    by (by vm_compute).
  split; [exact H1|]. split; [exact H2|]. split; [exact H3|].
  exact (proj2 (proj2 (fit_layer_converged_is_stable (demo_params false false 0) 0
                         demo_matrix demo_state [0] [0] _ _ _ H1 H2 H3)) 5).
Defined.

(** No bicluster is asked for: [run] raises before it reads the data. *)
Lemma run_checks_configuration_first_witness :
  ∃ msg,
    _validate_parameters (mk_Plaid 0 true (1 # 2) (1 # 2) 3 1 6 10 false)
    = Raise (ValueError msg)
    ∧ run demo_k_means demo_shuffle (mk_Plaid 0 true (1 # 2) (1 # 2) 3 1 6 10 false) 0
        demo_state
      = (Raise (ValueError msg), demo_state).
Proof.
  apply (proj2 (run_checks_configuration_first demo_k_means demo_shuffle
                  (mk_Plaid 0 true (1 # 2) (1 # 2) 3 1 6 10 false) 0 demo_state)).
  intros (Hpos & _). simpl in Hpos. lia.
Defined.
